(** * FBReader string-resource translator: flatten / reconstruct pipeline

    A shallow embedding of [auto_translator.py] (classes [XMLHandler],
    [Unpacker], [Packer] and the function [translate_xml]) and of the
    older variant [fbtranslator.py] ([Packer.modify_folder_name],
    [Packer.generate]), followed by the properties of the pipeline.

    Conventions of the embedding.
    - A Python [str] is a [string]; each character stands for one code
      point, so the development covers code points below 256.  Ordering
      of strings is the code-point order Python uses for [sorted].
    - A Python [dict] is an insertion-ordered association list ([Dict]):
      assignment to a present key keeps its position, assignment to a new
      key appends.
    - Paths follow [pathlib.PurePosixPath]: [os.sep] is ["/"].
    - [print] is modelled by a list of structured log events, oldest
      first; each event carries the values interpolated in the message.
    - Everything the operating system decides (whether a write succeeds,
      what a directory scan returns, what the translation service answers,
      when the stop flag is raised) is an explicit argument. *)

From Stdlib Require Import String Ascii List Bool Arith Lia.
From Stdlib Require Import Sorting.Sorted Sorting.Permutation.
From Stdlib Require Import Structures.OrderedTypeEx.
Import ListNotations.
Local Open Scope string_scope.
Local Open Scope list_scope.

(* ===================================================================== *)
(** ** Python string primitives *)
(* ===================================================================== *)

Module Str.

(** [s.startswith(p)] *)
Definition startswith (s p : string) : bool := String.prefix p s.

(** [s.endswith("/")] and friends, for a one-character suffix. *)
Fixpoint endswith_char (s : string) (c : ascii) : bool :=
  match s with
  | EmptyString => false
  | String a EmptyString => Ascii.eqb a c
  | String _ s' => endswith_char s' c
  end.

(** [s.split(sep)] for a one-character separator: never returns the
    empty list; [''.split('/')] is [['']]. *)
Fixpoint split (sep : ascii) (s : string) : list string :=
  match s with
  | EmptyString => [EmptyString]
  | String c s' =>
      if Ascii.eqb c sep then EmptyString :: split sep s'
      else match split sep s' with
           | [] => [String c EmptyString]
           | h :: t => String c h :: t
           end
  end.

(** [c in s] for a character. *)
Fixpoint contains_char (c : ascii) (s : string) : bool :=
  match s with
  | EmptyString => false
  | String a s' => Ascii.eqb a c || contains_char c s'
  end.

(** [s.split(sep, 1)] when [sep] occurs in [s]: the text before and
    after the first occurrence. *)
Fixpoint split_first (sep : ascii) (s : string) : string * string :=
  match s with
  | EmptyString => (EmptyString, EmptyString)
  | String c s' =>
      if Ascii.eqb c sep then (EmptyString, s')
      else let '(a, b) := split_first sep s' in (String c a, b)
  end.

(** [str.isspace] on one code point below 256: TAB, LF, VT, FF, CR,
    FS, GS, RS, US, SPACE, NEL (0x85) and NBSP (0xA0). *)
Definition is_space (c : ascii) : bool :=
  let n := nat_of_ascii c in
  (Nat.leb 9 n && Nat.leb n 13) || (Nat.leb 28 n && Nat.leb n 32)
  || Nat.eqb n 133 || Nat.eqb n 160.

Fixpoint lstrip (s : string) : string :=
  match s with
  | EmptyString => EmptyString
  | String c s' => if is_space c then lstrip s' else s
  end.

Fixpoint all_space (s : string) : bool :=
  match s with
  | EmptyString => true
  | String c s' => is_space c && all_space s'
  end.

Fixpoint rstrip (s : string) : string :=
  match s with
  | EmptyString => EmptyString
  | String c s' => if all_space s then EmptyString else String c (rstrip s')
  end.

(** [s.strip()] *)
Definition strip (s : string) : string := rstrip (lstrip s).

(** [s.isspace()]: true when [s] is non-empty and all white space. *)
Definition isspace (s : string) : bool :=
  match s with
  | EmptyString => false
  | _ => all_space s
  end.

(** [s[n:]] *)
Fixpoint drop (n : nat) (s : string) : string :=
  match n, s with
  | S n', String _ s' => drop n' s'
  | _, _ => s
  end.

(** Truthiness of a [str]: [not s] is [is_empty s]. *)
Definition is_empty (s : string) : bool :=
  match s with EmptyString => true | _ => false end.

(** Universal-newline translation done by text-mode [open] (and by the
    XML parser on its input): CR LF and a lone CR both become LF. *)
Fixpoint normalize_newlines (s : string) : string :=
  match s with
  | EmptyString => EmptyString
  | String c s' =>
      if Ascii.eqb c "013" then
        match s' with
        | String d s'' =>
            if Ascii.eqb d "010" then String "010" (normalize_newlines s'')
            else String "010" (normalize_newlines s')
        | EmptyString => String "010" EmptyString
        end
      else String c (normalize_newlines s')
  end.

End Str.

(* ===================================================================== *)
(** ** Insertion-ordered dictionaries *)
(* ===================================================================== *)

Module Dict.

Section WithValue.
Context {V : Type}.

Definition t := list (string * V).

Definition empty : t := [].

(** [d.get(k)] / [d[k]] *)
Fixpoint get (k : string) (d : t) : option V :=
  match d with
  | [] => None
  | (k', v) :: d' => if String.eqb k k' then Some v else get k d'
  end.

(** [k in d] *)
Definition mem (k : string) (d : t) : bool :=
  match get k d with Some _ => true | None => false end.

(** [d[k] = v] *)
Fixpoint set (k : string) (v : V) (d : t) : t :=
  match d with
  | [] => [(k, v)]
  | (k', v') :: d' =>
      if String.eqb k k' then (k', v) :: d' else (k', v') :: set k v d'
  end.

(** [d.keys()], in iteration order. *)
Definition keys (d : t) : list string := map fst d.

(** [d.items()] *)
Definition items (d : t) : list (string * V) := d.

(** [len(d)] *)
Definition size (d : t) : nat := List.length d.

(** [not d] *)
Definition is_empty (d : t) : bool :=
  match d with [] => true | _ => false end.

End WithValue.

Arguments t : clear implicits.

End Dict.

(* ===================================================================== *)
(** ** pathlib.PurePosixPath *)
(* ===================================================================== *)

Module PosixPath.

(** A parsed path: the root (empty, ["/"] or ["//"]) and the remaining
    components.  POSIX paths have no drive. *)
Record t := mk { root : string; tail : list string }.

(** A component kept by the parser: neither empty nor ["."]. *)
Definition keep (x : string) : bool :=
  negb (String.eqb x "") && negb (String.eqb x ".").

(** [rel.split('/')] without the empty and ["."] components. *)
Definition parse_rel (rel : string) : list string :=
  filter keep (Str.split "/" rel).

(** [posixpath.splitroot]: one leading slash, or exactly two, form the
    root; three or more collapse to one. *)
Definition splitroot (p : string) : string * string :=
  if negb (Str.startswith p "/") then ("", p)
  else if negb (Str.startswith p "//") || Str.startswith p "///"
       then ("/", Str.drop 1 p)
       else ("//", Str.drop 2 p).

(** [PurePath._parse_path] *)
Definition parse (p : string) : t :=
  let '(r, rel) := splitroot p in mk r (parse_rel rel).

(** One step of [posixpath.join]. *)
Definition join2 (path b : string) : string :=
  if Str.startswith b "/" then b
  else if Str.is_empty path || Str.endswith_char path "/" then path ++ b
  else path ++ "/" ++ b.

(** [posixpath.join] of a first path and the list of the others. *)
Definition join (a : string) (p : list string) : string :=
  fold_left join2 p a.

(** The [PurePosixPath] constructor applied to the arguments [args]. *)
Definition of_args (args : list string) : t :=
  match args with
  | [] => parse ""
  | a :: p => parse (join a p)
  end.

(** [str(path)] *)
Definition str (p : t) : string :=
  match root p, tail p with
  | "", [] => "."
  | r, tl => r ++ String.concat "/" tl
  end.

(** [path.parts] *)
Definition parts (p : t) : list string :=
  match root p with
  | "" => tail p
  | r => r :: tail p
  end.

(** [path.name] *)
Definition name (p : t) : string := last (tail p) "".

(** [path.parent]; the parent of a path without components is itself. *)
Definition parent (p : t) : t := mk (root p) (removelast (tail p)).

(** [path / key] for a string [key]. *)
Definition div (p : t) (key : string) : t := of_args [str p; key].

(** [path / other] for a path [other]. *)
Definition div_path (p q : t) : t := of_args [str p; str q].

(** A path component as the parser produces it. *)
Definition segment (x : string) : Prop :=
  keep x = true /\ Str.contains_char "/" x = false.

End PosixPath.

(* ===================================================================== *)
(** ** xml.etree.ElementTree *)
(* ===================================================================== *)

(** The parser covers the fragment of XML the resource files use: an
    optional XML declaration, comments, elements, attributes, character
    data, the five predefined entities and numeric character references
    below 256.  Document types, CDATA sections, processing instructions
    and namespace prefixes are outside the fragment, and the characters
    XML forbids are not rejected.  [None] stands for [ET.ParseError]. *)
Module ElementTree.

(** An [Element]: tag, attributes in document order, [text], and the
    children, each with its [tail].  A [text] or [tail] of [None] is
    the empty string. *)
#[warnings="-register-all"]
Inductive element : Type :=
| Element (tag : string) (attrib : list (string * string))
          (text : string) (children : list (element * string)).

Definition tag (e : element) : string := let 'Element t _ _ _ := e in t.
Definition attrib (e : element) := let 'Element _ a _ _ := e in a.
Definition text (e : element) : string := let 'Element _ _ x _ := e in x.
Definition children (e : element) := let 'Element _ _ _ c := e in c.

(** [elem.get(key)] *)
Definition get (e : element) (key : string) : option string :=
  Dict.get key (attrib e).

(** [elem.findall(t)]: the direct children with tag [t]. *)
Definition findall (e : element) (t : string) : list element :=
  filter (fun c => String.eqb (tag c) t) (map fst (children e)).

(** *** Lexical helpers *)

Definition is_xml_space (c : ascii) : bool :=
  let n := nat_of_ascii c in
  Nat.eqb n 32 || Nat.eqb n 9 || Nat.eqb n 10 || Nat.eqb n 13.

Fixpoint skip_ws (s : string) : string :=
  match s with
  | String c s' => if is_xml_space c then skip_ws s' else s
  | EmptyString => s
  end.

Definition between (lo hi n : nat) : bool := Nat.leb lo n && Nat.leb n hi.

Definition is_name_start (c : ascii) : bool :=
  let n := nat_of_ascii c in
  between 65 90 n || between 97 122 n || Nat.eqb n 95 || Nat.eqb n 58
  || Nat.leb 128 n.

Definition is_name_char (c : ascii) : bool :=
  let n := nat_of_ascii c in
  is_name_start c || between 48 57 n || Nat.eqb n 45 || Nat.eqb n 46.

Fixpoint take_while (p : ascii -> bool) (s : string) : string * string :=
  match s with
  | String c s' =>
      if p c then let '(a, b) := take_while p s' in (String c a, b)
      else (EmptyString, s)
  | EmptyString => (EmptyString, EmptyString)
  end.

(** An XML name at the head of [s], or the empty string. *)
Definition take_name (s : string) : string * string :=
  match s with
  | String c _ => if is_name_start c then take_while is_name_char s
                  else (EmptyString, s)
  | EmptyString => (EmptyString, s)
  end.

Definition drop := Str.drop.

(** The text after the first occurrence of [stop], if any. *)
Fixpoint skip_past (stop : string) (s : string) : option string :=
  if String.prefix stop s then Some (drop (String.length stop) s)
  else match s with
       | String _ s' => skip_past stop s'
       | EmptyString => None
       end.

Definition digit_value (c : ascii) : option nat :=
  let n := nat_of_ascii c in
  if between 48 57 n then Some (n - 48) else None.

Definition hex_value (c : ascii) : option nat :=
  let n := nat_of_ascii c in
  if between 48 57 n then Some (n - 48)
  else if between 65 70 n then Some (n - 55)
  else if between 97 102 n then Some (n - 87)
  else None.

(** Digits in base [base] up to the closing [;]; at least one digit and
    a value below 256. *)
Fixpoint read_number (base : nat) (value : ascii -> option nat)
         (seen : bool) (acc : nat) (s : string) : option (ascii * string) :=
  match s with
  | String c s' =>
      if Ascii.eqb c ";" then
        if seen && Nat.ltb 0 acc then Some (ascii_of_nat acc, s') else None
      else match value c with
           | Some d =>
               let acc' := base * acc + d in
               if Nat.ltb acc' 256 then read_number base value true acc' s'
               else None
           | None => None
           end
  | EmptyString => None
  end.

(** The reference that follows an ampersand. *)
Definition reference (s : string) : option (ascii * string) :=
  if String.prefix "lt;" s then Some ("<"%char, drop 3 s)
  else if String.prefix "gt;" s then Some (">"%char, drop 3 s)
  else if String.prefix "amp;" s then Some ("&"%char, drop 4 s)
  else if String.prefix "quot;" s then Some ("034"%char, drop 5 s)
  else if String.prefix "apos;" s then Some ("'"%char, drop 5 s)
  else if String.prefix "#x" s then read_number 16 hex_value false 0 (drop 2 s)
  else if String.prefix "#" s then read_number 10 digit_value false 0 (drop 1 s)
  else None.

(** Character data up to the next [<] (which is left in place) or the
    end of the input, references resolved. *)
Fixpoint read_text (fuel : nat) (s : string) : option (string * string) :=
  match fuel with
  | 0 => None
  | S f =>
      match s with
      | EmptyString => Some (EmptyString, EmptyString)
      | String c s' =>
          if Ascii.eqb c "<" then Some (EmptyString, s)
          else if Ascii.eqb c "&" then
            match reference s' with
            | Some (d, r) =>
                match read_text f r with
                | Some (t, r') => Some (String d t, r')
                | None => None
                end
            | None => None
            end
          else match read_text f s' with
               | Some (t, r') => Some (String c t, r')
               | None => None
               end
      end
  end.

(** An attribute value up to the closing quote [q] (consumed): [<] is
    not allowed, references are resolved, literal white space becomes a
    space. *)
Fixpoint read_attr_value (q : ascii) (fuel : nat) (s : string)
  : option (string * string) :=
  match fuel with
  | 0 => None
  | S f =>
      match s with
      | EmptyString => None
      | String c s' =>
          if Ascii.eqb c q then Some (EmptyString, s')
          else if Ascii.eqb c "<" then None
          else if Ascii.eqb c "&" then
            match reference s' with
            | Some (d, r) =>
                match read_attr_value q f r with
                | Some (t, r') => Some (String d t, r')
                | None => None
                end
            | None => None
            end
          else match read_attr_value q f s' with
               | Some (t, r') =>
                   Some (String (if is_xml_space c then " "%char else c) t, r')
               | None => None
               end
      end
  end.

Definition starts_with_space (s : string) : bool :=
  match s with String c _ => is_xml_space c | EmptyString => false end.

(** The attributes of a start tag and its end: [(attrs, closed, rest)]
    where [closed] tells an empty-element tag. *)
Fixpoint parse_attrs (fuel : nat) (s : string)
  : option (list (string * string) * bool * string) :=
  match fuel with
  | 0 => None
  | S f =>
      let s1 := skip_ws s in
      if String.prefix ">" s1 then Some ([], false, drop 1 s1)
      else if String.prefix "/>" s1 then Some ([], true, drop 2 s1)
      else if negb (starts_with_space s) then None
      else
        let '(n, s2) := take_name s1 in
        if Str.is_empty n then None else
        let s3 := skip_ws s2 in
        if negb (String.prefix "=" s3) then None else
        match skip_ws (drop 1 s3) with
        | String q s4 =>
            if Ascii.eqb q "034" || Ascii.eqb q "'" then
              match read_attr_value q f s4 with
              | Some (v, s5) =>
                  match parse_attrs f s5 with
                  | Some (rest, closed, r) =>
                      if Dict.mem n rest then None
                      else Some ((n, v) :: rest, closed, r)
                  | None => None
                  end
              | None => None
              end
            else None
        | EmptyString => None
        end
  end.

(** [parse_element] reads an element whose [<] has been consumed;
    [parse_content] reads the content of an element up to and including
    the [</] of its end tag. *)
Fixpoint parse_element (fuel : nat) (s : string) : option (element * string) :=
  match fuel with
  | 0 => None
  | S f =>
      let '(t, s1) := take_name s in
      if Str.is_empty t then None else
      match parse_attrs f s1 with
      | Some (attrs, true, r) => Some (Element t attrs "" [], r)
      | Some (attrs, false, r) =>
          match parse_content f r with
          | Some (txt, kids, r2) =>
              let '(n, r3) := take_name r2 in
              let r4 := skip_ws r3 in
              if String.eqb n t && String.prefix ">" r4
              then Some (Element t attrs txt kids, drop 1 r4)
              else None
          | None => None
          end
      | None => None
      end
  end
with parse_content (fuel : nat) (s : string)
  : option (string * list (element * string) * string) :=
  match fuel with
  | 0 => None
  | S f =>
      match read_text f s with
      | Some (txt, rest) =>
          if String.prefix "</" rest then Some (txt, [], drop 2 rest)
          else if String.prefix "<!--" rest then
            match skip_past "-->" (drop 4 rest) with
            | Some r1 =>
                match parse_content f r1 with
                | Some (txt2, kids, r2) => Some (String.append txt txt2, kids, r2)
                | None => None
                end
            | None => None
            end
          else if String.prefix "<" rest then
            match parse_element f (drop 1 rest) with
            | Some (e, r1) =>
                match parse_content f r1 with
                | Some (tl, kids, r2) => Some (txt, (e, tl) :: kids, r2)
                | None => None
                end
            | None => None
            end
          else None
      | None => None
      end
  end.

(** White space and comments between the markup of the prolog and
    after the root element. *)
Fixpoint skip_misc (fuel : nat) (s : string) : option string :=
  match fuel with
  | 0 => None
  | S f =>
      let s1 := skip_ws s in
      if String.prefix "<!--" s1 then
        match skip_past "-->" (drop 4 s1) with
        | Some r1 => skip_misc f r1
        | None => None
        end
      else Some s1
  end.

(** [ET.parse(file).getroot()] on the text of the file.  The parser
    covers elements, attributes, character data, the five named and the
    numeric references below 256, comments and the declaration; a
    document with a CDATA section, a document type, a processing
    instruction or a name space is outside of it. *)
Definition parse (content : string) : option element :=
  let s := Str.normalize_newlines content in
  let fuel := S (String.length s) in
  let body :=
    if String.prefix "<?xml" s then skip_past "?>" s else Some s in
  match body with
  | Some s1 =>
      match skip_misc fuel s1 with
      | Some s2 =>
          if negb (String.prefix "<" s2) then None else
          match parse_element fuel (drop 1 s2) with
          | Some (e, s3) =>
              match skip_misc fuel s3 with
              | Some EmptyString => Some e
              | _ => None
              end
          | None => None
          end
      | None => None
      end
  | None => None
  end.

(** *** Searching and writing, as [fbtranslator.py] uses them *)

(** The descendants of [e] in document order, [e] excluded: what the
    path [.//tag] ranges over before the tag test. *)
Fixpoint descendants (e : element) : list element :=
  let 'Element _ _ _ kids := e in
  (fix walk (l : list (element * string)) : list element :=
     match l with
     | [] => []
     | (c, _) :: l' => c :: descendants c ++ walk l'
     end) kids.

Definition is_string_named (key : string) (e : element) : bool :=
  String.eqb (tag e) "string" &&
  match get e "name" with
  | Some v => String.eqb v key
  | None => false
  end.

(** [e.find(".//string[@name='key']")] for a [key] without apostrophe. *)
Definition find_string (e : element) (key : string) : option element :=
  List.find (is_string_named key) (descendants e).

(** [len(e) != 0], the truth value of an element. *)
Definition truthy (e : element) : bool :=
  match children e with [] => false | _ => true end.

(** Assigns [new_text] to the [text] of the first descendant matched by
    [find_string]; the boolean tells whether one was found. *)
Fixpoint set_text (key new_text : string) (e : element) : element * bool :=
  let 'Element t a x kids := e in
  let '(kids', done) :=
    (fix walk (l : list (element * string)) : list (element * string) * bool :=
       match l with
       | [] => ([], false)
       | (c, tl) :: l' =>
           if is_string_named key c then
             let 'Element ct ca _ ck := c in
             ((Element ct ca new_text ck, tl) :: l', true)
           else
             let '(c', done) := set_text key new_text c in
             if done then ((c', tl) :: l', true)
             else let '(l'', done') := walk l' in ((c, tl) :: l'', done')
       end) kids in
  (Element t a x kids', done).

(** [ET.SubElement(parent, tag, attrib)] followed by an assignment of
    its [text]. *)
Definition append_child (parent : element) (child : element) : element :=
  let 'Element t a x kids := parent in Element t a x (kids ++ [(child, "")]).

Fixpoint escape_cdata (s : string) : string :=
  match s with
  | EmptyString => EmptyString
  | String c r =>
      (if Ascii.eqb c "&" then "&amp;"
       else if Ascii.eqb c "<" then "&lt;"
       else if Ascii.eqb c ">" then "&gt;"
       else String c EmptyString) ++ escape_cdata r
  end.

Fixpoint escape_attrib (s : string) : string :=
  match s with
  | EmptyString => EmptyString
  | String c r =>
      (if Ascii.eqb c "&" then "&amp;"
       else if Ascii.eqb c "<" then "&lt;"
       else if Ascii.eqb c ">" then "&gt;"
       else if Ascii.eqb c "034" then "&quot;"
       else if Ascii.eqb c "013" then "&#13;"
       else if Ascii.eqb c "010" then "&#10;"
       else if Ascii.eqb c "009" then "&#09;"
       else String c EmptyString) ++ escape_attrib r
  end.

Definition serialize_attrib (kv : string * string) : string :=
  " " ++ fst kv ++ "=" ++ String "034" (escape_attrib (snd kv))
      ++ String "034" EmptyString.

(** [_serialize_xml] with short empty elements. *)
Fixpoint serialize (e : element) : string :=
  let 'Element t a x kids := e in
  "<" ++ t ++ String.concat "" (map serialize_attrib a)
    ++ (if Str.is_empty x && negb (truthy e) then " />"
        else ">" ++ escape_cdata x
               ++ (fix walk (l : list (element * string)) : string :=
                     match l with
                     | [] => EmptyString
                     | (c, tl) :: l' => (serialize c ++ escape_cdata tl ++ walk l')%string
                     end) kids
               ++ "</" ++ t ++ ">").

(** [ElementTree(root).write(file, encoding="utf-8",
    xml_declaration=True)]: the text written. *)
Definition write (root : element) : string :=
  "<?xml version='1.0' encoding='utf-8'?>" ++ String "010" EmptyString
    ++ serialize root.

End ElementTree.

(* ===================================================================== *)
(** ** auto_translator.py *)
(* ===================================================================== *)

Module AutoTranslator.

Definition dq : string := String "034"%char EmptyString.
Definition nl : string := String "010"%char EmptyString.

(** What the program prints.  Each constructor is one [print] call of
    the source and carries the values interpolated in its message. *)
Inductive event : Type :=
(* XMLHandler *)
| ErrXmlNotFound (xml_file : string)
| ErrXmlParse (xml_file : string)
| ErrXmlWrite (xml_file : string)
(* Unpacker.flatten *)
| ErrFlattenUnspecified
| ErrExtractDirMissing
| InfoFlattenStart
| WarnSkipFile (xml_file_path : string)
| WarnDuplicate (name relative_path original_location : string)
| WarnNoXmlFiles
| InfoWritingEntries (count : nat) (out_xml : string)
| ErrWriteFlattened (out_xml : string)
| InfoWritingMap (map_file : string)
| ErrWriteMap (map_file : string)
| InfoFlattened (xml_files_found : nat)
(* Unpacker.read_map_file *)
| ErrMapUnspecified
| ErrMapMissing (map_file : string)
| InfoReadingMap (map_file : string)
| WarnMalformedLine (line_number : nat) (line : string)
| InfoMapRead (count : nat)
(* Packer.read_translated_xml *)
| ErrTranslatedUnspecified
| ErrTranslatedMissing (in_xml : string)
| InfoReadingTranslated (in_xml : string)
| WarnNoEntriesRead (in_xml : string)
| InfoTranslatedEmpty (in_xml : string)
| InfoTranslatedRead (count : nat)
(* Packer.generate *)
| ErrGenerateUnspecified
| ErrGenerateInputs
| ErrMapEmpty
| ErrOutZipUnspecified
| InfoGenerating (target_dir : string)
| WarnNoValuesDir (original_relative_path name : string)
| WarnMissingTranslations (missing_translations : nat)
| WarnProcessedNone (map_size : nat)
| InfoWritingFiles (count : nat)
| ErrWriteFile (target_file_path : string)
| ErrWriteCount (file_write_errors : nat)
| InfoGenerated (target_dir : string)
(* translate_xml *)
| InfoTranslateStart (source_xml target_xml target_language : string)
| ErrSourceMissing (source_xml : string)
| WarnNoSourceEntries
| ErrCreateEmptyTarget (target_xml : string)
| InfoUsingTranslator (source_language translator_target_lang : string)
| ErrTranslatorInit
| InfoTranslating (total_entries : nat)
| InfoCancelled
| WarnTranslationNone (name : string)
| ErrPayload (name : string)
| WarnNotFound (name : string)
| ErrConnection (name : string)
| ErrTranslating (name : string)
| InfoTranslationFinished
| WarnErrorCount (error_count : nat)
| InfoWritingTranslated (count : nat) (target_xml : string)
| InfoTranslatedWritten
| ErrWriteTranslated (target_xml : string)
(* calls of progress_callback *)
| Progress (percent : nat)
| ProgressError
| ProgressCancelled.

(** [sorted(names)] in code-point order.  The names are the keys of a
    dictionary, so every sorting algorithm returns the same list. *)
Fixpoint insert_sorted (x : string) (l : list string) : list string :=
  match l with
  | [] => [x]
  | y :: l' => if String.leb x y then x :: l else y :: insert_sorted x l'
  end.

Definition sorted (l : list string) : list string :=
  fold_right insert_sorted [] l.

(** [d[k]] for a key known to be present. *)
Definition item (d : Dict.t string) (k : string) : string :=
  match Dict.get k d with Some v => v | None => EmptyString end.

(* ------------------------------------------------------------------- *)
Module XMLHandler.

Definition XML_HEADER : string :=
  "<?xml version=" ++ dq ++ "1.0" ++ dq ++ " encoding=" ++ dq ++ "utf-8"
    ++ dq ++ "?>" ++ nl.

(** The accumulated text of one [<string>] element: its [text] and
    the [tail] of each child, joined and stripped. *)
Definition element_text (string_elem : ElementTree.element) : string :=
  Str.strip
    (String.concat ""
       (ElementTree.text string_elem
          :: map snd (ElementTree.children string_elem))).

Definition read_element (entries : Dict.t string)
           (string_elem : ElementTree.element) : Dict.t string :=
  match ElementTree.get string_elem "name" with
  | Some name => Dict.set name (element_text string_elem) entries
  | None => entries
  end.

(** [XMLHandler.read_entries(xml_file)]; [content] is what opening
    [xml_file] yields, [None] when it cannot be opened. *)
Definition read_entries (xml_file : string) (content : option string)
  : Dict.t string * list event :=
  match content with
  | None => (Dict.empty, [ErrXmlNotFound xml_file])
  | Some c =>
      match ElementTree.parse c with
      | None => (Dict.empty, [ErrXmlParse xml_file])
      | Some root =>
          (fold_left read_element (ElementTree.findall root "string")
                     Dict.empty, [])
      end
  end.

(** One line of the written file. *)
Definition entry_line (entries : Dict.t string) (name : string) : string :=
  "    <string name=" ++ dq ++ name ++ dq ++ ">" ++ item entries name
    ++ "</string>" ++ nl.

(** The text [write_entries] builds in [xml_string_formatted]. *)
Definition encode (entries : Dict.t string) : string :=
  XML_HEADER ++ "<resources>" ++ nl
    ++ String.concat "" (map (entry_line entries) (sorted (Dict.keys entries)))
    ++ "</resources>" ++ nl.

(** [XMLHandler.write_entries(xml_file, entries)]: [Some text] when
    the file was written with [text], [None] when creating the parent
    directory or writing raised (the exception is printed and raised
    again).  [can_write] tells which paths the file system accepts. *)
Definition write_entries (can_write : string -> bool) (xml_file : string)
           (entries : Dict.t string) : option string * list event :=
  if can_write xml_file then (Some (encode entries), [])
  else (None, [ErrXmlWrite xml_file]).

End XMLHandler.

(** A truthy optional path: neither [None] nor the empty string. *)
Definition specified (p : option string) : bool :=
  match p with
  | Some s => negb (Str.is_empty s)
  | None => false
  end.

(** [os.path.exists] for a file system given by its readable files. *)
Definition exists_in (fs : string -> option string) (p : string) : bool :=
  match fs p with Some _ => true | None => false end.

(* ------------------------------------------------------------------- *)
Module Unpacker.

Record t := mk {
  in_zip : option string;
  map_file : option string;
  out_xml : option string;
  map_data : Dict.t string;
  extract_dir : option PosixPath.t
}.

Definition with_map_data (self : t) (m : Dict.t string) : t :=
  mk (in_zip self) (map_file self) (out_xml self) m (extract_dir self).

(** One result of [extract_dir.rglob("*.xml")]: its path relative to
    [extract_dir], whether it is a regular file, and its text when it
    can be opened. *)
Record scanned := mk_scanned {
  relative_path : string;
  is_file : bool;
  content : option string
}.

(** The local variables of [flatten] that its loops update. *)
Record state := mk_state {
  all_entries : Dict.t string;
  st_map_data : Dict.t string;
  xml_files_found : nat;
  log : list event
}.

(** The warning printed when [name] is already in [all_entries] with
    another text. *)
Definition duplicate_warning (relative_path_str : string) (st : state)
           (name text : string) : list event :=
  match Dict.get name (all_entries st) with
  | Some existing =>
      if negb (String.eqb existing text) then
        let original_location :=
          match Dict.get name (st_map_data st) with
          | Some l => l
          | None => "unknown"
          end in
        [WarnDuplicate name relative_path_str original_location]
      else []
  | None => []
  end.

(** Body of [for name, text in entries.items()]. *)
Definition flatten_entry (relative_path_str : string) (st : state)
           (entry : string * string) : state :=
  let '(name, text) := entry in
  mk_state (Dict.set name text (all_entries st))
           (Dict.set name relative_path_str (st_map_data st))
           (xml_files_found st)
           (log st ++ duplicate_warning relative_path_str st name text).

(** Body of [for xml_file_path in self.extract_dir.rglob("*.xml")]. *)
Definition flatten_file (dir : PosixPath.t) (st : state) (f : scanned)
  : state :=
  if is_file f then
    let xml_file_path :=
      PosixPath.str (PosixPath.div dir (relative_path f)) in
    let '(entries, read_log) :=
      XMLHandler.read_entries xml_file_path (content f) in
    let st1 := mk_state (all_entries st) (st_map_data st)
                        (S (xml_files_found st)) (log st ++ read_log) in
    if Dict.is_empty entries then
      mk_state (all_entries st1) (st_map_data st1) (xml_files_found st1)
               (log st1 ++ [WarnSkipFile xml_file_path])
    else fold_left (flatten_entry (relative_path f)) (Dict.items entries) st1
  else st.

(** The two loops of [flatten], from empty tables. *)
Definition collect (dir : PosixPath.t) (scan : list scanned) : state :=
  fold_left (flatten_file dir) scan
            (mk_state Dict.empty Dict.empty 0 [InfoFlattenStart]).

(** The text written to the map file: one [name:path] line per name,
    names sorted.  [os.sep] is ["/"], so the [replace] changes
    nothing. *)
Definition map_file_text (m : Dict.t string) : string :=
  String.concat ""
    (map (fun name => (name ++ ":" ++ item m name ++ nl)%string)
         (sorted (Dict.keys m))).

Record result := mk_result {
  ok : bool;
  self' : t;
  written : list (string * string);
  out_log : list event
}.

(** [Unpacker.flatten()].  [extract_dir_exists] is
    [self.extract_dir.exists()], [scan] the result of the [rglob]. *)
Definition flatten (self : t) (extract_dir_exists : bool)
           (scan : list scanned) (can_write : string -> bool) : result :=
  match out_xml self, map_file self, extract_dir self with
  | Some out, Some mapf, dir =>
      if Str.is_empty out || Str.is_empty mapf then
        mk_result false self [] [ErrFlattenUnspecified]
      else
        match dir with
        | Some d =>
          if negb extract_dir_exists then
            mk_result false self [] [ErrExtractDirMissing]
          else
          let st := collect d scan in
          let self1 := with_map_data self (st_map_data st) in
          let log1 :=
            log st
              ++ (if Nat.eqb (xml_files_found st) 0 then [WarnNoXmlFiles] else [])
              ++ [InfoWritingEntries (Dict.size (all_entries st)) out] in
          match XMLHandler.write_entries can_write out (all_entries st) with
          | (None, wlog) =>
              mk_result false self1 [] (log1 ++ wlog ++ [ErrWriteFlattened out])
          | (Some ledger, wlog) =>
              let log2 := log1 ++ wlog ++ [InfoWritingMap mapf] in
              if can_write mapf then
                mk_result true self1
                  [(out, ledger); (mapf, map_file_text (st_map_data st))]
                  (log2 ++ [InfoFlattened (xml_files_found st)])
              else
                mk_result false self1 [(out, ledger)] (log2 ++ [ErrWriteMap mapf])
          end
        | None => mk_result false self [] [ErrExtractDirMissing]
        end
  | _, _, _ => mk_result false self [] [ErrFlattenUnspecified]
  end.

(** The lines a text file yields when iterated. *)
Definition file_lines (text : string) : list string :=
  let l := Str.split "010" (Str.normalize_newlines text) in
  if Str.is_empty (last l "") then removelast l else l.

(** Body of [for i, line in enumerate(f)] in [read_map_file]. *)
Definition read_map_line (acc : Dict.t string * list event * nat)
           (raw : string) : Dict.t string * list event * nat :=
  let '(m, lg, i) := acc in
  let line := Str.strip raw in
  if Str.is_empty line || negb (Str.contains_char ":" line) then
    (m, (if Str.is_empty line then lg else lg ++ [WarnMalformedLine (S i) line]), S i)
  else
    let '(name, xml_path) := Str.split_first ":" line in
    (Dict.set (Str.strip name) (Str.strip xml_path) m, lg, S i).

(** [Unpacker.read_map_file()] *)
Definition read_map_file (self : t) (fs : string -> option string)
  : bool * t * list event :=
  match map_file self with
  | Some mapf =>
      if Str.is_empty mapf then (false, self, [ErrMapUnspecified]) else
      match fs mapf with
      | None => (false, self, [ErrMapMissing mapf])
      | Some text =>
          let '(m, lg, _) :=
            fold_left read_map_line (file_lines text)
                      (Dict.empty, [InfoReadingMap mapf], 0) in
          (true, with_map_data self m, lg ++ [InfoMapRead (Dict.size m)])
      end
  | None => (false, self, [ErrMapUnspecified])
  end.

End Unpacker.

(* ------------------------------------------------------------------- *)
Module Packer.

Record t := mk {
  in_xml : option string;
  map_file : option string;
  out_zip : option string;
  map_data : Dict.t string;
  translated_entries : Dict.t string;
  target_lang_suffix : string;
  target_dir : option PosixPath.t
}.

Definition with_map_data (self : t) (m : Dict.t string) : t :=
  mk (in_xml self) (map_file self) (out_zip self) m
     (translated_entries self) (target_lang_suffix self) (target_dir self).

Definition with_translated_entries (self : t) (e : Dict.t string) : t :=
  mk (in_xml self) (map_file self) (out_zip self) (map_data self) e
     (target_lang_suffix self) (target_dir self).

Definition with_target_dir (self : t) (d : PosixPath.t) : t :=
  mk (in_xml self) (map_file self) (out_zip self) (map_data self)
     (translated_entries self) (target_lang_suffix self) (Some d).

(** [Packer.read_map_file()]: delegates to a helper [Unpacker]. *)
Definition read_map_file (self : t) (fs : string -> option string)
  : bool * t * list event :=
  let unpacker_helper :=
    Unpacker.mk None (map_file self) None Dict.empty None in
  let '(ok, helper, lg) := Unpacker.read_map_file unpacker_helper fs in
  if ok then (true, with_map_data self (Unpacker.map_data helper), lg)
  else (false, with_map_data self Dict.empty, lg).

(** [Packer.read_translated_xml()] *)
Definition read_translated_xml (self : t) (fs : string -> option string)
  : bool * t * list event :=
  match in_xml self with
  | Some x =>
      if Str.is_empty x then (false, self, [ErrTranslatedUnspecified]) else
      match fs x with
      | None => (false, self, [ErrTranslatedMissing x])
      | Some text =>
          let '(entries, read_log) := XMLHandler.read_entries x (Some text) in
          let note :=
            if Dict.is_empty entries then
              if Str.is_empty text then [InfoTranslatedEmpty x]
              else [WarnNoEntriesRead x]
            else [] in
          (true, with_translated_entries self entries,
           [InfoReadingTranslated x] ++ read_log ++ note
             ++ [InfoTranslatedRead (Dict.size entries)])
      end
  | None => (false, self, [ErrTranslatedUnspecified])
  end.

(** Body of [for part in original_parent_dir.parts]: the pair is
    [(target_parent_parts, found_values_dir)]. *)
Definition rewrite_part (suffix : string) (acc : list string * bool)
           (part : string) : list string * bool :=
  if Str.startswith part "values"
  then (fst acc ++ [("values-" ++ suffix)%string], true)
  else (fst acc ++ [part], snd acc).

(** The path rewrite of [generate]: [target_relative_path] and
    [found_values_dir] for one [original_relative_path_str]. *)
Definition target_relative_path (suffix original_relative_path_str : string)
  : PosixPath.t * bool :=
  let original_relative_path := PosixPath.of_args [original_relative_path_str] in
  let original_filename := PosixPath.name original_relative_path in
  let original_parent_dir := PosixPath.parent original_relative_path in
  let '(target_parent_parts, found_values_dir) :=
    fold_left (rewrite_part suffix) (PosixPath.parts original_parent_dir)
              ([], false) in
  (PosixPath.div (PosixPath.of_args target_parent_parts) original_filename,
   found_values_dir).

(** The local variables of [generate] that its first loop updates. *)
Record state := mk_state {
  file_to_entries : Dict.t (Dict.t string);
  missing_translations : nat;
  processed_entries : nat;
  log : list event
}.

(** Body of [for name, original_relative_path_str in
    self.map_data.items()]. *)
Definition generate_entry (self : t) (dir : PosixPath.t) (st : state)
           (entry : string * string) : state :=
  let '(name, original_relative_path_str) := entry in
  let '(target, found_values_dir) :=
    target_relative_path (target_lang_suffix self) original_relative_path_str in
  let warning :=
    if found_values_dir then []
    else [WarnNoValuesDir original_relative_path_str name] in
  let target_file_key := PosixPath.str (PosixPath.div_path dir target) in
  match Dict.get name (translated_entries self) with
  | Some translated_text =>
      let group :=
        match Dict.get target_file_key (file_to_entries st) with
        | Some g => g
        | None => Dict.empty
        end in
      mk_state (Dict.set target_file_key (Dict.set name translated_text group)
                         (file_to_entries st))
               (missing_translations st)
               (S (processed_entries st))
               (log st ++ warning)
  | None =>
      mk_state (file_to_entries st)
               (S (missing_translations st))
               (processed_entries st)
               (log st ++ warning)
  end.

(** The grouping loop of [generate], from empty tables. *)
Definition group_entries (self : t) (dir : PosixPath.t) : state :=
  fold_left (generate_entry self dir) (Dict.items (map_data self))
            (mk_state Dict.empty 0 0 []).

(** The local variables of the writing loop: the files written, the
    count of failed writes and the log. *)
Record write_state := mk_write_state {
  written : list (string * string);
  file_write_errors : nat;
  write_log : list event
}.

(** Body of [for target_file_path_str, entries_dict in
    file_to_entries.items()]. *)
Definition write_file (can_write : string -> bool) (ws : write_state)
           (file : string * Dict.t string) : write_state :=
  let '(target_file_path_str, entries_dict) := file in
  match XMLHandler.write_entries can_write target_file_path_str entries_dict with
  | (Some text, wlog) =>
      mk_write_state (written ws ++ [(target_file_path_str, text)])
                     (file_write_errors ws)
                     (write_log ws ++ wlog)
  | (None, wlog) =>
      mk_write_state (written ws)
                     (S (file_write_errors ws))
                     (write_log ws ++ wlog ++ [ErrWriteFile target_file_path_str])
  end.

Definition write_files (can_write : string -> bool)
           (files : Dict.t (Dict.t string)) : write_state :=
  fold_left (write_file can_write) (Dict.items files)
            (mk_write_state [] 0 []).

(** What a call of [generate] leaves behind.  [outcome] is the value
    returned, or [None] when creating the scratch directory raised. *)
Record result := mk_result {
  outcome : option bool;
  self' : t;
  groups : Dict.t (Dict.t string);
  missing : nat;
  processed : nat;
  write_errors : nat;
  files_written : list (string * string);
  out_log : list event
}.

Definition early (b : option bool) (self : t) (lg : list event) : result :=
  mk_result b self Dict.empty 0 0 0 [] lg.

(** [Packer.generate()].  [fs] gives the text of the files that exist,
    [mkdir_ok] tells whether [self.target_dir.mkdir] succeeds. *)
Definition generate (self : t) (fs : string -> option string)
           (mkdir_ok : bool) (can_write : string -> bool) : result :=
  if negb (specified (in_xml self)) || negb (specified (map_file self)) then
    early (Some false) self [ErrGenerateUnspecified]
  else
    let '(map_ok, self1, log1) := read_map_file self fs in
    if negb map_ok then
      early (Some false) self1 (log1 ++ [ErrGenerateInputs])
    else
    let '(xml_ok, self2, log2) := read_translated_xml self1 fs in
    if negb xml_ok then
      early (Some false) self2 (log1 ++ log2 ++ [ErrGenerateInputs])
    else
    let lg := log1 ++ log2 in
    if Dict.is_empty (map_data self2) then
      early (Some false) self2 (lg ++ [ErrMapEmpty])
    else
    match out_zip self2 with
    | None => early (Some false) self2 (lg ++ [ErrOutZipUnspecified])
    | Some zip =>
      if Str.is_empty zip then
        early (Some false) self2 (lg ++ [ErrOutZipUnspecified])
      else
      let dir :=
        PosixPath.div (PosixPath.parent (PosixPath.of_args [zip]))
                      "translated_temp" in
      let self3 := with_target_dir self2 dir in
      if negb mkdir_ok then early None self3 lg
      else
      let st := group_entries self3 dir in
      let lg1 :=
        lg ++ [InfoGenerating (PosixPath.str dir)] ++ log st
           ++ (if Nat.ltb 0 (missing_translations st)
               then [WarnMissingTranslations (missing_translations st)] else [])
           ++ (if Nat.eqb (processed_entries st) 0
                  && Nat.ltb 0 (Dict.size (map_data self3))
               then [WarnProcessedNone (Dict.size (map_data self3))] else [])
           ++ [InfoWritingFiles (Dict.size (file_to_entries st))] in
      let ws := write_files can_write (file_to_entries st) in
      if Nat.ltb 0 (file_write_errors ws) then
        mk_result (Some false) self3 (file_to_entries st)
                  (missing_translations st) (processed_entries st)
                  (file_write_errors ws) (written ws)
                  (lg1 ++ write_log ws ++ [ErrWriteCount (file_write_errors ws)])
      else
        mk_result (Some true) self3 (file_to_entries st)
                  (missing_translations st) (processed_entries st)
                  (file_write_errors ws) (written ws)
                  (lg1 ++ write_log ws ++ [InfoGenerated (PosixPath.str dir)])
    end.

End Packer.

(* ------------------------------------------------------------------- *)
(** *** translate_xml *)

(** What one call of [translator.translate(text)] does. *)
Inductive translation : Type :=
| Translated (translated_text : string)
| ReturnedNone
| NotValidPayload
| TranslationNotFound
| ConnectionError
| OtherException.

(** The local variables of [translate_xml] that its loop updates. *)
Record tstate := mk_tstate {
  translated_entries : Dict.t string;
  translated_count : nat;
  error_count : nat;
  tlog : list event
}.

Section Translate.

(** The parameters of [translate_xml] and its environment:
    [progress_callback] tells whether a callback was passed;
    [stop_event], when present, gives the value of [is_set()] at each
    poll, polls being numbered from 0; [translate i text] is the
    answer of the service for the entry at position [i]. *)
Variables (source_xml target_xml target_language source_language : string).
Variable progress_callback : bool.
Variable stop_event : option (nat -> bool).
Variable fs : string -> option string.
Variable translator_init_ok : bool.
Variable translate : nat -> string -> translation.
Variable can_write : string -> bool.

Definition callback (e : event) : list event :=
  if progress_callback then [e] else [].

(** [stop_event and stop_event.is_set()] at poll [i]. *)
Definition stop_requested (i : nat) : bool :=
  match stop_event with
  | Some is_set => is_set i
  | None => false
  end.

Definition keep_original (st : tstate) (name text : string) (e : event)
  : tstate :=
  mk_tstate (Dict.set name text (translated_entries st))
            (translated_count st) (S (error_count st)) (tlog st ++ [e]).

(** [for i, (name, text) in enumerate(source_entries.items())]; the
    boolean tells that the loop was left by the cancellation
    [return False]. *)
Fixpoint translate_loop (i total_entries : nat)
         (items : list (string * string)) (st : tstate) : tstate * bool :=
  match items with
  | [] => (st, false)
  | (name, text) :: rest =>
      if stop_requested i then
        (mk_tstate (translated_entries st) (translated_count st)
                   (error_count st)
                   (tlog st ++ [InfoCancelled] ++ callback ProgressCancelled),
         true)
      else
        let progress :=
          if Nat.ltb 0 total_entries then (100 * (i + 1)) / total_entries
          else 0 in
        let st1 :=
          mk_tstate (translated_entries st) (translated_count st)
                    (error_count st) (tlog st ++ callback (Progress progress)) in
        let st2 :=
          if Str.is_empty text || Str.isspace text then
            mk_tstate (Dict.set name text (translated_entries st1))
                      (S (translated_count st1)) (error_count st1) (tlog st1)
          else
            match translate i text with
            | Translated translated_text =>
                mk_tstate (Dict.set name translated_text (translated_entries st1))
                          (S (translated_count st1)) (error_count st1) (tlog st1)
            | ReturnedNone => keep_original st1 name text (WarnTranslationNone name)
            | NotValidPayload => keep_original st1 name text (ErrPayload name)
            | TranslationNotFound => keep_original st1 name text (WarnNotFound name)
            | ConnectionError => keep_original st1 name text (ErrConnection name)
            | OtherException => keep_original st1 name text (ErrTranslating name)
            end in
        translate_loop (S i) total_entries rest st2
  end.

(** What a call of [translate_xml] leaves behind: the value returned,
    the file written (if any) and the log. *)
Record tresult := mk_tresult {
  returned : bool;
  target_written : option (string * string);
  result_log : list event
}.

Definition translate_xml : tresult :=
  let log0 := [InfoTranslateStart source_xml target_xml target_language] in
  if negb (exists_in fs source_xml) then
    mk_tresult false None
               (log0 ++ [ErrSourceMissing source_xml] ++ callback ProgressError)
  else
  let '(source_entries, read_log) :=
    XMLHandler.read_entries source_xml (fs source_xml) in
  let log1 := log0 ++ read_log in
  if Dict.is_empty source_entries then
    match XMLHandler.write_entries can_write target_xml Dict.empty with
    | (Some text, wlog) =>
        mk_tresult true (Some (target_xml, text))
                   (log1 ++ [WarnNoSourceEntries] ++ wlog ++ callback (Progress 100))
    | (None, wlog) =>
        mk_tresult false None
                   (log1 ++ [WarnNoSourceEntries] ++ wlog
                      ++ [ErrCreateEmptyTarget target_xml] ++ callback ProgressError)
    end
  else
  if negb translator_init_ok then
    mk_tresult false None (log1 ++ [ErrTranslatorInit] ++ callback ProgressError)
  else
  let translator_target_lang := hd EmptyString (Str.split "-" target_language) in
  let total_entries := Dict.size source_entries in
  let log2 :=
    log1 ++ [InfoUsingTranslator source_language translator_target_lang;
             InfoTranslating total_entries] in
  let '(st, cancelled) :=
    translate_loop 0 total_entries (Dict.items source_entries)
                   (mk_tstate Dict.empty 0 0 log2) in
  if cancelled then mk_tresult false None (tlog st)
  else
  let log3 :=
    tlog st ++ [InfoTranslationFinished]
         ++ (if Nat.ltb 0 (error_count st) then [WarnErrorCount (error_count st)]
             else []) in
  if stop_requested total_entries then mk_tresult false None log3
  else
  let log4 :=
    log3 ++ [InfoWritingTranslated (Dict.size (translated_entries st)) target_xml] in
  match XMLHandler.write_entries can_write target_xml (translated_entries st) with
  | (Some text, wlog) =>
      mk_tresult true (Some (target_xml, text))
                 (log4 ++ wlog ++ [InfoTranslatedWritten] ++ callback (Progress 100))
  | (None, wlog) =>
      mk_tresult false None
                 (log4 ++ wlog ++ [ErrWriteTranslated target_xml]
                    ++ callback ProgressError)
  end.

End Translate.

End AutoTranslator.

(* ===================================================================== *)
(** ** fbtranslator.py *)
(* ===================================================================== *)

Module FbTranslator.

(** The exceptions the modelled code can raise. *)
Inductive exn : Type :=
| IndexError | ValueError | AttributeError | SyntaxError | ParseError
| OSError.

Inductive result (A : Type) : Type :=
| Ok (a : A)
| Raise (e : exn).
Arguments Ok {A} a.
Arguments Raise {A} e.

(** [s.split("::")] *)
Fixpoint split_colons (s : string) : list string :=
  match s with
  | EmptyString => [EmptyString]
  | String c s' =>
      let plain :=
        match split_colons s' with
        | [] => [String c EmptyString]
        | h :: t => String c h :: t
        end in
      if Ascii.eqb c ":" then
        match s' with
        | String d r =>
            if Ascii.eqb d ":" then EmptyString :: split_colons r else plain
        | EmptyString => plain
        end
      else plain
  end.

(** [l[i] = x] for [i] in range. *)
Fixpoint assign {A : Type} (i : nat) (x : A) (l : list A) : list A :=
  match l, i with
  | [], _ => []
  | _ :: l', 0 => x :: l'
  | y :: l', S i' => y :: assign i' x l'
  end.

(** What the older variant hands to its logger, and the traceback its
    bare [except] prints. *)
Inductive event : Type :=
| ErrExtractedDirMissing
| InfoCollected
| InfoFlattened (out_xml : string)
| InfoMapGenerated (map_file : option string)
| Traceback.

Module Unpacker.

Record t := mk {
  in_zip : PosixPath.t;
  map_file : option PosixPath.t;
  out_xml : option PosixPath.t;
  out_dir : PosixPath.t;
  entries : Dict.t (list string)
}.

Definition with_entries (self : t) (e : Dict.t (list string)) : t :=
  mk (in_zip self) (map_file self) (out_xml self) (out_dir self) e.

(** [not s or not s.strip()] *)
Definition blank (s : string) : bool :=
  Str.is_empty s || Str.is_empty (Str.strip s).

(** [level * "    "] *)
Fixpoint spaces (level : nat) : string :=
  match level with
  | 0 => EmptyString
  | S l => ("    " ++ spaces l)%string
  end.

(** [Unpacker.indent(elem, level)]: the element and its tail
    afterwards. *)
Fixpoint indent (level : nat) (e : ElementTree.element) (tail : string)
         {struct e} : ElementTree.element * string :=
  let 'ElementTree.Element t a x kids := e in
  let i := (AutoTranslator.nl ++ spaces level)%string in
  match kids with
  | [] => (e, if Nat.ltb 0 level && blank tail then i else tail)
  | _ :: _ =>
      let x' := if blank x then (i ++ "  ")%string else x in
      let tail1 := if blank tail then i else tail in
      let kids' :=
        (fix walk (l : list (ElementTree.element * string))
           : list (ElementTree.element * string) :=
           match l with
           | [] => []
           | (c, tl) :: l' => indent (S level) c tl :: walk l'
           end) kids in
      (ElementTree.Element t a x' kids', if blank tail1 then i else tail1)
  end.

(** [tree.findall(".//string")] *)
Definition strings_of (root : ElementTree.element) : list ElementTree.element :=
  filter (fun e => String.eqb (ElementTree.tag e) "string")
         (ElementTree.descendants root).

(** The local variable [root] (its children) and [self.entries] during
    the loops of [flatten]. *)
Record state := mk_state {
  children : list (ElementTree.element * string);
  st_entries : Dict.t (list string)
}.

(** Body of [for string in tree.findall(".//string")]. *)
Definition flatten_string (rel_path : string) (st : state)
           (string_elem : ElementTree.element) : state :=
  match ElementTree.get string_elem "name" with
  | Some name =>
      if Str.is_empty name then st
      else
        let paths :=
          match Dict.get name (st_entries st) with Some l => l | None => [] end in
        mk_state
          (children st
             ++ [(ElementTree.Element "string" [("name"%string, name)]
                                      (ElementTree.text string_elem) [],
                  EmptyString)])
          (Dict.set name (paths ++ [rel_path]) (st_entries st))
  | None => st
  end.

(** Body of [for xml_file in self.out_dir.rglob("*.xml")]: [ET.parse]
    raises on what is not a readable, well-formed file. *)
Definition flatten_file (st : state) (f : AutoTranslator.Unpacker.scanned)
  : result state :=
  if negb (AutoTranslator.Unpacker.is_file f) then Raise OSError
  else
    match AutoTranslator.Unpacker.content f with
    | None => Raise OSError
    | Some text =>
        match ElementTree.parse text with
        | None => Raise ParseError
        | Some root =>
            Ok (fold_left
                  (flatten_string (AutoTranslator.Unpacker.relative_path f))
                  (strings_of root) st)
        end
    end.

(** The loop over the files: it stops at the first file that raises and
    keeps what the files before it added. *)
Fixpoint flatten_files (st : state) (scan : list AutoTranslator.Unpacker.scanned)
  : state * bool :=
  match scan with
  | [] => (st, true)
  | f :: rest =>
      match flatten_file st f with
      | Ok st' => flatten_files st' rest
      | Raise _ => (st, false)
      end
  end.

(** The text written to the map file: one [key::path] line per path. *)
Definition map_file_text (e : Dict.t (list string)) : string :=
  String.concat ""
    (flat_map
       (fun kv =>
          map (fun value => (fst kv ++ "::" ++ value ++ AutoTranslator.nl)%string)
              (snd kv))
       (Dict.items e)).

(** [tree.write(out_xml, encoding="utf-8", xml_declaration=True)] for a
    root that has a tail. *)
Definition write_tree (root : ElementTree.element * string) : string :=
  (ElementTree.write (fst root) ++ ElementTree.escape_cdata (snd root))%string.

(** What a call of [flatten] leaves behind. *)
Record flatten_result := mk_result {
  ok : bool;
  self' : t;
  written : list (string * string);
  out_log : list event
}.

(** [Unpacker.flatten()].  [out_dir_exists] is [self.out_dir.exists()],
    [scan] the result of [rglob], [can_write] tells which paths can be
    opened for writing. *)
Definition flatten (self : t) (out_dir_exists : bool)
           (scan : list AutoTranslator.Unpacker.scanned)
           (can_write : string -> bool) : flatten_result :=
  if negb out_dir_exists then mk_result false self [] [ErrExtractedDirMissing]
  else
    let '(st, collected) := flatten_files (mk_state [] (entries self)) scan in
    let self1 := with_entries self (st_entries st) in
    if negb collected then mk_result false self1 [] [Traceback]
    else
      let root :=
        indent 0 (ElementTree.Element "resources" [] "" (children st)) "" in
      match out_xml self with
      | None => mk_result false self1 [] [InfoCollected; Traceback]
      | Some out =>
          if negb (can_write (PosixPath.str out))
          then mk_result false self1 [] [InfoCollected; Traceback]
          else
            let ledger := (PosixPath.str out, write_tree root) in
            match map_file self with
            | None =>
                mk_result true self1 [ledger]
                          [InfoCollected; InfoFlattened (PosixPath.str out);
                           InfoMapGenerated None]
            | Some mapf =>
                if can_write (PosixPath.str mapf) then
                  mk_result true self1
                            [ledger;
                             (PosixPath.str mapf, map_file_text (st_entries st))]
                            [InfoCollected; InfoFlattened (PosixPath.str out);
                             InfoMapGenerated (Some (PosixPath.str mapf))]
                else
                  mk_result false self1 [ledger]
                            [InfoCollected; InfoFlattened (PosixPath.str out);
                             Traceback]
            end
      end.

End Unpacker.

Module Packer.

Record t := mk {
  in_xml : PosixPath.t;
  map_file : option PosixPath.t;
  out_zip : option PosixPath.t;
  lang_suffix : string;
  out_dir : PosixPath.t;
  entries : Dict.t (list PosixPath.t)
}.

Definition with_entries (self : t) (e : Dict.t (list PosixPath.t)) : t :=
  mk (in_xml self) (map_file self) (out_zip self) (lang_suffix self)
     (out_dir self) e.

(** Body of [for line in f] in [load_map]. *)
Definition load_line (e : Dict.t (list PosixPath.t)) (line : string)
  : result (Dict.t (list PosixPath.t)) :=
  match split_colons (Str.strip line) with
  | [key; value] =>
      let paths := match Dict.get key e with Some l => l | None => [] end in
      Ok (Dict.set key (paths ++ [PosixPath.of_args [value]]) e)
  | _ => Raise ValueError
  end.

(** The loop of [load_map]: it stops at the first line that raises
    and keeps what the lines before it added. *)
Fixpoint load_lines (e : Dict.t (list PosixPath.t)) (lines : list string)
  : bool * Dict.t (list PosixPath.t) :=
  match lines with
  | [] => (true, e)
  | line :: rest =>
      match load_line e line with
      | Ok e' => load_lines e' rest
      | Raise _ => (false, e)
      end
  end.

(** [Packer.load_map()] *)
Definition load_map (self : t) (fs : string -> option string) : bool * t :=
  match map_file self with
  | None => (false, self)
  | Some mapf =>
      match fs (PosixPath.str mapf) with
      | None => (false, self)
      | Some text =>
          let '(ok, e) :=
            load_lines (entries self) (AutoTranslator.Unpacker.file_lines text) in
          (ok, with_entries self e)
      end
  end.

(** [Packer.modify_folder_name(path)]: [parts[-2]] raises
    [IndexError] when [parts] has fewer than two items. *)
Definition modify_folder_name (self : t) (path : PosixPath.t)
  : result PosixPath.t :=
  let parts := PosixPath.parts path in
  if Nat.ltb (List.length parts) 2 then Raise IndexError
  else
    let i := List.length parts - 2 in
    let folder := nth i parts EmptyString in
    if Str.startswith folder "values" then
      Ok (PosixPath.of_args
            (assign i (folder ++ "-" ++ lang_suffix self)%string parts))
    else Ok (PosixPath.of_args parts).

Definition update (fs : string -> option string) (p text : string)
  : string -> option string :=
  fun q => if String.eqb q p then Some text else fs q.

(** Body of [for rel_path in rel_paths] in [generate]: the file
    system after the step, or the exception raised.  A [key] with an
    apostrophe breaks the XPath predicate built from it. *)
Definition generate_path (self : t) (mkdir_ok can_write : string -> bool)
           (root : ElementTree.element) (key : string)
           (fs : string -> option string) (rel_path : PosixPath.t)
  : result (string -> option string) :=
  match modify_folder_name self rel_path with
  | Raise e => Raise e
  | Ok modified_path =>
      let xml_path := PosixPath.div_path (out_dir self) modified_path in
      let xml_file := PosixPath.str xml_path in
      if negb (mkdir_ok (PosixPath.str (PosixPath.parent xml_path)))
      then Raise OSError
      else
        let existing :=
          match fs xml_file with
          | Some text =>
              match ElementTree.parse text with
              | Some r => Ok r
              | None => Raise ParseError
              end
          | None => Ok (ElementTree.Element "resources" [] "" [])
          end in
        match existing with
        | Raise e => Raise e
        | Ok xml_root =>
            if Str.contains_char "'" key then Raise SyntaxError
            else
              let reuse :=
                match ElementTree.find_string xml_root key with
                | Some elem => ElementTree.truthy elem
                | None => false
                end in
              match ElementTree.find_string root key with
              | None => Raise AttributeError
              | Some source =>
                  let new_text := ElementTree.text source in
                  let new_root :=
                    if reuse
                    then fst (ElementTree.set_text key new_text xml_root)
                    else ElementTree.append_child xml_root
                           (ElementTree.Element "string" [("name", key)]
                                                new_text []) in
                  if can_write xml_file
                  then Ok (update fs xml_file (ElementTree.write new_root))
                  else Raise OSError
              end
        end
  end.

(** The two nested loops of [generate], flattened to the sequence of
    their [(key, rel_path)] steps. *)
Definition steps (e : Dict.t (list PosixPath.t))
  : list (string * PosixPath.t) :=
  flat_map (fun kv => map (fun p => (fst kv, p)) (snd kv)) (Dict.items e).

Fixpoint run_steps (self : t) (mkdir_ok can_write : string -> bool)
         (root : ElementTree.element) (fs : string -> option string)
         (l : list (string * PosixPath.t))
  : bool * (string -> option string) :=
  match l with
  | [] => (true, fs)
  | (key, rel_path) :: rest =>
      match generate_path self mkdir_ok can_write root key fs rel_path with
      | Ok fs' => run_steps self mkdir_ok can_write root fs' rest
      | Raise _ => (false, fs)
      end
  end.

(** [Packer.generate()]: the value returned, the object and the file
    system afterwards. *)
Definition generate (self : t) (fs : string -> option string)
           (mkdir_ok can_write : string -> bool)
  : bool * t * (string -> option string) :=
  let '(loaded, self1) := load_map self fs in
  if negb loaded then (false, self1, fs)
  else
    match fs (PosixPath.str (in_xml self1)) with
    | None => (false, self1, fs)
    | Some text =>
        match ElementTree.parse text with
        | None => (false, self1, fs)
        | Some root =>
            let '(ok, fs') :=
              run_steps self1 mkdir_ok can_write root fs (steps (entries self1)) in
            (ok, self1, fs')
        end
    end.

End Packer.

End FbTranslator.

(* ===================================================================== *)
(** ** Vocabulary of the statements *)
(* ===================================================================== *)

(** A path text that does not start at the root. *)
Definition relative (s : string) : Prop := Str.startswith s "/" = false.

(** The rewrite of one directory segment as the specification words it:
    a segment that starts with the marker becomes the marker, a dash and
    the locale tag; any other segment is kept. *)
Definition spec_rewrite_segment (tag segment : string) : string :=
  if Str.startswith segment "values" then ("values-" ++ tag)%string else segment.

(** The order of [sorted]: code-point order on names. *)
Definition name_le (a b : string) : Prop := String.leb a b = true.
Definition name_lt (a b : string) : Prop := String.ltb a b = true.

(** The ledger and the provenance map of a flatten pass list the same
    names, each once. *)
Definition coherent (st : AutoTranslator.Unpacker.state) : Prop :=
  Dict.keys (AutoTranslator.Unpacker.all_entries st)
  = Dict.keys (AutoTranslator.Unpacker.st_map_data st)
  /\ NoDup (Dict.keys (AutoTranslator.Unpacker.all_entries st)).

(** The text of a resource file that lists [names] in this order. *)
Definition resource_text (entries : Dict.t string) (names : list string) : string :=
  (AutoTranslator.XMLHandler.XML_HEADER ++ "<resources>" ++ AutoTranslator.nl
     ++ String.concat "" (map (AutoTranslator.XMLHandler.entry_line entries) names)
     ++ "</resources>" ++ AutoTranslator.nl)%string.

(** The text of a provenance index that lists [names] in this order. *)
Definition index_text (m : Dict.t string) (names : list string) : string :=
  String.concat ""
    (map (fun name => (name ++ ":" ++ AutoTranslator.item m name
                         ++ AutoTranslator.nl)%string) names).

(** The entries a resource file with text [content] decodes to. *)
Definition decode (content : string) : Dict.t string :=
  fst (AutoTranslator.XMLHandler.read_entries "" (Some content)).

(** The conflict warnings of a log, in order. *)
Definition is_conflict (e : AutoTranslator.event) : bool :=
  match e with
  | AutoTranslator.WarnDuplicate _ _ _ => true
  | _ => false
  end.

Definition conflicts (log : list AutoTranslator.event) : list AutoTranslator.event :=
  filter is_conflict log.

(** Reconstruction gets past its input checks: both input paths are
    given, the map file and the translated ledger can be read, the map
    is not empty, the output path is given and the scratch directory can
    be created. *)
Definition inputs_ready (self : AutoTranslator.Packer.t)
           (fs : string -> option string) (mkdir_ok : bool) : bool :=
  AutoTranslator.specified (AutoTranslator.Packer.in_xml self)
  && AutoTranslator.specified (AutoTranslator.Packer.map_file self)
  && let '(map_ok, self1, _) := AutoTranslator.Packer.read_map_file self fs in
     map_ok
     && let '(xml_ok, self2, _) := AutoTranslator.Packer.read_translated_xml self1 fs in
        xml_ok
        && negb (Dict.is_empty (AutoTranslator.Packer.map_data self2))
        && AutoTranslator.specified (AutoTranslator.Packer.out_zip self2)
        && mkdir_ok.

(** The checks [generate] makes before it creates the scratch
    directory: both input paths given, the map file and the translated
    ledger read, the map not empty, the output path given. *)
Definition inputs_checked (self : AutoTranslator.Packer.t)
           (fs : string -> option string) : bool :=
  AutoTranslator.specified (AutoTranslator.Packer.in_xml self)
  && AutoTranslator.specified (AutoTranslator.Packer.map_file self)
  && let '(map_ok, self1, _) := AutoTranslator.Packer.read_map_file self fs in
     map_ok
     && let '(xml_ok, self2, _) := AutoTranslator.Packer.read_translated_xml self1 fs in
        xml_ok
        && negb (Dict.is_empty (AutoTranslator.Packer.map_data self2))
        && AutoTranslator.specified (AutoTranslator.Packer.out_zip self2).

(** The key of [file_to_entries] for an original path: the rewritten
    path under the scratch directory. *)
Definition target_file_key (self : AutoTranslator.Packer.t) (dir : PosixPath.t)
           (original_relative_path_str : string) : string :=
  PosixPath.str
    (PosixPath.div_path dir
       (fst (AutoTranslator.Packer.target_relative_path
               (AutoTranslator.Packer.target_lang_suffix self)
               original_relative_path_str))).

(** The names of the provenance map that have no translation. *)
Definition untranslated (self : AutoTranslator.Packer.t) : list (string * string) :=
  filter (fun e => negb (Dict.mem (fst e) (AutoTranslator.Packer.translated_entries self)))
         (Dict.items (AutoTranslator.Packer.map_data self)).

(** The target files whose write the file system refuses. *)
Definition refused (can_write : string -> bool)
           (files : Dict.t (Dict.t string)) : list (string * Dict.t string) :=
  filter (fun f => negb (can_write (fst f))) (Dict.items files).

(** Every target path has one group and every group lists a name once. *)
Definition groups_distinct (files : Dict.t (Dict.t string)) : Prop :=
  NoDup (Dict.keys files)
  /\ forall file g, In (file, g) files -> NoDup (Dict.keys g).

(** Every entry of every group carries the text of the translated
    ledger. *)
Definition groups_sound (translated : Dict.t string)
           (files : Dict.t (Dict.t string)) : Prop :=
  forall file g name text,
    In (file, g) files -> Dict.get name g = Some text ->
    Dict.get name translated = Some text.

(** Inputs used to exercise the statements: the scenario of the
    specification, extended with a second text for [k1]. *)
Module Sample.
Import AutoTranslator.

Definition unpacker : Unpacker.t :=
  Unpacker.mk (Some "in.zip") (Some "out/map.txt") (Some "out/flat.xml")
              Dict.empty (Some (PosixPath.of_args ["in_extracted"])).

Definition file_a : string := XMLHandler.encode [("k1", "Hi")].
Definition file_b : string := XMLHandler.encode [("k2", "Bye"); ("k1", "Hello")].

Definition scan : list Unpacker.scanned :=
  [Unpacker.mk_scanned "a/values/s.xml" true (Some file_a);
   Unpacker.mk_scanned "b/values-en/s2.xml" true (Some file_b)].

Definition writable (p : string) : bool := true.

(** A provenance map of three names, two of them in the same file, and
    a translated ledger that lacks [k3]. *)
Definition map_text : string :=
  "k1:b/values-en/s2.xml" ++ nl ++ "k2:b/values-en/s2.xml" ++ nl
    ++ "k3:b/values/s3.xml" ++ nl.

Definition translated_text : string :=
  XMLHandler.encode [("k1", "Salut"); ("k2", "Au revoir")].

Definition fs (p : string) : option string :=
  if String.eqb p "out/map.txt" then Some map_text
  else if String.eqb p "out/tr.xml" then Some translated_text
  else if String.eqb p "out/empty.txt" then Some EmptyString
  else None.

Definition packer : Packer.t :=
  Packer.mk (Some "out/tr.xml") (Some "out/map.txt") (Some "out/fr.zip")
            Dict.empty Dict.empty "fr" None.

(** The same object pointed at an empty map file. *)
Definition packer_empty_map : Packer.t :=
  Packer.mk (Some "out/tr.xml") (Some "out/empty.txt") (Some "out/fr.zip")
            Dict.empty Dict.empty "fr" None.

(** A translation service that prefixes every text with T, and a stop
    flag raised once the first entry has been processed. *)
Definition translate (i : nat) (text : string) : translation :=
  Translated ("T" ++ text).

Definition stop_after_first (poll : nat) : bool := Nat.leb 1 poll.

(** The inputs of the older variant: a map file whose second record
    names a bare file, and a translated ledger. *)
Definition fb_map_text : string :=
  "k1::res/values/strings.xml" ++ nl ++ "k2::strings.xml" ++ nl.

Definition fb_ledger : ElementTree.element :=
  ElementTree.Element "resources" [] ""
    [(ElementTree.Element "string" [("name", "k1")] "Salut" [], "");
     (ElementTree.Element "string" [("name", "k2")] "a<b" [], "")].

Definition fb_fs (p : string) : option string :=
  if String.eqb p "mapping" then Some fb_map_text
  else if String.eqb p "good_mapping" then Some ("k1::res/values/strings.xml" ++ nl)%string
  else if String.eqb p "fr.xml" then Some (ElementTree.write fb_ledger)
  else None.

Definition fb_packer : FbTranslator.Packer.t :=
  FbTranslator.Packer.mk (PosixPath.of_args ["fr.xml"])
                         (Some (PosixPath.of_args ["mapping"]))
                         (Some (PosixPath.of_args ["fr.zip"]))
                         "fr" (PosixPath.of_args ["fr"]) Dict.empty.

End Sample.


(** The named entries the older variant's [flatten] takes from a parsed
    file: name and text of every [string] element with a non-empty
    name, in document order. *)
Definition fb_named_strings (root : ElementTree.element) : list (string * string) :=
  flat_map
    (fun e => match ElementTree.get e "name" with
              | Some name =>
                  if Str.is_empty name then [] else [(name, ElementTree.text e)]
              | None => []
              end)
    (FbTranslator.Unpacker.strings_of root).

(** The child the older variant's [flatten] appends for an entry, with
    the tail [tail]. *)
Definition fb_child (tail : string) (e : string * string)
  : ElementTree.element * string :=
  (ElementTree.Element "string" [("name"%string, fst e)] (snd e) [], tail).

(** Inputs of the older variant's [flatten], and inputs on which a
    written file ends up with a name twice. *)
Module OlderSample.

Definition unpacker : FbTranslator.Unpacker.t :=
  FbTranslator.Unpacker.mk (PosixPath.of_args ["en.zip"])
                           (Some (PosixPath.of_args ["mapping"]))
                           (Some (PosixPath.of_args ["en.xml"]))
                           (PosixPath.of_args ["en"]) Dict.empty.

(** A map file whose record is there twice. *)
Definition repeated_map : string :=
  "k1::res/values/strings.xml" ++ AutoTranslator.nl
    ++ "k1::res/values/strings.xml" ++ AutoTranslator.nl.

Definition fs (p : string) : option string :=
  if String.eqb p "mapping" then Some repeated_map
  else if String.eqb p "good_mapping"
       then Some ("k1::res/values/strings.xml" ++ AutoTranslator.nl)%string
  else if String.eqb p "fr.xml" then Some (ElementTree.write Sample.fb_ledger)
  else None.

(** A translated ledger whose text for [k1], once its references are
    resolved, holds markup. *)
Definition markup_ledger : string :=
  "<resources><string name=" ++ AutoTranslator.dq ++ "k1" ++ AutoTranslator.dq
    ++ ">a&lt;/string&gt;&lt;string name=&quot;k1&quot;&gt;b</string></resources>".

Definition markup_fs (p : string) : option string :=
  if String.eqb p "out/map.txt"
  then Some ("k1:res/values/strings.xml" ++ AutoTranslator.nl)%string
  else if String.eqb p "out/tr.xml" then Some markup_ledger
  else None.

End OlderSample.
(* ===================================================================== *)
(** ** Vocabulary of the further properties *)
(* ===================================================================== *)

(** The entries [flatten] takes from one scanned item: those its text
    decodes to when it is a regular file that can be opened, none
    otherwise. *)
Definition scanned_entries (f : AutoTranslator.Unpacker.scanned) : Dict.t string :=
  if AutoTranslator.Unpacker.is_file f then
    match AutoTranslator.Unpacker.content f with
    | Some text => decode text
    | None => Dict.empty
    end
  else Dict.empty.

(** What [flatten] needs to succeed: both output paths given, the
    extraction directory known and present, both writes accepted. *)
Definition flatten_ready (self : AutoTranslator.Unpacker.t) (extract_dir_exists : bool)
           (can_write : string -> bool) : bool :=
  match AutoTranslator.Unpacker.out_xml self,
        AutoTranslator.Unpacker.map_file self,
        AutoTranslator.Unpacker.extract_dir self with
  | Some out, Some mapf, Some _ =>
      negb (Str.is_empty out) && negb (Str.is_empty mapf)
      && extract_dir_exists && can_write out && can_write mapf
  | _, _, _ => false
  end.

(** Two states of the flatten loops with the same ledger and the same
    provenance map. *)
Definition same_tables (st1 st2 : AutoTranslator.Unpacker.state) : Prop :=
  AutoTranslator.Unpacker.all_entries st1 = AutoTranslator.Unpacker.all_entries st2
  /\ AutoTranslator.Unpacker.st_map_data st1 = AutoTranslator.Unpacker.st_map_data st2.

(** White space at the two ends of a text. *)
Definition head_space (s : string) : bool :=
  match s with
  | String c _ => Str.is_space c
  | EmptyString => false
  end.

Fixpoint last_space (s : string) : bool :=
  match s with
  | EmptyString => false
  | String c EmptyString => Str.is_space c
  | String _ s' => last_space s'
  end.

(** A text that [strip] leaves alone and that fits on one line. *)
Definition one_line (s : string) : bool :=
  negb (head_space s) && negb (last_space s)
  && negb (Str.contains_char "010" s) && negb (Str.contains_char "013" s).

(** A name that can be a record of the map file: one line, no colon. *)
Definition map_name (s : string) : bool :=
  one_line s && negb (Str.contains_char ":" s).

(** The records of the map file written for [m], in the order written. *)
Definition map_records (m : Dict.t string) : Dict.t string :=
  map (fun name => (name, AutoTranslator.item m name))
      (AutoTranslator.sorted (Dict.keys m)).

(** More inputs used to exercise the statements. *)
Module MoreSample.
Import AutoTranslator.

(** The provenance map written in [Sample.map_text]. *)
Definition provenance : Dict.t string :=
  [("k1", "b/values-en/s2.xml"); ("k2", "b/values-en/s2.xml");
   ("k3", "b/values/s3.xml")].

(** A file system whose translated ledger does not parse. *)
Definition fs_broken_ledger (p : string) : option string :=
  if String.eqb p "out/map.txt" then Some Sample.map_text
  else if String.eqb p "out/tr.xml" then Some "<resources>"
  else None.

End MoreSample.

(** A root as [splitroot] returns it for an absolute path. *)
Definition is_root (r : string) : Prop := r = "/"%string \/ r = "//"%string.

(** A path as the parser builds it. *)
Definition well_formed (p : PosixPath.t) : Prop :=
  (PosixPath.root p = ""%string \/ is_root (PosixPath.root p))
  /\ Forall PosixPath.segment (PosixPath.tail p).


(** The text the translation loop stores for the entry at position [i]:
    a blank text is kept as it is, a translated one is replaced, every
    failure keeps the original. *)
Definition kept_text (translate : nat -> string -> AutoTranslator.translation)
           (i : nat) (text : string) : string :=
  if Str.is_empty text || Str.isspace text then text
  else match translate i text with
       | AutoTranslator.Translated translated_text => translated_text
       | _ => text
       end.

(** The entries the loop stores for [items], the first at position [i]. *)
Fixpoint translated_from (translate : nat -> string -> AutoTranslator.translation)
         (i : nat) (items : list (string * string)) : Dict.t string :=
  match items with
  | [] => []
  | (name, text) :: rest =>
      (name, kept_text translate i text) :: translated_from translate (S i) rest
  end.

(** The paths [entries] holds for [key]; none when the key is absent. *)
Definition paths_of (key : string) (e : Dict.t (list PosixPath.t))
  : list PosixPath.t :=
  match Dict.get key e with Some l => l | None => [] end.

(** A line of the older variant's map file that holds the record [r]. *)
Definition splits_to (line : string) (r : string * string) : Prop :=
  FbTranslator.split_colons (Str.strip line) = [fst r; snd r].

(** The paths the records give for [key], in the order of the records. *)
Definition record_paths (key : string) (records : list (string * string))
  : list PosixPath.t :=
  map (fun r => PosixPath.of_args [snd r])
      (filter (fun r => String.eqb (fst r) key) records).

(** Inputs of the older variant used to exercise the statements. *)
Module FbSample.

(** A map file with a blank line between two records. *)
Definition blank_line_map : string :=
  "k1::res/values/strings.xml" ++ AutoTranslator.nl ++ AutoTranslator.nl
    ++ "k2::res/values/strings.xml" ++ AutoTranslator.nl.

(** A map file whose second record names an entry that the translated
    ledger [Sample.fb_ledger] lacks. *)
Definition missing_key_map : string :=
  "k1::res/values/strings.xml" ++ AutoTranslator.nl
    ++ "k9::res/values/strings.xml" ++ AutoTranslator.nl.

(** A map file with two records of the same name. *)
Definition two_origins_map : string :=
  "k1::a/values/s.xml" ++ AutoTranslator.nl
    ++ "k1::b/values/s.xml" ++ AutoTranslator.nl.

Definition fs (p : string) : option string :=
  if String.eqb p "blank" then Some blank_line_map
  else if String.eqb p "mapping" then Some missing_key_map
  else if String.eqb p "two" then Some two_origins_map
  else if String.eqb p "fr.xml" then Some (ElementTree.write Sample.fb_ledger)
  else None.

Definition packer (mapf : string) : FbTranslator.Packer.t :=
  FbTranslator.Packer.mk (PosixPath.of_args ["fr.xml"])
                         (Some (PosixPath.of_args [mapf]))
                         (Some (PosixPath.of_args ["fr.zip"]))
                         "fr" (PosixPath.of_args ["fr"]) Dict.empty.

End FbSample.

(** Characters that the parser hands back as they are written: the
    printable ones of the basic alphabet, without the markup characters;
    character data may also hold a tab or a line feed. *)
Definition printable (c : ascii) : bool :=
  ElementTree.between 32 126 (nat_of_ascii c).

Definition attr_safe (c : ascii) : bool :=
  printable c
  && negb (Ascii.eqb c "<") && negb (Ascii.eqb c "&") && negb (Ascii.eqb c "034").

Definition text_safe (c : ascii) : bool :=
  (printable c || Ascii.eqb c "009" || Ascii.eqb c "010")
  && negb (Ascii.eqb c "<") && negb (Ascii.eqb c "&") && negb (Ascii.eqb c ">").

Fixpoint all_chars (p : ascii -> bool) (s : string) : bool :=
  match s with
  | EmptyString => true
  | String c s' => p c && all_chars p s'
  end.

(** An entry that needs no escaping: a name and a text of such
    characters, the text without white space at its ends. *)
Definition plain_entry (e : string * string) : bool :=
  all_chars attr_safe (fst e) && all_chars text_safe (snd e)
  && String.eqb (Str.strip (snd e)) (snd e).

(** The element the parser builds for one written entry. *)
Definition string_element (e : string * string) : ElementTree.element :=
  ElementTree.Element "string" [("name"%string, fst e)] (snd e) [].

(** The white space before the next line of a written ledger. *)
Definition lead (rs : list (string * string)) : string :=
  match rs with
  | [] => AutoTranslator.nl
  | _ => (AutoTranslator.nl ++ "    ")%string
  end.

(** The children of the root of a written ledger, with their tails. *)
Fixpoint ledger_children (rs : list (string * string))
  : list (ElementTree.element * string) :=
  match rs with
  | [] => []
  | e :: rs' => (string_element e, lead rs') :: ledger_children rs'
  end.

(** One line of a written ledger, for the entry [e]. *)
Definition ledger_line (e : string * string) : string :=
  ("    <string name=" ++ AutoTranslator.dq ++ fst e ++ AutoTranslator.dq ++ ">"
     ++ snd e ++ "</string>" ++ AutoTranslator.nl)%string.

(** [String.prefix], by recursion on the prefix. *)
Fixpoint prefixb (p s : string) : bool :=
  match p with
  | EmptyString => true
  | String a p' =>
      match s with
      | String b s' => Ascii.eqb a b && prefixb p' s'
      | EmptyString => false
      end
  end.

(** The second stage given the files the first stage wrote for the
    sample tree. *)
Module PipelineSample.
Import AutoTranslator.

Definition flattened : Unpacker.result :=
  Unpacker.flatten Sample.unpacker true Sample.scan Sample.writable.

Definition fs (p : string) : option string :=
  Dict.get p (Unpacker.written flattened).

Definition packer : Packer.t :=
  Packer.mk (Some "out/flat.xml") (Some "out/map.txt") (Some "out/fr.zip")
            Dict.empty Dict.empty "fr" None.

End PipelineSample.
(* ===================================================================== *)
(** ** Facts about strings and paths *)
(* ===================================================================== *)

Section StrFacts.

Lemma split_not_nil sep s : Str.split sep s <> [].
Proof.
  destruct s as [|c s]; simpl; [discriminate|].
  destruct (Ascii.eqb c sep); [discriminate|].
  destruct (Str.split sep s); discriminate.
Qed.

(** Splitting distributes over a separator inserted between two texts. *)
Lemma split_app sep a b :
  Str.split sep (a ++ String sep b) = Str.split sep a ++ Str.split sep b.
Proof.
  induction a as [|c a IH]; simpl.
  - now rewrite Ascii.eqb_refl.
  - destruct (Ascii.eqb c sep); [now rewrite IH|].
    rewrite IH.
    destruct (Str.split sep a) eqn:E; [now apply split_not_nil in E|].
    reflexivity.
Qed.

Lemma split_no_sep sep s :
  Str.contains_char sep s = false -> Str.split sep s = [s].
Proof.
  induction s as [|c s IH]; simpl; [reflexivity|].
  intros H. apply orb_false_iff in H as [Hc Hs].
  rewrite Hc, (IH Hs). reflexivity.
Qed.

Lemma split_pieces_no_sep sep s :
  Forall (fun x => Str.contains_char sep x = false) (Str.split sep s).
Proof.
  induction s as [|c s IH]; simpl.
  - constructor; [reflexivity|constructor].
  - destruct (Ascii.eqb c sep) eqn:E.
    + constructor; [reflexivity|exact IH].
    + destruct (Str.split sep s) as [|h t]; inversion IH; subst;
        constructor; simpl; try rewrite E; auto.
Qed.

Lemma endswith_char_inv s c :
  Str.endswith_char s c = true -> exists s', s = (s' ++ String c "")%string.
Proof.
  induction s as [|a s IH]; simpl; [discriminate|].
  destruct s as [|b s].
  - intros H. apply Ascii.eqb_eq in H. subst. now exists ""%string.
  - intros H. destruct (IH H) as [s' Hs']. exists (String a s').
    simpl. now rewrite Hs'.
Qed.

Lemma append_assoc (a b c : string) : ((a ++ b) ++ c = a ++ (b ++ c))%string.
Proof. induction a; simpl; congruence. Qed.

Lemma startswith_char a s c :
  Str.startswith (String a s) (String c "") = Ascii.eqb c a.
Proof.
  unfold Str.startswith. cbn [prefix].
  destruct (ascii_dec c a) as [->|Hn].
  - rewrite Ascii.eqb_refl. now destruct s.
  - symmetry. now apply Ascii.eqb_neq.
Qed.

Lemma startswith_app_char s c t :
  s <> ""%string ->
  Str.startswith (s ++ t) (String c "") = Str.startswith s (String c "").
Proof.
  destruct s as [|a s]; [congruence|]. intros _.
  cbn [append]. now rewrite !startswith_char.
Qed.

End StrFacts.

Section PathFacts.

Lemma parse_relative s :
  relative s -> PosixPath.parse s = PosixPath.mk "" (PosixPath.parse_rel s).
Proof.
  unfold relative, PosixPath.parse, PosixPath.splitroot. now intros ->.
Qed.

Lemma parse_rel_segment x : PosixPath.segment x -> PosixPath.parse_rel x = [x].
Proof.
  intros [Hk Hs]. unfold PosixPath.parse_rel.
  rewrite (split_no_sep _ _ Hs). simpl. now rewrite Hk.
Qed.

Lemma parse_rel_segments s : Forall PosixPath.segment (PosixPath.parse_rel s).
Proof.
  unfold PosixPath.parse_rel.
  pose proof (split_pieces_no_sep "/" s) as H.
  induction H as [|x l Hx Hl IH]; simpl; [constructor|].
  destruct (PosixPath.keep x) eqn:E; [|exact IH].
  constructor; [split; assumption|exact IH].
Qed.

Lemma segment_relative x : PosixPath.segment x -> relative x.
Proof.
  intros [_ Hs]. unfold relative.
  destruct x as [|c x]; [reflexivity|]. rewrite startswith_char.
  cbn [Str.contains_char] in Hs. apply orb_false_iff in Hs as [Hc _].
  now rewrite Ascii.eqb_sym.
Qed.

Lemma parse_rel_app_sep a b :
  PosixPath.parse_rel (a ++ String "/" b)
  = PosixPath.parse_rel a ++ PosixPath.parse_rel b.
Proof.
  unfold PosixPath.parse_rel. now rewrite split_app, filter_app.
Qed.

Lemma parse_rel_trailing_sep a :
  PosixPath.parse_rel (a ++ "/") = PosixPath.parse_rel a.
Proof. rewrite parse_rel_app_sep. simpl. apply app_nil_r. Qed.

(** One step of [posixpath.join] with a relative right operand
    concatenates the components. *)
Lemma parse_rel_join2 a b :
  relative b ->
  PosixPath.parse_rel (PosixPath.join2 a b)
  = PosixPath.parse_rel a ++ PosixPath.parse_rel b.
Proof.
  intros Hb. unfold PosixPath.join2. rewrite Hb.
  destruct a as [|c a]; [reflexivity|]. cbn [Str.is_empty orb].
  destruct (Str.endswith_char (String c a) "/") eqn:E.
  - apply endswith_char_inv in E as [a' ->].
    rewrite append_assoc. cbn [append].
    now rewrite parse_rel_app_sep, parse_rel_trailing_sep.
  - apply parse_rel_app_sep.
Qed.

Lemma join2_relative a b :
  relative a -> relative b -> relative (PosixPath.join2 a b).
Proof.
  intros Ha Hb. unfold PosixPath.join2. rewrite Hb.
  destruct a as [|c a]; [exact Hb|]. cbn [Str.is_empty orb].
  unfold relative in *.
  destruct (Str.endswith_char (String c a) "/");
    rewrite startswith_app_char; auto; discriminate.
Qed.

Lemma join_relative a p :
  relative a -> Forall relative p ->
  relative (PosixPath.join a p)
  /\ PosixPath.parse_rel (PosixPath.join a p)
     = PosixPath.parse_rel a ++ flat_map PosixPath.parse_rel p.
Proof.
  intros Ha Hp. revert a Ha. unfold PosixPath.join.
  induction Hp as [|b p Hb Hp IH]; intros a Ha; simpl.
  - split; [exact Ha|now rewrite app_nil_r].
  - destruct (IH _ (join2_relative _ _ Ha Hb)) as [Hr He].
    split; [exact Hr|]. now rewrite He, parse_rel_join2, app_assoc.
Qed.

(** The constructor applied to relative arguments concatenates their
    components. *)
Lemma of_args_relative args :
  Forall relative args ->
  PosixPath.of_args args = PosixPath.mk "" (flat_map PosixPath.parse_rel args).
Proof.
  intros H. destruct H as [|a p Ha Hp]; [reflexivity|].
  unfold PosixPath.of_args.
  destruct (join_relative a p Ha Hp) as [Hr He].
  now rewrite (parse_relative _ Hr), He.
Qed.

Lemma concat_segments x tl :
  Forall PosixPath.segment (x :: tl) ->
  PosixPath.parse_rel (String.concat "/" (x :: tl)) = x :: tl
  /\ relative (String.concat "/" (x :: tl)).
Proof.
  revert x. induction tl as [|y tl IH]; intros x H; inversion H; subst.
  - simpl. split; [now apply parse_rel_segment|now apply segment_relative].
  - destruct (IH y H3) as [IHp _].
    change (String.concat "/" (x :: y :: tl))
      with (x ++ String "/" (String.concat "/" (y :: tl)))%string.
    split.
    + rewrite parse_rel_app_sep, IHp, (parse_rel_segment _ H2). reflexivity.
    + unfold relative. rewrite startswith_app_char.
      * now apply segment_relative.
      * destruct H2 as [Hk _]. intros ->. discriminate.
Qed.

(** [str] of a relative path parses back to its components. *)
Lemma str_relative tl :
  Forall PosixPath.segment tl ->
  PosixPath.parse_rel (PosixPath.str (PosixPath.mk "" tl)) = tl
  /\ relative (PosixPath.str (PosixPath.mk "" tl)).
Proof.
  intros H. destruct tl as [|x tl]; [split; reflexivity|].
  unfold PosixPath.str. cbn [PosixPath.root PosixPath.tail].
  change ("" ++ String.concat "/" (x :: tl))%string
    with (String.concat "/" (x :: tl)).
  now apply concat_segments.
Qed.

(** [path / key] for a relative path and a relative key. *)
Lemma div_relative tl key :
  Forall PosixPath.segment tl -> relative key ->
  PosixPath.div (PosixPath.mk "" tl) key
  = PosixPath.mk "" (tl ++ PosixPath.parse_rel key).
Proof.
  intros Htl Hkey. unfold PosixPath.div.
  destruct (str_relative tl Htl) as [Hp Hr].
  rewrite of_args_relative by (repeat constructor; assumption).
  simpl. now rewrite Hp, app_nil_r.
Qed.

End PathFacts.

(* ===================================================================== *)
(** ** The path rewrite of reconstruction *)
(* ===================================================================== *)

Section PathRewrite.
Import AutoTranslator.

(** The loop over the parent's parts computes the segment-wise rewrite
    and records whether a marker segment was seen. *)
Lemma rewrite_loop tag l acc found :
  fold_left (Packer.rewrite_part tag) l (acc, found)
  = (acc ++ map (spec_rewrite_segment tag) l,
     found || existsb (fun seg => Str.startswith seg "values") l).
Proof.
  revert acc found. induction l as [|seg l IH]; intros acc found; simpl.
  - now rewrite app_nil_r, orb_false_r.
  - replace (Packer.rewrite_part tag (acc, found) seg)
      with (acc ++ [spec_rewrite_segment tag seg],
            found || Str.startswith seg "values").
    + now rewrite IH, <- app_assoc, orb_assoc.
    + unfold Packer.rewrite_part, spec_rewrite_segment.
      destruct (Str.startswith seg "values"); cbn [fst snd];
        now rewrite ?orb_true_r, ?orb_false_r.
Qed.

Lemma marker_relative tag : relative ("values-" ++ tag).
Proof. reflexivity. Qed.

Lemma rewritten_relative tag seg :
  PosixPath.segment seg -> relative (spec_rewrite_segment tag seg).
Proof.
  intros H. unfold spec_rewrite_segment.
  destruct (Str.startswith seg "values");
    [apply marker_relative|now apply segment_relative].
Qed.

Lemma rewritten_segment tag seg :
  Str.contains_char "/" tag = false ->
  PosixPath.segment seg -> PosixPath.segment (spec_rewrite_segment tag seg).
Proof.
  intros Ht H. unfold spec_rewrite_segment.
  destruct (Str.startswith seg "values"); [|exact H].
  split; [reflexivity|exact Ht].
Qed.

Lemma flat_map_segments (f : string -> string) l :
  Forall PosixPath.segment (flat_map PosixPath.parse_rel (map f l)).
Proof.
  induction l as [|x l IH]; simpl; [constructor|].
  apply Forall_app. split; [apply parse_rel_segments|exact IH].
Qed.

Lemma flat_map_parse_segments l :
  Forall PosixPath.segment l -> flat_map PosixPath.parse_rel l = l.
Proof.
  induction 1 as [|x l Hx Hl IH]; simpl; [reflexivity|].
  now rewrite (parse_rel_segment _ Hx), IH.
Qed.

Lemma removelast_segments l :
  Forall PosixPath.segment l -> Forall PosixPath.segment (removelast l).
Proof.
  induction 1 as [|x l Hx Hl IH]; simpl; [constructor|].
  destruct l; [constructor|]. constructor; assumption.
Qed.

Lemma last_segment l :
  Forall PosixPath.segment l -> l <> [] -> PosixPath.segment (last l "").
Proof.
  induction 1 as [|x l Hx Hl IH]; [congruence|]. intros _.
  destruct l; [exact Hx|]. apply IH. discriminate.
Qed.

(** The shape of the rewritten path for a relative original path. *)
Lemma target_relative_path_shape tag path :
  relative path ->
  let tl := PosixPath.parse_rel path in
  Packer.target_relative_path tag path
  = (PosixPath.mk ""
       (flat_map PosixPath.parse_rel
                 (map (spec_rewrite_segment tag) (removelast tl))
          ++ PosixPath.parse_rel (last tl "")),
     existsb (fun seg => Str.startswith seg "values") (removelast tl)).
Proof.
  intros Hrel tl. unfold Packer.target_relative_path.
  assert (Horig : PosixPath.of_args [path] = PosixPath.mk "" tl)
    by (now rewrite of_args_relative by (now constructor); simpl;
        rewrite app_nil_r).
  rewrite Horig.
  unfold PosixPath.parent, PosixPath.name, PosixPath.parts.
  cbn [PosixPath.root PosixPath.tail].
  rewrite rewrite_loop. cbn [app orb].
  pose proof (parse_rel_segments path) as Hseg. fold tl in Hseg.
  pose proof (removelast_segments _ Hseg) as Hdirs.
  rewrite of_args_relative.
  2:{ rewrite Forall_map. eapply Forall_impl; [|exact Hdirs].
      intros seg. apply rewritten_relative. }
  rewrite div_relative; [reflexivity|apply flat_map_segments|].
  destruct tl as [|x tl']; [reflexivity|].
  apply segment_relative, last_segment; [exact Hseg|discriminate].
Qed.


End PathRewrite.

(* ===================================================================== *)
(** ** Facts about dictionaries and sorting *)
(* ===================================================================== *)

Section DictFacts.
Context {V : Type}.
Implicit Types (d : Dict.t V) (k : string) (v : V).

Lemma get_set_eq k v d : Dict.get k (Dict.set k v d) = Some v.
Proof.
  induction d as [|[k' v'] d IH]; simpl.
  - now rewrite String.eqb_refl.
  - destruct (String.eqb k k') eqn:E; simpl; rewrite E; [reflexivity|exact IH].
Qed.

Lemma get_set_neq k k' v d :
  k <> k' -> Dict.get k' (Dict.set k v d) = Dict.get k' d.
Proof.
  intros Hne. induction d as [|[k0 v0] d IH]; simpl.
  - apply String.eqb_neq in Hne. now rewrite String.eqb_sym, Hne.
  - destruct (String.eqb_spec k k0) as [->|E]; simpl.
    + apply String.eqb_neq in Hne. now rewrite String.eqb_sym, Hne.
    + now rewrite IH.
Qed.

Lemma get_set k k' v d :
  Dict.get k' (Dict.set k v d)
  = if String.eqb k' k then Some v else Dict.get k' d.
Proof.
  destruct (String.eqb_spec k' k) as [->|Hne].
  - apply get_set_eq.
  - apply get_set_neq. congruence.
Qed.

Lemma get_none_not_in k d : Dict.get k d = None <-> ~ In k (Dict.keys d).
Proof.
  induction d as [|[k' v'] d IH]; simpl; [tauto|].
  destruct (String.eqb_spec k k') as [->|Hne].
  - split; [discriminate|]. intros H. exfalso. apply H. now left.
  - rewrite IH. split; [intros H [E|I]; [congruence|tauto]|tauto].
Qed.

Lemma get_some_in k d v : Dict.get k d = Some v -> In (k, v) d.
Proof.
  induction d as [|[k' v'] d IH]; simpl; [discriminate|].
  destruct (String.eqb_spec k k') as [->|Hne].
  - intros [= ->]. now left.
  - intros H. right. now apply IH.
Qed.

Lemma in_get_some k d v :
  NoDup (Dict.keys d) -> In (k, v) d -> Dict.get k d = Some v.
Proof.
  induction d as [|[k' v'] d IH]; simpl; [tauto|].
  intros Hnd [E|I]; inversion Hnd; subst.
  - injection E as -> ->. now rewrite String.eqb_refl.
  - destruct (String.eqb_spec k k') as [->|Hne]; [|now apply IH].
    exfalso. apply H1. change k' with (fst (k', v)). now apply in_map.
Qed.

Lemma mem_true_iff k d : Dict.mem k d = true <-> In k (Dict.keys d).
Proof.
  unfold Dict.mem. destruct (Dict.get k d) eqn:E.
  - split; [intros _|reflexivity].
    apply get_some_in in E. change k with (fst (k, v)). now apply in_map.
  - apply get_none_not_in in E. split; [discriminate|tauto].
Qed.

(** Assignment keeps the position of a present key and appends a new
    one. *)
Lemma keys_set k v d :
  Dict.keys (Dict.set k v d)
  = if Dict.mem k d then Dict.keys d else Dict.keys d ++ [k].
Proof.
  unfold Dict.mem. induction d as [|[k' v'] d IH]; simpl; [reflexivity|].
  destruct (String.eqb_spec k k') as [->|Hne]; simpl; [reflexivity|].
  rewrite IH. now destruct (Dict.get k d).
Qed.

Lemma keys_set_nodup k v d :
  NoDup (Dict.keys d) -> NoDup (Dict.keys (Dict.set k v d)).
Proof.
  intros H. rewrite keys_set. destruct (Dict.mem k d) eqn:E; [exact H|].
  apply NoDup_app; [exact H|repeat constructor; simpl; tauto|].
  intros x Hx [<-|[]]. apply mem_true_iff in Hx. congruence.
Qed.

End DictFacts.

Section DictFacts2.
Context {V W : Type}.

(** Two dictionaries assigned the same keys in the same order list the
    same keys. *)
Lemma keys_set_same (d1 : Dict.t V) (d2 : Dict.t W) k v w :
  Dict.keys d1 = Dict.keys d2 ->
  Dict.keys (Dict.set k v d1) = Dict.keys (Dict.set k w d2).
Proof.
  intros H. rewrite !keys_set.
  replace (Dict.mem k d2) with (Dict.mem k d1); [now rewrite H|].
  apply eq_true_iff_eq. now rewrite !mem_true_iff, H.
Qed.

End DictFacts2.

Section SortFacts.
Import AutoTranslator.

Lemma insert_sorted_perm x l : Permutation (x :: l) (insert_sorted x l).
Proof.
  induction l as [|y l IH]; simpl; [reflexivity|].
  destruct (String.leb x y); [reflexivity|].
  rewrite perm_swap. now constructor.
Qed.

Lemma sorted_perm l : Permutation l (sorted l).
Proof.
  induction l as [|x l IH]; simpl; [constructor|].
  rewrite <- insert_sorted_perm. now constructor.
Qed.

Lemma insert_sorted_hdrel a x l :
  name_le a x -> HdRel name_le a l -> HdRel name_le a (insert_sorted x l).
Proof.
  intros Hax H. destruct l as [|y l]; simpl; [now constructor|].
  destruct (String.leb x y); constructor; [assumption|now inversion H].
Qed.

Lemma insert_sorted_sorted x l :
  Sorted name_le l -> Sorted name_le (insert_sorted x l).
Proof.
  induction 1 as [|y l Hl IH Hhd]; simpl; [repeat constructor|].
  destruct (String.leb x y) eqn:E.
  - constructor; [now constructor|now constructor].
  - constructor; [exact IH|]. apply insert_sorted_hdrel; [|exact Hhd].
    destruct (String.leb_total x y) as [H|H]; [congruence|exact H].
Qed.

Lemma sorted_sorted l : Sorted name_le (sorted l).
Proof.
  induction l as [|x l IH]; simpl; [constructor|].
  now apply insert_sorted_sorted.
Qed.

Lemma name_le_neq_lt a b : name_le a b -> a <> b -> name_lt a b.
Proof.
  unfold name_le, name_lt, String.leb, String.ltb. intros H Hne.
  destruct (String.compare a b) eqn:E; try reflexivity; try discriminate.
  now apply String.compare_eq_iff in E.
Qed.

(** A sorted list without repetition is strictly increasing. *)
Lemma sorted_strict l : NoDup l -> Sorted name_le l -> Sorted name_lt l.
Proof.
  intros Hnd H. induction H as [|x l Hl IH Hhd]; [constructor|].
  inversion Hnd; subst. constructor; [now apply IH|].
  destruct Hhd as [|y l Hxy]; constructor.
  apply name_le_neq_lt; [exact Hxy|]. intros ->. apply H1. now left.
Qed.

(** The names of a dictionary come out of [sorted] strictly increasing
    and are the same names. *)
Lemma sorted_keys_spec (d : Dict.t string) :
  NoDup (Dict.keys d) ->
  Sorted name_lt (sorted (Dict.keys d))
  /\ Permutation (Dict.keys d) (sorted (Dict.keys d)).
Proof.
  intros Hnd. split; [|apply sorted_perm].
  apply sorted_strict; [|apply sorted_sorted].
  eapply Permutation_NoDup; [apply sorted_perm|exact Hnd].
Qed.

Lemma name_lt_String_as_OT a b : name_lt a b <-> String_as_OT.lt a b.
Proof.
  unfold name_lt, String.ltb. rewrite <- String_as_OT.cmp_lt. unfold String_as_OT.cmp.
  destruct (String.compare a b); split; intros H; congruence.
Qed.

Lemma name_lt_trans a b c : name_lt a b -> name_lt b c -> name_lt a c.
Proof. rewrite !name_lt_String_as_OT. apply String_as_OT.lt_trans. Qed.

Lemma name_lt_irrefl a : ~ name_lt a a.
Proof.
  rewrite name_lt_String_as_OT. intros H.
  apply String_as_OT.lt_not_eq in H. now apply H.
Qed.

Lemma sorted_strongly l : Sorted name_lt l -> StronglySorted name_lt l.
Proof. apply Sorted_StronglySorted. intros a b c. apply name_lt_trans. Qed.

(** Two strictly increasing lists with the same members are equal. *)
Lemma sorted_unique l1 : forall l2,
  StronglySorted name_lt l1 -> StronglySorted name_lt l2 ->
  (forall x, In x l1 <-> In x l2) -> l1 = l2.
Proof.
  induction l1 as [|x1 l1 IH]; intros l2 H1 H2 Hsame.
  - destruct l2 as [|x2 l2]; [reflexivity|].
    destruct (proj2 (Hsame x2)). now left.
  - destruct l2 as [|x2 l2]; [destruct (proj1 (Hsame x1)); now left|].
    apply StronglySorted_inv in H1 as [H1 Hx1].
    apply StronglySorted_inv in H2 as [H2 Hx2].
    rewrite Forall_forall in Hx1, Hx2.
    assert (Heq : x1 = x2).
    { destruct (proj1 (Hsame x1) (or_introl eq_refl)) as [E|I2]; [now symmetry|].
      destruct (proj2 (Hsame x2) (or_introl eq_refl)) as [E|I1]; [exact E|].
      exfalso. apply (name_lt_irrefl x1).
      apply (name_lt_trans _ x2); [now apply Hx1|now apply Hx2]. }
    subst x2. f_equal. apply IH; try assumption.
    intros x. split; intros Hin.
    + destruct (proj1 (Hsame x) (or_intror Hin)) as [E|I]; [|exact I].
      subst x. exfalso. apply (name_lt_irrefl x1). now apply Hx1.
    + destruct (proj2 (Hsame x) (or_intror Hin)) as [E|I]; [|exact I].
      subst x. exfalso. apply (name_lt_irrefl x1). now apply Hx2.
Qed.

(** The sorted names depend on the set of names only. *)
Lemma sorted_keys_ext (d1 d2 : Dict.t string) :
  NoDup (Dict.keys d1) -> NoDup (Dict.keys d2) ->
  (forall k, Dict.get k d1 = Dict.get k d2) ->
  sorted (Dict.keys d1) = sorted (Dict.keys d2).
Proof.
  intros N1 N2 Hget.
  destruct (sorted_keys_spec d1 N1) as [S1 P1].
  destruct (sorted_keys_spec d2 N2) as [S2 P2].
  apply sorted_unique; try now apply sorted_strongly.
  intros x.
  rewrite <- (Permutation_in' (eq_refl x) P1), <- (Permutation_in' (eq_refl x) P2).
  rewrite <- !mem_true_iff. unfold Dict.mem. now rewrite Hget.
Qed.

End SortFacts.

(* ===================================================================== *)
(** ** Flatten *)
(* ===================================================================== *)

Section FlattenFacts.
Import AutoTranslator.

Lemma fold_left_invariant {A B : Type} (P : A -> Prop) (f : A -> B -> A) l a :
  P a -> (forall a x, P a -> P (f a x)) -> P (fold_left f l a).
Proof.
  intros Ha Hstep. revert a Ha.
  induction l as [|x l IH]; intros a Ha; simpl; [exact Ha|].
  apply IH, Hstep, Ha.
Qed.

Lemma flatten_entry_coherent rel st entry :
  coherent st -> coherent (Unpacker.flatten_entry rel st entry).
Proof.
  intros [Hk Hnd]. destruct entry as [name text].
  unfold coherent, Unpacker.flatten_entry.
  cbn [Unpacker.all_entries Unpacker.st_map_data]. split.
  - now apply keys_set_same.
  - now apply keys_set_nodup.
Qed.

Lemma flatten_file_coherent dir st f :
  coherent st -> coherent (Unpacker.flatten_file dir st f).
Proof.
  intros H. unfold Unpacker.flatten_file.
  destruct (Unpacker.is_file f); [|exact H].
  destruct (XMLHandler.read_entries _ _) as [entries read_log].
  destruct (Dict.is_empty entries); [exact H|].
  apply fold_left_invariant; [exact H|].
  intros a x. apply flatten_entry_coherent.
Qed.

Lemma collect_coherent dir scan : coherent (Unpacker.collect dir scan).
Proof.
  unfold Unpacker.collect. apply fold_left_invariant.
  - split; [reflexivity|constructor].
  - intros a x. apply flatten_file_coherent.
Qed.

(** What a successful [flatten] did. *)
Lemma flatten_ok_inv self ex scan can_write :
  Unpacker.ok (Unpacker.flatten self ex scan can_write) = true ->
  exists dir out mapf,
    Unpacker.extract_dir self = Some dir
    /\ Unpacker.out_xml self = Some out
    /\ Unpacker.map_file self = Some mapf
    /\ Unpacker.self' (Unpacker.flatten self ex scan can_write)
       = Unpacker.with_map_data self (Unpacker.st_map_data (Unpacker.collect dir scan))
    /\ Unpacker.written (Unpacker.flatten self ex scan can_write)
       = [(out, XMLHandler.encode (Unpacker.all_entries (Unpacker.collect dir scan)));
          (mapf, Unpacker.map_file_text (Unpacker.st_map_data (Unpacker.collect dir scan)))].
Proof.
  unfold Unpacker.flatten.
  destruct (Unpacker.out_xml self) as [out|]; [|discriminate].
  destruct (Unpacker.map_file self) as [mapf|]; [|discriminate].
  destruct (Str.is_empty out || Str.is_empty mapf); [discriminate|].
  destruct (Unpacker.extract_dir self) as [dir|]; [|discriminate].
  destruct (negb ex); [discriminate|].
  unfold XMLHandler.write_entries.
  destruct (can_write out); [|discriminate].
  destruct (can_write mapf); [|discriminate].
  intros _. exists dir, out, mapf. repeat split; reflexivity.
Qed.

(** [flatten] starts from empty tables: the provenance map left by an
    earlier call does not influence what it writes or returns. *)
Lemma flatten_resets self m ex scan can_write :
  let r := Unpacker.flatten self ex scan can_write in
  let r' := Unpacker.flatten (Unpacker.with_map_data self m) ex scan can_write in
  Unpacker.ok r' = Unpacker.ok r
  /\ Unpacker.written r' = Unpacker.written r
  /\ Unpacker.out_log r' = Unpacker.out_log r.
Proof.
  unfold Unpacker.flatten. destruct self as [z mf ox md ed].
  cbn [Unpacker.with_map_data Unpacker.out_xml Unpacker.map_file
       Unpacker.extract_dir Unpacker.in_zip].
  destruct ox as [out|]; [|now repeat split].
  destruct mf as [mapf|]; [|now repeat split].
  destruct (Str.is_empty out || Str.is_empty mapf); [now repeat split|].
  destruct ed as [dir|]; [|now repeat split].
  destruct (negb ex); [now repeat split|].
  destruct (XMLHandler.write_entries can_write out _) as [[ledger|] wlog];
    [|now repeat split].
  destruct (can_write mapf); now repeat split.
Qed.

Lemma flatten_self' self ex scan can_write :
  exists m, Unpacker.self' (Unpacker.flatten self ex scan can_write)
            = Unpacker.with_map_data self m.
Proof.
  assert (Hself : self = Unpacker.with_map_data self (Unpacker.map_data self))
    by now destruct self.
  assert (Hkeep : exists m, self = Unpacker.with_map_data self m)
    by (eexists; exact Hself).
  unfold Unpacker.flatten.
  destruct (Unpacker.out_xml self) as [out|]; [|exact Hkeep].
  destruct (Unpacker.map_file self) as [mapf|]; [|exact Hkeep].
  destruct (Str.is_empty out || Str.is_empty mapf); [exact Hkeep|].
  destruct (Unpacker.extract_dir self) as [dir|]; [|exact Hkeep].
  destruct (negb ex); [exact Hkeep|].
  destruct (XMLHandler.write_entries can_write out _) as [[ledger|] wlog];
    [|eexists; reflexivity].
  destruct (can_write mapf); eexists; reflexivity.
Qed.

(** C9.  After a successful flatten pass the ledger and the provenance
    map have the same key set: the ledger written to the ledger file
    and the provenance map left in the object list the same names (in
    the same order), so a name has a text exactly when it has an origin
    path. *)
Theorem C9_flatten_same_keys self ex scan can_write :
  let r := Unpacker.flatten self ex scan can_write in
  Unpacker.ok r = true ->
  exists dir out mapf,
    Unpacker.extract_dir self = Some dir
    /\ Unpacker.out_xml self = Some out
    /\ Unpacker.map_file self = Some mapf
    /\ let ledger := Unpacker.all_entries (Unpacker.collect dir scan) in
       let provenance := Unpacker.map_data (Unpacker.self' r) in
       Unpacker.written r
       = [(out, XMLHandler.encode ledger);
          (mapf, Unpacker.map_file_text provenance)]
       /\ Dict.keys ledger = Dict.keys provenance
       /\ (forall name, Dict.mem name ledger = Dict.mem name provenance)
       /\ (forall name, (exists text, Dict.get name ledger = Some text)
                        <-> (exists path, Dict.get name provenance = Some path)).
Proof.
  intros r Hok.
  destruct (flatten_ok_inv _ _ _ _ Hok) as (dir & out & mapf & Hd & Ho & Hm & Hs & Hw).
  exists dir, out, mapf. repeat (split; [assumption|]).
  fold r in Hs, Hw. cbv zeta. rewrite Hs, Hw.
  destruct self; cbn [Unpacker.with_map_data Unpacker.map_data].
  destruct (collect_coherent dir scan) as [Hk _].
  assert (Hmem : forall name,
             Dict.mem name (Unpacker.all_entries (Unpacker.collect dir scan))
             = Dict.mem name (Unpacker.st_map_data (Unpacker.collect dir scan))).
  { intros name. apply eq_true_iff_eq. now rewrite !mem_true_iff, Hk. }
  repeat split; try assumption.
  - intros [text Ht]. specialize (Hmem name). unfold Dict.mem in Hmem.
    rewrite Ht in Hmem.
    destruct (Dict.get name (Unpacker.st_map_data _)) as [p|];
      [now exists p|discriminate].
  - intros [p Hp]. specialize (Hmem name). unfold Dict.mem in Hmem.
    rewrite Hp in Hmem.
    destruct (Dict.get name (Unpacker.all_entries _)) as [t|];
      [now exists t|discriminate].
Qed.

(** The theorem on the sample tree. *)
Lemma C9_flatten_same_keys_witness :
  Dict.keys (Unpacker.map_data
               (Unpacker.self'
                  (Unpacker.flatten Sample.unpacker true Sample.scan Sample.writable)))
  = ["k1"; "k2"]%string.
Proof.
  destruct (C9_flatten_same_keys Sample.unpacker true Sample.scan Sample.writable)
    as (dir & out & mapf & Hd & _ & _ & _ & Hk & _).
  - reflexivity.
  - injection Hd as <-. rewrite <- Hk. reflexivity.
Defined.

Lemma encode_resource_text entries :
  XMLHandler.encode entries = resource_text entries (sorted (Dict.keys entries)).
Proof. reflexivity. Qed.

Lemma map_file_index_text m :
  Unpacker.map_file_text m = index_text m (sorted (Dict.keys m)).
Proof. reflexivity. Qed.

(** C4.  Flatten output is deterministic.  Flattening the same scanned
    tree a second time, on the object the first pass left behind,
    writes the same files with the same text and returns the same
    result (the scan, that is the traversal of the tree, is the same in
    both passes).  When the pass succeeds, the ledger file is the text
    that lists the entries collected from the scan, one line per name,
    and the provenance index the text that lists the records of the map
    the pass leaves in the object, in the same order: the names of the
    collected entries, each once, in strictly increasing order.  The
    two texts depend on the contents of the dictionaries only, not on
    the order in which the names entered them. *)
Theorem C4_flatten_deterministic self ex scan can_write :
  let r1 := Unpacker.flatten self ex scan can_write in
  let r2 := Unpacker.flatten (Unpacker.self' r1) ex scan can_write in
  Unpacker.written r2 = Unpacker.written r1
  /\ Unpacker.ok r2 = Unpacker.ok r1
  /\ (Unpacker.ok r1 = true ->
      exists dir out mapf,
        Unpacker.extract_dir self = Some dir
        /\ Unpacker.out_xml self = Some out
        /\ Unpacker.map_file self = Some mapf
        /\ let ledger := Unpacker.all_entries (Unpacker.collect dir scan) in
           let provenance := Unpacker.map_data (Unpacker.self' r1) in
           let names := sorted (Dict.keys ledger) in
           Unpacker.written r1
           = [(out, resource_text ledger names);
              (mapf, index_text provenance names)]
           /\ StronglySorted name_lt names
           /\ NoDup names
           /\ (forall name, In name names <-> In name (Dict.keys ledger))
           /\ (forall name, In name names <-> In name (Dict.keys provenance)))
  /\ (forall d1 d2 : Dict.t string,
        NoDup (Dict.keys d1) -> NoDup (Dict.keys d2) ->
        (forall name, Dict.get name d1 = Dict.get name d2) ->
        XMLHandler.encode d1 = XMLHandler.encode d2
        /\ Unpacker.map_file_text d1 = Unpacker.map_file_text d2).
Proof.
  intros r1 r2. split; [|split; [|split]].
  - unfold r2. destruct (flatten_self' self ex scan can_write) as [m Hm].
    fold r1 in Hm. rewrite Hm.
    now destruct (flatten_resets self m ex scan can_write) as (_ & H & _).
  - unfold r2. destruct (flatten_self' self ex scan can_write) as [m Hm].
    fold r1 in Hm. rewrite Hm.
    now destruct (flatten_resets self m ex scan can_write) as (H & _).
  - intros Hok.
    destruct (flatten_ok_inv _ _ _ _ Hok)
      as (dir & out & mapf & Hd & Ho & Hmf & Hs & Hw).
    fold r1 in Hs, Hw.
    destruct (collect_coherent dir scan) as [Hk Hnd].
    exists dir, out, mapf. repeat (split; [assumption|]). cbv zeta.
    assert (Hprov : Unpacker.map_data (Unpacker.self' r1)
                    = Unpacker.st_map_data (Unpacker.collect dir scan))
      by (rewrite Hs; now destruct self).
    rewrite Hprov.
    pose proof (sorted_perm
                  (Dict.keys (Unpacker.all_entries (Unpacker.collect dir scan))))
      as Hperm.
    split; [|split; [|split; [|split]]].
    + rewrite Hw, encode_resource_text, map_file_index_text. now rewrite Hk.
    + apply sorted_strongly. now apply sorted_keys_spec.
    + apply (Permutation_NoDup Hperm Hnd).
    + intros name. split; intros H.
      * apply (Permutation_in _ (Permutation_sym Hperm) H).
      * apply (Permutation_in _ Hperm H).
    + intros name. rewrite <- Hk. split; intros H.
      * apply (Permutation_in _ (Permutation_sym Hperm) H).
      * apply (Permutation_in _ Hperm H).
  - intros d1 d2 N1 N2 Hget.
    unfold XMLHandler.encode, Unpacker.map_file_text.
    rewrite (sorted_keys_ext d1 d2 N1 N2 Hget).
    assert (Hitem : forall name, item d1 name = item d2 name)
      by (intros name; unfold item; now rewrite Hget).
    split.
    + rewrite (map_ext (XMLHandler.entry_line d1) (XMLHandler.entry_line d2));
        [reflexivity|].
      intros name. unfold XMLHandler.entry_line. now rewrite Hitem.
    + f_equal. apply map_ext. intros name. now rewrite Hitem.
Qed.

(** The theorem on the sample tree, whose flatten pass succeeds: the
    names listed are k1 and k2, in this order. *)
Lemma C4_flatten_deterministic_witness :
  let r := Unpacker.flatten Sample.unpacker true Sample.scan Sample.writable in
  Unpacker.ok r = true
  /\ exists dir,
       Unpacker.extract_dir Sample.unpacker = Some dir
       /\ sorted (Dict.keys (Unpacker.all_entries (Unpacker.collect dir Sample.scan)))
          = ["k1"; "k2"]%string
       /\ StronglySorted name_lt
            (sorted (Dict.keys (Unpacker.all_entries
                                  (Unpacker.collect dir Sample.scan)))).
Proof.
  split; [reflexivity|].
  destruct (C4_flatten_deterministic Sample.unpacker true Sample.scan Sample.writable)
    as (_ & _ & H & _).
  destruct (H eq_refl) as (dir & out & mapf & Hd & _ & _ & _ & Hs & _).
  exists dir. split; [exact Hd|]. split; [|exact Hs].
  injection Hd as <-. reflexivity.
Defined.

End FlattenFacts.

(* ===================================================================== *)
(** ** Duplicate names during flatten *)
(* ===================================================================== *)

Section DuplicateFacts.
Import AutoTranslator.

Lemma read_element_nodup entries e :
  NoDup (Dict.keys entries) -> NoDup (Dict.keys (XMLHandler.read_element entries e)).
Proof.
  intros H. unfold XMLHandler.read_element.
  destruct (ElementTree.get e "name"); [now apply keys_set_nodup|exact H].
Qed.

Lemma read_entries_nodup xml_file content :
  NoDup (Dict.keys (fst (XMLHandler.read_entries xml_file content))).
Proof.
  unfold XMLHandler.read_entries.
  destruct content as [c|]; [|constructor].
  destruct (ElementTree.parse c) as [root|]; [|constructor].
  cbn [fst]. apply fold_left_invariant; [constructor|].
  intros a x. apply read_element_nodup.
Qed.

Lemma decode_nodup content : NoDup (Dict.keys (decode content)).
Proof. apply read_entries_nodup. Qed.

(** The entries read do not depend on the name of the file, and reading
    prints no conflict warning. *)
Lemma read_entries_decode xml_file content :
  exists read_log,
    XMLHandler.read_entries xml_file (Some content) = (decode content, read_log)
    /\ conflicts read_log = [].
Proof.
  unfold decode, XMLHandler.read_entries.
  destruct (ElementTree.parse content); eexists; split; reflexivity.
Qed.

Lemma flat_map_ext_in {A B : Type} (f g : A -> list B) l :
  (forall a, In a l -> f a = g a) -> flat_map f l = flat_map g l.
Proof.
  induction l as [|a l IH]; intros H; simpl; [reflexivity|].
  rewrite (H a) by now left. f_equal. apply IH. intros b Hb. apply H. now right.
Qed.

(** The inner loop of [flatten] over the entries of one file. *)
Lemma flatten_entries_spec rel (l : Dict.t string) st :
  NoDup (Dict.keys l) ->
  let st' := fold_left (Unpacker.flatten_entry rel) l st in
  (forall n, Dict.get n (Unpacker.all_entries st')
             = match Dict.get n l with
               | Some t => Some t
               | None => Dict.get n (Unpacker.all_entries st)
               end)
  /\ (forall n, Dict.get n (Unpacker.st_map_data st')
                = if Dict.mem n l then Some rel
                  else Dict.get n (Unpacker.st_map_data st))
  /\ Unpacker.log st'
     = Unpacker.log st
         ++ flat_map (fun e => Unpacker.duplicate_warning rel st (fst e) (snd e)) l.
Proof.
  revert st. induction l as [|[n0 t0] l IH]; intros st Hnd; cbn zeta.
  - simpl. repeat split; try reflexivity. now rewrite app_nil_r.
  - inversion Hnd as [|? ? Hnotin Hnd']; subst.
    cbn [fold_left].
    destruct (IH (Unpacker.flatten_entry rel st (n0, t0)) Hnd') as (Ha & Hm & Hl).
    assert (Hfresh : Dict.get n0 l = None) by now apply get_none_not_in.
    repeat split.
    + intros n. rewrite Ha. cbn [Unpacker.flatten_entry Unpacker.all_entries].
      rewrite get_set. cbn [Dict.get].
      destruct (String.eqb_spec n n0) as [->|Hne]; [now rewrite Hfresh|reflexivity].
    + intros n. rewrite Hm. cbn [Unpacker.flatten_entry Unpacker.st_map_data].
      rewrite get_set. unfold Dict.mem. cbn [Dict.get].
      destruct (String.eqb_spec n n0) as [->|Hne]; [now rewrite Hfresh|reflexivity].
    + rewrite Hl. cbn [Unpacker.flatten_entry Unpacker.log flat_map fst snd].
      rewrite <- app_assoc. do 2 f_equal.
      apply flat_map_ext_in. intros [n t] Hin. cbn [fst snd].
      assert (Hne : n0 <> n).
      { intros ->. apply Hnotin. change n with (fst (n, t)). now apply in_map. }
      unfold Unpacker.duplicate_warning.
      cbn [Unpacker.all_entries Unpacker.st_map_data].
      now rewrite !get_set_neq by exact Hne.
Qed.

(** A regular file that decodes to some entries goes through the inner
    loop. *)
Lemma flatten_file_entries dir st f content :
  Unpacker.is_file f = true ->
  Unpacker.content f = Some content ->
  Dict.is_empty (decode content) = false ->
  exists read_log,
    conflicts read_log = []
    /\ Unpacker.flatten_file dir st f
       = fold_left (Unpacker.flatten_entry (Unpacker.relative_path f))
                   (decode content)
                   (Unpacker.mk_state (Unpacker.all_entries st)
                                      (Unpacker.st_map_data st)
                                      (S (Unpacker.xml_files_found st))
                                      (Unpacker.log st ++ read_log)).
Proof.
  intros Hfile Hcontent Hne. unfold Unpacker.flatten_file.
  rewrite Hfile, Hcontent.
  destruct (read_entries_decode
              (PosixPath.str (PosixPath.div dir (Unpacker.relative_path f)))
              content) as (read_log & -> & Hlog).
  exists read_log. split; [exact Hlog|].
  unfold Dict.items. now rewrite Hne.
Qed.

Lemma get_some_not_empty {V : Type} (d : Dict.t V) k v :
  Dict.get k d = Some v -> Dict.is_empty d = false.
Proof. destruct d; [discriminate|reflexivity]. Qed.

Lemma conflicts_app l1 l2 : conflicts (l1 ++ l2) = conflicts l1 ++ conflicts l2.
Proof. apply filter_app. Qed.

(** The conflict warnings of a successful [flatten] are those of its
    loops. *)
Lemma flatten_ok_conflicts self ex scan can_write dir :
  Unpacker.ok (Unpacker.flatten self ex scan can_write) = true ->
  Unpacker.extract_dir self = Some dir ->
  conflicts (Unpacker.out_log (Unpacker.flatten self ex scan can_write))
  = conflicts (Unpacker.log (Unpacker.collect dir scan)).
Proof.
  unfold Unpacker.flatten.
  destruct (Unpacker.out_xml self) as [out|]; [|discriminate].
  destruct (Unpacker.map_file self) as [mapf|]; [|discriminate].
  destruct (Str.is_empty out || Str.is_empty mapf); [discriminate|].
  destruct (Unpacker.extract_dir self) as [d|]; [|discriminate].
  destruct (negb ex); [discriminate|].
  unfold XMLHandler.write_entries.
  destruct (can_write out); [|discriminate].
  destruct (can_write mapf); [|discriminate].
  intros _ [= ->]. cbn [Unpacker.out_log].
  rewrite !conflicts_app.
  destruct (Nat.eqb _ 0); unfold conflicts; simpl; now rewrite !app_nil_r.
Qed.

Lemma flat_map_nil {A B : Type} (f : A -> list B) l :
  (forall a, In a l -> f a = []) -> flat_map f l = [].
Proof.
  induction l as [|a l IH]; intros H; simpl; [reflexivity|].
  rewrite (H a) by now left. apply IH. intros b Hb. apply H. now right.
Qed.

(** Among entries with distinct names, a function that answers only at
    the name [k] answers once. *)
Lemma flat_map_single {V B : Type} (f : string * V -> list B) (l : Dict.t V) k v :
  NoDup (Dict.keys l) -> In (k, v) l ->
  (forall e, In e l -> fst e <> k -> f e = []) ->
  flat_map f l = f (k, v).
Proof.
  induction l as [|e0 l IH]; intros Hnd Hin Hother; [destruct Hin|].
  inversion Hnd as [|? ? Hnotin Hnd']; subst. cbn [flat_map].
  destruct Hin as [->|Hin].
  - rewrite flat_map_nil; [apply app_nil_r|].
    intros e He. apply Hother; [now right|].
    intros Hk. apply Hnotin. cbn [fst]. rewrite <- Hk. now apply in_map.
  - rewrite (Hother e0); [|now left|].
    + apply IH; [exact Hnd'|exact Hin|]. intros e He. apply Hother. now right.
    + intros Hk. apply Hnotin. rewrite Hk.
      change k with (fst (k, v)). now apply in_map.
Qed.

(** Last write wins, on two files that disagree on one name. *)
Lemma last_write_wins_two_files self ex can_write rel1 rel2 c1 c2 name t1 t2 :
  let scan := [Unpacker.mk_scanned rel1 true (Some c1);
               Unpacker.mk_scanned rel2 true (Some c2)] in
  let r := Unpacker.flatten self ex scan can_write in
  Unpacker.ok r = true ->
  Dict.get name (decode c1) = Some t1 ->
  Dict.get name (decode c2) = Some t2 ->
  t1 <> t2 ->
  (forall n a b, Dict.get n (decode c1) = Some a ->
                 Dict.get n (decode c2) = Some b -> a <> b -> n = name) ->
  conflicts (Unpacker.out_log r) = [WarnDuplicate name rel2 rel1]
  /\ List.length (conflicts (Unpacker.out_log r)) = 1
  /\ exists dir out mapf,
       Unpacker.extract_dir self = Some dir
       /\ let ledger := Unpacker.all_entries (Unpacker.collect dir scan) in
          Unpacker.written r
          = [(out, XMLHandler.encode ledger);
             (mapf, Unpacker.map_file_text (Unpacker.map_data (Unpacker.self' r)))]
          /\ Dict.get name ledger = Some t2
          /\ Dict.get name ledger <> Some t1
          /\ Dict.get name (Unpacker.map_data (Unpacker.self' r)) = Some rel2.
Proof.
  intros scan r Hok H1 H2 Hdiff Honly.
  destruct (flatten_ok_inv _ _ _ _ Hok) as (dir & out & mapf & Hd & _ & _ & Hs & Hw).
  pose proof (flatten_ok_conflicts _ _ _ _ dir Hok Hd) as Hc.
  fold r in Hs, Hw, Hc.
  set (st0 := Unpacker.mk_state Dict.empty Dict.empty 0 [InfoFlattenStart]).
  set (f1 := Unpacker.mk_scanned rel1 true (Some c1)).
  set (f2 := Unpacker.mk_scanned rel2 true (Some c2)).
  assert (Hcollect : Unpacker.collect dir scan
                     = Unpacker.flatten_file dir (Unpacker.flatten_file dir st0 f1) f2)
    by reflexivity.
  destruct (flatten_file_entries dir st0 f1 c1 eq_refl eq_refl
              (get_some_not_empty _ _ _ H1)) as (rl1 & Hrl1 & Hf1).
  destruct (flatten_entries_spec rel1 (decode c1)
              (Unpacker.mk_state (Unpacker.all_entries st0) (Unpacker.st_map_data st0)
                                 (S (Unpacker.xml_files_found st0))
                                 (Unpacker.log st0 ++ rl1))
              (decode_nodup c1))
    as (Ha1 & Hm1 & Hl1).
  cbn [Unpacker.relative_path f1] in Hf1. rewrite <- Hf1 in Ha1, Hm1, Hl1.
  set (st1 := Unpacker.flatten_file dir st0 f1) in *.
  destruct (flatten_file_entries dir st1 f2 c2 eq_refl eq_refl
              (get_some_not_empty _ _ _ H2)) as (rl2 & Hrl2 & Hf2).
  destruct (flatten_entries_spec rel2 (decode c2)
              (Unpacker.mk_state (Unpacker.all_entries st1) (Unpacker.st_map_data st1)
                                 (S (Unpacker.xml_files_found st1))
                                 (Unpacker.log st1 ++ rl2))
              (decode_nodup c2))
    as (Ha2 & Hm2 & Hl2).
  cbn [Unpacker.relative_path f2] in Hf2. rewrite <- Hf2 in Ha2, Hm2, Hl2.
  rewrite <- Hcollect in Ha2, Hm2, Hl2.
  cbn [Unpacker.all_entries Unpacker.st_map_data Unpacker.log st0] in *.
  (* the first file meets empty tables: no warning *)
  assert (Hw1 : conflicts (Unpacker.log st1) = []).
  { rewrite Hl1. rewrite flat_map_nil by reflexivity.
    rewrite !conflicts_app, Hrl1. reflexivity. }
  (* the second file meets the entries of the first *)
  assert (Hw2 : flat_map
                  (fun e => Unpacker.duplicate_warning rel2
                              (Unpacker.mk_state (Unpacker.all_entries st1)
                                 (Unpacker.st_map_data st1)
                                 (S (Unpacker.xml_files_found st1))
                                 (Unpacker.log st1 ++ rl2)) (fst e) (snd e))
                  (decode c2)
                = [WarnDuplicate name rel2 rel1]).
  { rewrite (flat_map_single _ _ name t2 (decode_nodup c2) (get_some_in _ _ _ H2)).
    - unfold Unpacker.duplicate_warning.
      cbn [fst snd Unpacker.all_entries Unpacker.st_map_data].
      rewrite Ha1, H1, Hm1. unfold Dict.mem. rewrite H1.
      apply String.eqb_neq in Hdiff. now rewrite Hdiff.
    - intros [n t] Hin Hne. cbn [fst snd] in *.
      unfold Unpacker.duplicate_warning.
      cbn [Unpacker.all_entries Unpacker.st_map_data].
      rewrite Ha1. destruct (Dict.get n (decode c1)) as [old|] eqn:E; [|reflexivity].
      destruct (String.eqb_spec old t) as [->|Hot]; [reflexivity|].
      exfalso. apply Hne. apply (Honly n old t E); [|exact Hot].
      apply in_get_some; [apply decode_nodup|exact Hin]. }
  assert (Hconf : conflicts (Unpacker.out_log r) = [WarnDuplicate name rel2 rel1]).
  { rewrite Hc, Hl2, Hw2, !conflicts_app, Hw1, Hrl2. reflexivity. }
  split; [exact Hconf|]. split; [now rewrite Hconf|].
  exists dir, out, mapf. split; [exact Hd|]. cbv zeta.
  assert (Hledger : Dict.get name (Unpacker.all_entries (Unpacker.collect dir scan))
                    = Some t2) by now rewrite Ha2, H2.
  repeat split.
  - rewrite Hw, Hs. now destruct self.
  - exact Hledger.
  - rewrite Hledger. congruence.
  - rewrite Hs. destruct self. cbn [Unpacker.with_map_data Unpacker.map_data].
    rewrite Hm2. unfold Dict.mem. now rewrite H2.
Qed.

(** *** The older variant's flatten *)

Lemma older_strings_none rel l : forall st,
  flat_map (fun e => match ElementTree.get e "name" with
                     | Some name =>
                         if Str.is_empty name then []
                         else [(name, ElementTree.text e)]
                     | None => []
                     end) l = [] ->
  fold_left (FbTranslator.Unpacker.flatten_string rel) l st = st.
Proof.
  induction l as [|e l IH]; intros st H; [reflexivity|].
  cbn [flat_map] in H. apply app_eq_nil in H as [He Hl].
  cbn [fold_left]. unfold FbTranslator.Unpacker.flatten_string at 2.
  destruct (ElementTree.get e "name") as [n|]; [|now apply IH].
  destruct (Str.is_empty n); [now apply IH|discriminate].
Qed.

(** A file with one named entry adds one child and one path. *)
Lemma older_strings_one rel l name text : forall st,
  flat_map (fun e => match ElementTree.get e "name" with
                     | Some name =>
                         if Str.is_empty name then []
                         else [(name, ElementTree.text e)]
                     | None => []
                     end) l = [(name, text)] ->
  fold_left (FbTranslator.Unpacker.flatten_string rel) l st
  = FbTranslator.Unpacker.mk_state
      (FbTranslator.Unpacker.children st ++ [fb_child "" (name, text)])
      (Dict.set name
                (match Dict.get name (FbTranslator.Unpacker.st_entries st) with
                 | Some paths => paths
                 | None => []
                 end ++ [rel])
                (FbTranslator.Unpacker.st_entries st)).
Proof.
  induction l as [|e l IH]; intros st H; [discriminate|].
  cbn [flat_map] in H. cbn [fold_left].
  unfold FbTranslator.Unpacker.flatten_string at 2.
  destruct (ElementTree.get e "name") as [n|]; [|now apply IH].
  destruct (Str.is_empty n); [now apply IH|].
  cbn [app] in H. injection H as -> <- Hl.
  now rewrite older_strings_none.
Qed.

Lemma older_flatten_file st rel c root name text :
  ElementTree.parse c = Some root ->
  fb_named_strings root = [(name, text)] ->
  FbTranslator.Unpacker.flatten_file st (Unpacker.mk_scanned rel true (Some c))
  = FbTranslator.Ok
      (FbTranslator.Unpacker.mk_state
         (FbTranslator.Unpacker.children st ++ [fb_child "" (name, text)])
         (Dict.set name
                   (match Dict.get name (FbTranslator.Unpacker.st_entries st) with
                    | Some paths => paths
                    | None => []
                    end ++ [rel])
                   (FbTranslator.Unpacker.st_entries st))).
Proof.
  intros Hparse Hnamed. unfold FbTranslator.Unpacker.flatten_file.
  cbn [Unpacker.is_file Unpacker.content Unpacker.relative_path negb].
  rewrite Hparse. f_equal. now apply older_strings_one.
Qed.

(** The older variant on two files that give the same name: both texts
    are written, both paths recorded, and nothing but the three
    progress lines is logged. *)
Lemma older_flatten_two_files
      (older : FbTranslator.Unpacker.t) (older_write : string -> bool)
      rel1 rel2 c1 c2 root1 root2 name t1 t2 out :
  ElementTree.parse c1 = Some root1 ->
  ElementTree.parse c2 = Some root2 ->
  fb_named_strings root1 = [(name, t1)] ->
  fb_named_strings root2 = [(name, t2)] ->
  FbTranslator.Unpacker.out_xml older = Some out ->
  older_write (PosixPath.str out) = true ->
  (forall mapf, FbTranslator.Unpacker.map_file older = Some mapf ->
                older_write (PosixPath.str mapf) = true) ->
  let o := FbTranslator.Unpacker.flatten
             older true
             [Unpacker.mk_scanned rel1 true (Some c1);
              Unpacker.mk_scanned rel2 true (Some c2)] older_write in
  FbTranslator.Unpacker.ok o = true
  /\ FbTranslator.Unpacker.out_log o
     = [FbTranslator.InfoCollected;
        FbTranslator.InfoFlattened (PosixPath.str out);
        FbTranslator.InfoMapGenerated
          (option_map PosixPath.str (FbTranslator.Unpacker.map_file older))]
  /\ In (PosixPath.str out,
         FbTranslator.Unpacker.write_tree
           (ElementTree.Element "resources" [] (nl ++ "  ")
              [fb_child (nl ++ "    ") (name, t1);
               fb_child (nl ++ "    ") (name, t2)], nl))
        (FbTranslator.Unpacker.written o)
  /\ Dict.get name (FbTranslator.Unpacker.entries (FbTranslator.Unpacker.self' o))
     = Some (match Dict.get name (FbTranslator.Unpacker.entries older) with
             | Some paths => paths
             | None => []
             end ++ [rel1; rel2]).
Proof.
  intros Hp1 Hp2 Hn1 Hn2 Hout Hw Hmap o. unfold o, FbTranslator.Unpacker.flatten.
  cbn [negb FbTranslator.Unpacker.flatten_files].
  rewrite (older_flatten_file _ rel1 c1 root1 name t1 Hp1 Hn1).
  rewrite (older_flatten_file _ rel2 c2 root2 name t2 Hp2 Hn2).
  cbn [FbTranslator.Unpacker.children FbTranslator.Unpacker.st_entries app negb].
  rewrite get_set_eq, Hout, Hw. cbn [negb].
  assert (Hentries : forall e : Dict.t (list string),
             Dict.get name
                      (Dict.set name
                                ((match Dict.get name e with
                                  | Some paths => paths
                                  | None => []
                                  end ++ [rel1]) ++ [rel2])
                                (Dict.set name
                                          (match Dict.get name e with
                                           | Some paths => paths
                                           | None => []
                                           end ++ [rel1]) e))
             = Some (match Dict.get name e with
                     | Some paths => paths
                     | None => []
                     end ++ [rel1; rel2])).
  { intros e. rewrite get_set_eq, <- app_assoc. reflexivity. }
  destruct (FbTranslator.Unpacker.map_file older) as [mapf|] eqn:Emap.
  - rewrite (Hmap mapf eq_refl).
    cbn [FbTranslator.Unpacker.ok FbTranslator.Unpacker.out_log
         FbTranslator.Unpacker.written FbTranslator.Unpacker.self'
         FbTranslator.Unpacker.entries FbTranslator.Unpacker.with_entries
         option_map].
    split; [reflexivity|]. split; [reflexivity|]. split; [now left|apply Hentries].
  - cbn [FbTranslator.Unpacker.ok FbTranslator.Unpacker.out_log
         FbTranslator.Unpacker.written FbTranslator.Unpacker.self'
         FbTranslator.Unpacker.entries FbTranslator.Unpacker.with_entries
         option_map].
    split; [reflexivity|]. split; [reflexivity|]. split; [now left|apply Hentries].
Qed.

(** C6, amended.  In [auto_translator.py], for a flatten input of
    exactly two files that both define [name], with different texts,
    and that do not disagree on any other name: the pass prints one
    conflict warning, which names the entry and both origin paths (the
    code keeps no counter of conflicts: the count is the number of
    these warnings, 1); the ledger, that is the entries collected from
    the scan and written to the ledger file, holds the text of the file
    scanned second (the policy is last write wins) and not the other
    one, and the provenance map records the second path.  The older
    variant [fbtranslator.py] has no duplicate policy: on two files that
    each give [name] once it logs its three progress lines and no
    warning, writes both texts to the ledger, as two elements of the
    same name, and records both paths under the name. *)
Theorem C6_duplicate_detection self ex can_write rel1 rel2 c1 c2 name t1 t2 :
  let scan := [Unpacker.mk_scanned rel1 true (Some c1);
               Unpacker.mk_scanned rel2 true (Some c2)] in
  let r := Unpacker.flatten self ex scan can_write in
  Unpacker.ok r = true ->
  Dict.get name (decode c1) = Some t1 ->
  Dict.get name (decode c2) = Some t2 ->
  t1 <> t2 ->
  (forall n a b, Dict.get n (decode c1) = Some a ->
                 Dict.get n (decode c2) = Some b -> a <> b -> n = name) ->
  conflicts (Unpacker.out_log r) = [WarnDuplicate name rel2 rel1]
  /\ List.length (conflicts (Unpacker.out_log r)) = 1
  /\ (exists dir out mapf,
        Unpacker.extract_dir self = Some dir
        /\ let ledger := Unpacker.all_entries (Unpacker.collect dir scan) in
           Unpacker.written r
           = [(out, XMLHandler.encode ledger);
              (mapf, Unpacker.map_file_text (Unpacker.map_data (Unpacker.self' r)))]
           /\ Dict.get name ledger = Some t2
           /\ Dict.get name ledger <> Some t1
           /\ Dict.get name (Unpacker.map_data (Unpacker.self' r)) = Some rel2)
  /\ (forall (older : FbTranslator.Unpacker.t) (older_write : string -> bool)
             (p1 p2 x1 x2 : string) (root1 root2 : ElementTree.element)
             (key u1 u2 : string) (older_out : PosixPath.t),
        ElementTree.parse x1 = Some root1 ->
        ElementTree.parse x2 = Some root2 ->
        fb_named_strings root1 = [(key, u1)] ->
        fb_named_strings root2 = [(key, u2)] ->
        FbTranslator.Unpacker.out_xml older = Some older_out ->
        older_write (PosixPath.str older_out) = true ->
        (forall mapf, FbTranslator.Unpacker.map_file older = Some mapf ->
                      older_write (PosixPath.str mapf) = true) ->
        let o := FbTranslator.Unpacker.flatten
                   older true
                   [Unpacker.mk_scanned p1 true (Some x1);
                    Unpacker.mk_scanned p2 true (Some x2)] older_write in
        FbTranslator.Unpacker.ok o = true
        /\ FbTranslator.Unpacker.out_log o
           = [FbTranslator.InfoCollected;
              FbTranslator.InfoFlattened (PosixPath.str older_out);
              FbTranslator.InfoMapGenerated
                (option_map PosixPath.str (FbTranslator.Unpacker.map_file older))]
        /\ In (PosixPath.str older_out,
               FbTranslator.Unpacker.write_tree
                 (ElementTree.Element "resources" [] (nl ++ "  ")
                    [fb_child (nl ++ "    ") (key, u1);
                     fb_child (nl ++ "    ") (key, u2)], nl))
              (FbTranslator.Unpacker.written o)
        /\ Dict.get key (FbTranslator.Unpacker.entries
                           (FbTranslator.Unpacker.self' o))
           = Some (match Dict.get key (FbTranslator.Unpacker.entries older) with
                   | Some paths => paths
                   | None => []
                   end ++ [p1; p2])).
Proof.
  intros scan r Hok H1 H2 Hdiff Honly.
  destruct (last_write_wins_two_files self ex can_write rel1 rel2 c1 c2 name t1 t2
              Hok H1 H2 Hdiff Honly) as (Hc & Hn & Hledger).
  fold scan r in Hc, Hn, Hledger.
  split; [exact Hc|]. split; [exact Hn|]. split; [exact Hledger|].
  intros older older_write p1 p2 x1 x2 root1 root2 key u1 u2 older_out.
  apply older_flatten_two_files.
Qed.

(** The amended statement on the sample tree, where both files define
    k1, for both variants. *)
Lemma C6_duplicate_detection_witness :
  conflicts (Unpacker.out_log
               (Unpacker.flatten Sample.unpacker true Sample.scan Sample.writable))
  = [WarnDuplicate "k1" "b/values-en/s2.xml" "a/values/s.xml"]
  /\ FbTranslator.Unpacker.out_log
       (FbTranslator.Unpacker.flatten
          OlderSample.unpacker true
          [Unpacker.mk_scanned "a/values/s.xml" true (Some Sample.file_a);
           Unpacker.mk_scanned "c/values/s.xml" true (Some Sample.file_a)]
          (fun _ => true))
     = [FbTranslator.InfoCollected; FbTranslator.InfoFlattened "en.xml";
        FbTranslator.InfoMapGenerated (Some "mapping"%string)].
Proof.
  destruct (C6_duplicate_detection Sample.unpacker true Sample.writable
              "a/values/s.xml" "b/values-en/s2.xml" Sample.file_a Sample.file_b
              "k1" "Hi" "Hello") as (Hc & _ & _ & Holder).
  - reflexivity.
  - reflexivity.
  - reflexivity.
  - discriminate.
  - intros n a b Ha _ _.
    change (decode Sample.file_a) with [("k1", "Hi")]%string in Ha.
    cbn [Dict.get] in Ha.
    destruct (String.eqb_spec n "k1"); [assumption|discriminate].
  - split; [exact Hc|].
    destruct (Holder OlderSample.unpacker (fun _ => true)
                     "a/values/s.xml"%string "c/values/s.xml"%string
                     Sample.file_a Sample.file_a
                     (ElementTree.Element "resources" [] (nl ++ "    ")
                        [fb_child nl ("k1", "Hi")%string])
                     (ElementTree.Element "resources" [] (nl ++ "    ")
                        [fb_child nl ("k1", "Hi")%string])
                     "k1"%string "Hi"%string "Hi"%string
                     (PosixPath.of_args ["en.xml"%string]))
      as (_ & Hlog & _).
    + vm_compute. reflexivity.
    + vm_compute. reflexivity.
    + reflexivity.
    + reflexivity.
    + reflexivity.
    + reflexivity.
    + reflexivity.
    + exact Hlog.
Defined.

(** C6 as stated fails in the older variant: on the sample tree its
    flatten logs the three progress lines and no warning, the ledger it
    writes holds both texts of k1, and the map both paths. *)
Lemma C6_counterexample :
  let o := FbTranslator.Unpacker.flatten OlderSample.unpacker true Sample.scan
                                         (fun _ => true) in
  let entries_of text :=
    match ElementTree.parse text with
    | Some root =>
        map (fun e => (ElementTree.get e "name", ElementTree.text e))
            (ElementTree.findall root "string")
    | None => []
    end in
  FbTranslator.Unpacker.ok o = true
  /\ FbTranslator.Unpacker.out_log o
     = [FbTranslator.InfoCollected; FbTranslator.InfoFlattened "en.xml";
        FbTranslator.InfoMapGenerated (Some "mapping"%string)]
  /\ map (fun f => (fst f, entries_of (snd f)))
         (firstn 1 (FbTranslator.Unpacker.written o))
     = [("en.xml", [(Some "k1", "Hi"); (Some "k1", "Hello"); (Some "k2", "Bye")])]%string
  /\ FbTranslator.Unpacker.entries (FbTranslator.Unpacker.self' o)
     = [("k1", ["a/values/s.xml"; "b/values-en/s2.xml"]);
        ("k2", ["b/values-en/s2.xml"])]%string.
Proof. vm_compute. repeat split. Qed.

End DuplicateFacts.

(* ===================================================================== *)
(** ** Reconstruction *)
(* ===================================================================== *)

Section GenerateFacts.
Import AutoTranslator.

Lemma in_set {V : Type} (d : Dict.t V) k v k' v' :
  In (k', v') (Dict.set k v d) -> (k' = k /\ v' = v) \/ In (k', v') d.
Proof.
  induction d as [|[k0 v0] d IH]; simpl.
  - intros [[= <- <-]|[]]. now left.
  - destruct (String.eqb_spec k k0) as [->|Hne]; simpl.
    + intros [[= <- <-]|H]; [now left|right; now right].
    + intros [H|H]; [right; now left|].
      destruct (IH H) as [?|?]; [now left|right; now right].
Qed.

(** The group a step writes to. *)
Lemma generate_entry_translated self dir st name path text :
  Dict.get name (Packer.translated_entries self) = Some text ->
  let key := target_file_key self dir path in
  let group := match Dict.get key (Packer.file_to_entries st) with
               | Some g => g
               | None => Dict.empty
               end in
  Packer.file_to_entries (Packer.generate_entry self dir st (name, path))
  = Dict.set key (Dict.set name text group) (Packer.file_to_entries st)
  /\ Packer.missing_translations (Packer.generate_entry self dir st (name, path))
     = Packer.missing_translations st
  /\ Packer.processed_entries (Packer.generate_entry self dir st (name, path))
     = S (Packer.processed_entries st).
Proof.
  intros Ht. unfold Packer.generate_entry, target_file_key.
  destruct (Packer.target_relative_path _ path) as [target found].
  rewrite Ht. cbn. repeat split.
Qed.

(** A name without translation is counted and leaves the groups alone. *)
Lemma generate_entry_missing self dir st name path :
  Dict.get name (Packer.translated_entries self) = None ->
  Packer.file_to_entries (Packer.generate_entry self dir st (name, path))
  = Packer.file_to_entries st
  /\ Packer.missing_translations (Packer.generate_entry self dir st (name, path))
     = S (Packer.missing_translations st)
  /\ Packer.processed_entries (Packer.generate_entry self dir st (name, path))
     = Packer.processed_entries st.
Proof.
  intros Ht. unfold Packer.generate_entry.
  destruct (Packer.target_relative_path _ path) as [target found].
  rewrite Ht. cbn. repeat split.
Qed.

Lemma generate_entry_distinct self dir st entry :
  groups_distinct (Packer.file_to_entries st) ->
  groups_distinct (Packer.file_to_entries (Packer.generate_entry self dir st entry)).
Proof.
  intros [Hk Hg]. destruct entry as [name path].
  destruct (Dict.get name (Packer.translated_entries self)) as [text|] eqn:Ht.
  - destruct (generate_entry_translated self dir st name path text Ht) as (-> & _).
    split; [now apply keys_set_nodup|].
    intros file g Hin. apply in_set in Hin as [[_ ->]|Hin]; [|now apply (Hg file)].
    apply keys_set_nodup.
    destruct (Dict.get _ (Packer.file_to_entries st)) as [g0|] eqn:E; [|constructor].
    apply (Hg _ _ (get_some_in _ _ _ E)).
  - destruct (generate_entry_missing self dir st name path Ht) as (-> & _).
    now split.
Qed.

Lemma generate_entry_sound self dir st entry :
  groups_sound (Packer.translated_entries self) (Packer.file_to_entries st) ->
  groups_sound (Packer.translated_entries self)
               (Packer.file_to_entries (Packer.generate_entry self dir st entry)).
Proof.
  intros Hs. destruct entry as [name path].
  destruct (Dict.get name (Packer.translated_entries self)) as [text|] eqn:Ht.
  - destruct (generate_entry_translated self dir st name path text Ht) as (-> & _).
    intros file g n t Hin Hget.
    apply in_set in Hin as [[_ ->]|Hin]; [|now apply (Hs file g)].
    rewrite get_set in Hget.
    destruct (String.eqb_spec n name) as [->|Hne]; [congruence|].
    destruct (Dict.get _ (Packer.file_to_entries st)) as [g0|] eqn:E;
      [|discriminate].
    apply (Hs _ g0 n t (get_some_in _ _ _ E) Hget).
  - destruct (generate_entry_missing self dir st name path Ht) as (-> & _).
    exact Hs.
Qed.

(** The counters after the grouping loop. *)
Lemma group_counts self dir l st :
  let st' := fold_left (Packer.generate_entry self dir) l st in
  Packer.missing_translations st'
  = Packer.missing_translations st
    + List.length
        (filter (fun e => negb (Dict.mem (fst e) (Packer.translated_entries self))) l)
  /\ Packer.missing_translations st' + Packer.processed_entries st'
     = Packer.missing_translations st + Packer.processed_entries st + List.length l.
Proof.
  revert st. induction l as [|[name path] l IH]; intros st; cbn zeta.
  - simpl. lia.
  - cbn [fold_left filter fst List.length].
    destruct (IH (Packer.generate_entry self dir st (name, path))) as [Hm Hp].
    destruct (Dict.get name (Packer.translated_entries self)) as [text|] eqn:Ht.
    + assert (Hmem : Dict.mem name (Packer.translated_entries self) = true)
        by (unfold Dict.mem; now rewrite Ht).
      destruct (generate_entry_translated self dir st name path text Ht)
        as (_ & Em & Ep).
      rewrite Em in Hm, Hp. rewrite Ep in Hp. rewrite Hmem. cbn [negb]. lia.
    + assert (Hmem : Dict.mem name (Packer.translated_entries self) = false)
        by (unfold Dict.mem; now rewrite Ht).
      destruct (generate_entry_missing self dir st name path Ht)
        as (_ & Em & Ep).
      rewrite Em in Hm, Hp. rewrite Ep in Hp. rewrite Hmem.
      cbn [negb List.length]. lia.
Qed.

(** An entry already grouped stays in its group while other names are
    processed. *)
Lemma group_preserved self dir l st key g name text :
  Dict.get key (Packer.file_to_entries st) = Some g ->
  Dict.get name g = Some text ->
  ~ In name (Dict.keys l) ->
  exists g',
    Dict.get key (Packer.file_to_entries (fold_left (Packer.generate_entry self dir) l st))
    = Some g'
    /\ Dict.get name g' = Some text.
Proof.
  revert st g. induction l as [|[n p] l IH]; intros st g Hk Hn Hnot.
  - now exists g.
  - cbn [fold_left]. cbn [Dict.keys map fst] in Hnot.
    assert (Hne : n <> name) by (intros ->; apply Hnot; now left).
    assert (Hrest : ~ In name (Dict.keys l)) by (intros H; apply Hnot; now right).
    destruct (Dict.get n (Packer.translated_entries self)) as [t|] eqn:Ht.
    + destruct (generate_entry_translated self dir st n p t Ht) as (Hf & _).
      cbv zeta in Hf.
      destruct (String.eqb_spec key (target_file_key self dir p)) as [->|Hkey].
      * rewrite Hk in Hf.
        apply (IH _ (Dict.set n t g)); [|now rewrite get_set_neq|exact Hrest].
        rewrite Hf. apply get_set_eq.
      * apply (IH _ g); [|exact Hn|exact Hrest].
        rewrite Hf, get_set_neq; [exact Hk|congruence].
    + destruct (generate_entry_missing self dir st n p Ht) as (Hf & _).
      apply (IH _ g); [now rewrite Hf|exact Hn|exact Hrest].
Qed.

(** Every translated entry of the map ends in the group of its rewritten
    path. *)
Lemma group_merged self dir l st name path text :
  NoDup (Dict.keys l) -> In (name, path) l ->
  Dict.get name (Packer.translated_entries self) = Some text ->
  exists g,
    Dict.get (target_file_key self dir path)
             (Packer.file_to_entries (fold_left (Packer.generate_entry self dir) l st))
    = Some g
    /\ Dict.get name g = Some text.
Proof.
  revert st. induction l as [|[n p] l IH]; intros st Hnd Hin Ht; [destruct Hin|].
  inversion Hnd as [|? ? Hnotin Hnd']; subst. cbn [fold_left].
  destruct Hin as [[= -> ->]|Hin]; [|now apply IH].
  destruct (generate_entry_translated self dir st name path text Ht) as (Hf & _).
  cbv zeta in Hf.
  eapply group_preserved; [|apply get_set_eq|exact Hnotin].
  rewrite Hf. apply get_set_eq.
Qed.

(** The writing loop: one attempt per group, in order. *)
Lemma write_files_spec can_write (files : Dict.t (Dict.t string)) ws :
  let ws' := fold_left (Packer.write_file can_write) files ws in
  Packer.written ws'
  = Packer.written ws
      ++ map (fun f => (fst f, XMLHandler.encode (snd f)))
             (filter (fun f => can_write (fst f)) files)
  /\ Packer.file_write_errors ws'
     = Packer.file_write_errors ws + List.length (refused can_write files).
Proof.
  revert ws. induction files as [|[path g] files IH]; intros ws; cbn zeta.
  - simpl. rewrite app_nil_r. split; [reflexivity|lia].
  - cbn [fold_left]. destruct (IH (Packer.write_file can_write ws (path, g))) as [Hw He].
    rewrite Hw, He. unfold refused, Dict.items. cbn [filter fst snd].
    unfold Packer.write_file, XMLHandler.write_entries.
    destruct (can_write path); cbn [negb map List.length fst snd
                                    Packer.written Packer.file_write_errors].
    + rewrite <- app_assoc. split; [reflexivity|lia].
    + split; [reflexivity|lia].
Qed.

Lemma read_map_line_nodup acc raw :
  NoDup (Dict.keys (fst (fst acc))) ->
  NoDup (Dict.keys (fst (fst (Unpacker.read_map_line acc raw)))).
Proof.
  destruct acc as [[m lg] i]. cbn [fst]. intros H. unfold Unpacker.read_map_line.
  destruct (Str.is_empty (Str.strip raw) || negb (Str.contains_char ":" (Str.strip raw)));
    [exact H|].
  destruct (Str.split_first ":" (Str.strip raw)) as [name xml_path].
  cbn [fst]. now apply keys_set_nodup.
Qed.

(** The map a [Packer] reads lists every name once. *)
Lemma packer_read_map_nodup self fs :
  NoDup (Dict.keys (Packer.map_data (snd (fst (Packer.read_map_file self fs))))).
Proof.
  unfold Packer.read_map_file, Unpacker.read_map_file.
  cbn [Unpacker.map_file].
  destruct (Packer.map_file self) as [mapf|]; [|destruct self; constructor].
  destruct (Str.is_empty mapf); [destruct self; constructor|].
  destruct (fs mapf) as [text|]; [|destruct self; constructor].
  pose proof (fold_left_invariant
                (fun acc => NoDup (Dict.keys (fst (fst acc))))
                Unpacker.read_map_line (Unpacker.file_lines text)
                (Dict.empty, [InfoReadingMap mapf], 0)) as H.
  destruct (fold_left Unpacker.read_map_line _ _) as [[m lg] i].
  cbn [fst snd]. destruct self. cbn. apply H; [constructor|].
  intros a x. apply read_map_line_nodup.
Qed.

Lemma read_translated_keeps_map self fs :
  Packer.map_data (snd (fst (Packer.read_translated_xml self fs)))
  = Packer.map_data self.
Proof.
  unfold Packer.read_translated_xml.
  destruct (Packer.in_xml self) as [x|]; [|reflexivity].
  destruct (Str.is_empty x); [reflexivity|].
  destruct (fs x) as [text|]; [|reflexivity].
  destruct (XMLHandler.read_entries x (Some text)) as [entries read_log].
  now destruct self.
Qed.

(** What [generate] does once its inputs are ready. *)
Lemma generate_ready self fs mkdir_ok can_write :
  inputs_ready self fs mkdir_ok = true ->
  let r := Packer.generate self fs mkdir_ok can_write in
  exists dir,
    Packer.target_dir (Packer.self' r) = Some dir
    /\ NoDup (Dict.keys (Packer.map_data (Packer.self' r)))
    /\ Packer.groups r = Packer.file_to_entries (Packer.group_entries (Packer.self' r) dir)
    /\ Packer.missing r
       = Packer.missing_translations (Packer.group_entries (Packer.self' r) dir)
    /\ Packer.processed r
       = Packer.processed_entries (Packer.group_entries (Packer.self' r) dir)
    /\ Packer.write_errors r
       = Packer.file_write_errors (Packer.write_files can_write (Packer.groups r))
    /\ Packer.files_written r
       = Packer.written (Packer.write_files can_write (Packer.groups r))
    /\ Packer.outcome r = Some (Nat.eqb (Packer.write_errors r) 0)
    /\ (0 < Packer.missing r ->
        In (WarnMissingTranslations (Packer.missing r)) (Packer.out_log r)).
Proof.
  unfold inputs_ready, Packer.generate.
  destruct (specified (Packer.in_xml self)); [|discriminate].
  destruct (specified (Packer.map_file self)); [|discriminate].
  cbn [negb orb andb].
  pose proof (packer_read_map_nodup self fs) as Hnd.
  destruct (Packer.read_map_file self fs) as [[map_ok self1] log1].
  cbn [fst snd] in Hnd.
  destruct map_ok; [|discriminate]. cbn [negb andb].
  pose proof (read_translated_keeps_map self1 fs) as Hkeep.
  destruct (Packer.read_translated_xml self1 fs) as [[xml_ok self2] log2].
  cbn [fst snd] in Hkeep. rewrite <- Hkeep in Hnd.
  destruct xml_ok; [|discriminate]. cbn [negb andb].
  destruct (Dict.is_empty (Packer.map_data self2)); [discriminate|].
  cbn [negb andb]. unfold specified.
  destruct (Packer.out_zip self2) as [zip|]; [|discriminate].
  destruct (Str.is_empty zip); [discriminate|]. cbn [negb andb].
  intros ->. cbn [negb]. cbv zeta.
  set (dir := PosixPath.div (PosixPath.parent (PosixPath.of_args [zip])) "translated_temp").
  set (self3 := Packer.with_target_dir self2 dir).
  set (st := Packer.group_entries self3 dir).
  set (ws := Packer.write_files can_write (Packer.file_to_entries st)).
  exists dir.
  assert (Hnd3 : NoDup (Dict.keys (Packer.map_data self3)))
    by (unfold self3; now destruct self2).
  destruct (Nat.ltb 0 (Packer.file_write_errors ws)) eqn:E;
    cbn [Packer.self' Packer.groups Packer.missing Packer.processed
         Packer.write_errors Packer.files_written Packer.outcome Packer.out_log];
    fold ws; (repeat split; try reflexivity; try assumption).
  - apply Nat.ltb_lt in E. destruct (Packer.file_write_errors ws); [lia|reflexivity].
  - intros Hpos. apply Nat.ltb_lt in Hpos. rewrite Hpos.
    rewrite !in_app_iff. left. right. right. right. left. now left.
  - apply Nat.ltb_ge in E. now replace (Packer.file_write_errors ws) with 0 by lia.
  - intros Hpos. apply Nat.ltb_lt in Hpos. rewrite Hpos.
    rewrite !in_app_iff. left. right. right. right. left. now left.
Qed.

(** What [generate] does when an input check stops it. *)
Lemma generate_not_ready self fs mkdir_ok can_write :
  inputs_ready self fs mkdir_ok = false ->
  let r := Packer.generate self fs mkdir_ok can_write in
  Packer.outcome r <> Some true
  /\ Packer.groups r = Dict.empty
  /\ Packer.missing r = 0
  /\ Packer.write_errors r = 0
  /\ Packer.files_written r = [].
Proof.
  unfold inputs_ready, Packer.generate.
  destruct (specified (Packer.in_xml self)); [|now repeat split].
  destruct (specified (Packer.map_file self)); [|now repeat split].
  cbn [negb orb andb].
  destruct (Packer.read_map_file self fs) as [[map_ok self1] log1].
  destruct map_ok; [|now repeat split]. cbn [negb andb].
  destruct (Packer.read_translated_xml self1 fs) as [[xml_ok self2] log2].
  destruct xml_ok; [|now repeat split]. cbn [negb andb].
  destruct (Dict.is_empty (Packer.map_data self2)); [now repeat split|].
  cbn [negb andb]. unfold specified.
  destruct (Packer.out_zip self2) as [zip|]; [|now repeat split].
  destruct (Str.is_empty zip); [now repeat split|]. cbn [negb andb].
  intros ->. now repeat split.
Qed.

End GenerateFacts.

(* ===================================================================== *)
(** ** The older variant: a name without translation *)
(* ===================================================================== *)

Section OlderMissing.
Import FbTranslator.

(** A step that succeeds has found the entry in the translated ledger. *)
Lemma generate_path_ok_found self mkdir_ok can_write root key fs path fs' :
  Packer.generate_path self mkdir_ok can_write root key fs path = Ok fs' ->
  ElementTree.find_string root key <> None.
Proof.
  unfold Packer.generate_path. intros H Hnone. rewrite Hnone in H.
  destruct (Packer.modify_folder_name self path); [|discriminate].
  destruct (negb (mkdir_ok _)); [discriminate|].
  destruct (fs _) as [text|].
  - destruct (ElementTree.parse text); [|discriminate].
    destruct (Str.contains_char "'" key); discriminate.
  - destruct (Str.contains_char "'" key); discriminate.
Qed.

Lemma run_steps_missing self mkdir_ok can_write root key path l : forall fs,
  In (key, path) l -> ElementTree.find_string root key = None ->
  fst (Packer.run_steps self mkdir_ok can_write root fs l) = false.
Proof.
  induction l as [|[k p] l IH]; intros fs Hin Hnone; [destruct Hin|].
  cbn [Packer.run_steps].
  destruct (Packer.generate_path self mkdir_ok can_write root k fs p) as [fs'|e] eqn:E;
    [|reflexivity].
  destruct Hin as [[= -> ->]|Hin]; [|now apply IH].
  now apply generate_path_ok_found in E.
Qed.

Lemma load_map_keeps_in_xml self fs :
  Packer.in_xml (snd (Packer.load_map self fs)) = Packer.in_xml self.
Proof.
  unfold Packer.load_map. destruct (Packer.map_file self) as [mapf|]; [|reflexivity].
  destruct (fs (PosixPath.str mapf)) as [text|]; [|reflexivity].
  now destruct (Packer.load_lines _ _).
Qed.

(** A loaded key that the translated ledger lacks makes [generate]
    return [False]. *)
Lemma older_generate_missing
        (self : Packer.t) (fs : string -> option string)
        (mkdir_ok can_write : string -> bool)
        (key : string) (paths : list PosixPath.t) (path : PosixPath.t)
        (text : string) (root : ElementTree.element) :
  In (key, paths) (Dict.items (Packer.entries (snd (Packer.load_map self fs)))) ->
  In path paths ->
  fs (PosixPath.str (Packer.in_xml self)) = Some text ->
  ElementTree.parse text = Some root ->
  ElementTree.find_string root key = None ->
  fst (fst (Packer.generate self fs mkdir_ok can_write)) = false.
Proof.
  intros Hin Hpath Hfs Hparse Hnone. unfold Packer.generate.
  pose proof (load_map_keeps_in_xml self fs) as Hxml.
  destruct (Packer.load_map self fs) as [loaded self1]. cbn [snd] in Hin, Hxml.
  destruct loaded; [|reflexivity]. cbn [negb].
  rewrite Hxml, Hfs, Hparse.
  pose proof (run_steps_missing self1 mkdir_ok can_write root key path
                (Packer.steps (Packer.entries self1)) fs) as H.
  destruct (Packer.run_steps self1 mkdir_ok can_write root fs _) as [ok fs'].
  cbn [fst] in *. apply H; [|exact Hnone].
  unfold Packer.steps. apply in_flat_map. exists (key, paths).
  split; [exact Hin|]. cbn [fst snd]. apply in_map_iff. now exists path.
Qed.

End OlderMissing.

Section GenerateTheorems.
Import AutoTranslator.

Lemma group_entries_distinct self dir :
  groups_distinct (Packer.file_to_entries (Packer.group_entries self dir)).
Proof.
  unfold Packer.group_entries.
  apply (fold_left_invariant
           (fun st => groups_distinct (Packer.file_to_entries st))).
  - split; [constructor|intros ? ? []].
  - intros a x. apply generate_entry_distinct.
Qed.

Lemma group_entries_sound self dir :
  groups_sound (Packer.translated_entries self)
               (Packer.file_to_entries (Packer.group_entries self dir)).
Proof.
  unfold Packer.group_entries.
  apply (fold_left_invariant
           (fun st => groups_sound (Packer.translated_entries self)
                                   (Packer.file_to_entries st))).
  - intros ? ? ? ? [].
  - intros a x. apply generate_entry_sound.
Qed.

Lemma ready_or_not self fs mkdir_ok :
  {inputs_ready self fs mkdir_ok = true} + {inputs_ready self fs mkdir_ok = false}.
Proof. destruct (inputs_ready self fs mkdir_ok); auto. Qed.

(** The groups of any run and the files written from them. *)
Lemma generate_groups self fs mkdir_ok can_write :
  let r := Packer.generate self fs mkdir_ok can_write in
  groups_distinct (Packer.groups r)
  /\ groups_sound (Packer.translated_entries (Packer.self' r)) (Packer.groups r)
  /\ Packer.files_written r
     = map (fun f => (fst f, XMLHandler.encode (snd f)))
           (filter (fun f => can_write (fst f)) (Packer.groups r))
  /\ Packer.write_errors r = List.length (refused can_write (Packer.groups r)).
Proof.
  intros r. destruct (ready_or_not self fs mkdir_ok) as [Hr|Hr].
  - destruct (generate_ready self fs mkdir_ok can_write Hr)
      as (dir & _ & _ & Hg & _ & _ & He & Hw & _).
    fold r in Hg, He, Hw.
    destruct (write_files_spec can_write (Packer.groups r)
                               (Packer.mk_write_state [] 0 [])) as [Hws Hes].
    split; [rewrite Hg; apply group_entries_distinct|].
    split; [rewrite Hg; apply group_entries_sound|].
    split; [rewrite Hw; exact Hws|rewrite He; exact Hes].
  - destruct (generate_not_ready self fs mkdir_ok can_write Hr)
      as (_ & Hg & _ & He & Hw).
    fold r in Hg, He, Hw. rewrite Hg, He, Hw.
    repeat split; try constructor; intros ? ? ? ? [] || intros ? ? [].
Qed.

Lemma nodup_keys_filter {V : Type} (p : string * V -> bool) (l : Dict.t V) :
  NoDup (Dict.keys l) -> NoDup (Dict.keys (filter p l)).
Proof.
  induction l as [|[k v] l IH]; intros H; simpl; [constructor|].
  inversion H as [|? ? Hnotin Hnd]; subst.
  destruct (p (k, v)); [|now apply IH].
  cbn [Dict.keys map fst]. constructor; [|now apply IH].
  intros Hin. apply Hnotin. unfold Dict.keys in *.
  apply in_map_iff in Hin as ([k' v'] & Hk & Hin'). cbn [fst] in Hk. subst.
  apply filter_In in Hin' as [Hin' _]. change k with (fst (k, v')).
  now apply in_map.
Qed.

(** The result of a run whose inputs are ready. *)
Lemma generate_ready_result self fs mkdir_ok can_write :
  inputs_ready self fs mkdir_ok = true ->
  let r := Packer.generate self fs mkdir_ok can_write in
  Packer.write_errors r = List.length (refused can_write (Packer.groups r))
  /\ (Packer.outcome r = Some false <-> 0 < Packer.write_errors r)
  /\ (Packer.outcome r = Some true <-> Packer.write_errors r = 0)
  /\ Packer.missing r = List.length (untranslated (Packer.self' r))
  /\ (0 < Packer.missing r ->
      In (WarnMissingTranslations (Packer.missing r)) (Packer.out_log r)).
Proof.
  intros Hr r.
  destruct (generate_ready self fs mkdir_ok can_write Hr)
    as (dir & _ & _ & _ & Hm & _ & _ & _ & Ho & Hlog).
  destruct (generate_groups self fs mkdir_ok can_write) as (_ & _ & _ & He).
  fold r in Hm, Ho, Hlog, He.
  split; [exact He|]. rewrite Ho.
  split; [|split; [|split; [|exact Hlog]]].
  - destruct (Packer.write_errors r); cbn; split; intros H;
      try discriminate; try lia; reflexivity.
  - destruct (Packer.write_errors r); cbn; split; intros H;
      try discriminate; try lia; reflexivity.
  - rewrite Hm. unfold Packer.group_entries.
    destruct (group_counts (Packer.self' r) dir
                           (Dict.items (Packer.map_data (Packer.self' r)))
                           (Packer.mk_state Dict.empty 0 0 [])) as [Hc _].
    rewrite Hc. reflexivity.
Qed.

(** The checks and the creation of the scratch directory together make
    the inputs ready. *)
Lemma inputs_ready_checked self fs mkdir_ok :
  inputs_ready self fs mkdir_ok = inputs_checked self fs && mkdir_ok.
Proof.
  unfold inputs_ready, inputs_checked.
  destruct (specified (Packer.in_xml self)); [|reflexivity].
  destruct (specified (Packer.map_file self)); [|reflexivity].
  cbn [andb].
  destruct (Packer.read_map_file self fs) as [[map_ok self1] log1].
  destruct map_ok; [|reflexivity]. cbn [andb].
  destruct (Packer.read_translated_xml self1 fs) as [[xml_ok self2] log2].
  destruct xml_ok; [|reflexivity]. cbn [andb].
  reflexivity.
Qed.

(** A run stopped by one of the checks returns [False] and has written
    nothing. *)
Lemma generate_check_failed self fs mkdir_ok can_write :
  inputs_checked self fs = false ->
  let r := Packer.generate self fs mkdir_ok can_write in
  Packer.outcome r = Some false
  /\ Packer.write_errors r = 0
  /\ Packer.files_written r = [].
Proof.
  unfold inputs_checked, Packer.generate.
  destruct (specified (Packer.in_xml self)); [|now repeat split].
  destruct (specified (Packer.map_file self)); [|now repeat split].
  cbn [negb orb andb].
  destruct (Packer.read_map_file self fs) as [[map_ok self1] log1].
  destruct map_ok; [|now repeat split]. cbn [negb andb].
  destruct (Packer.read_translated_xml self1 fs) as [[xml_ok self2] log2].
  destruct xml_ok; [|now repeat split]. cbn [negb andb].
  destruct (Dict.is_empty (Packer.map_data self2)); [now repeat split|].
  cbn [negb andb]. unfold specified.
  destruct (Packer.out_zip self2) as [zip|]; [|now repeat split].
  destruct (Str.is_empty zip); [now repeat split|]. discriminate.
Qed.

(** A run whose checks pass and whose scratch directory cannot be
    created returns nothing: the exception leaves [generate]. *)
Lemma generate_mkdir_failed self fs can_write :
  inputs_checked self fs = true ->
  let r := Packer.generate self fs false can_write in
  Packer.outcome r = None
  /\ Packer.write_errors r = 0
  /\ Packer.files_written r = [].
Proof.
  unfold inputs_checked, Packer.generate.
  destruct (specified (Packer.in_xml self)); [|discriminate].
  destruct (specified (Packer.map_file self)); [|discriminate].
  cbn [negb orb andb].
  destruct (Packer.read_map_file self fs) as [[map_ok self1] log1].
  destruct map_ok; [|discriminate]. cbn [negb andb].
  destruct (Packer.read_translated_xml self1 fs) as [[xml_ok self2] log2].
  destruct xml_ok; [|discriminate]. cbn [negb andb].
  destruct (Dict.is_empty (Packer.map_data self2)); [discriminate|].
  cbn [negb andb]. unfold specified.
  destruct (Packer.out_zip self2) as [zip|]; [|discriminate].
  destruct (Str.is_empty zip); [discriminate|]. intros _. now repeat split.
Qed.

(** C7, amended.  Once its checks have passed and the scratch directory
    is there, reconstruction returns failure exactly when at least one
    per-target-file write fails, the failed writes being the groups
    whose path the file system refuses; the number of missing
    translations has no part in the result, and a positive number is
    reported by one warning that carries the count.  When one of the
    checks fails (a path not given, the map file or the translated
    ledger not read, an empty map), reconstruction returns failure and
    has attempted no write.  When the checks pass and the scratch
    directory cannot be created, the exception leaves [generate]: no
    result is returned, and no write has been attempted. *)
Theorem C7_reconstruction_result self fs mkdir_ok can_write :
  let r := Packer.generate self fs mkdir_ok can_write in
  (inputs_checked self fs = true -> mkdir_ok = true ->
   Packer.write_errors r = List.length (refused can_write (Packer.groups r))
   /\ (Packer.outcome r = Some false <-> 0 < Packer.write_errors r)
   /\ (Packer.outcome r = Some true <-> Packer.write_errors r = 0)
   /\ Packer.missing r = List.length (untranslated (Packer.self' r))
   /\ (0 < Packer.missing r ->
       In (WarnMissingTranslations (Packer.missing r)) (Packer.out_log r)))
  /\ (inputs_checked self fs = false ->
      Packer.outcome r = Some false
      /\ Packer.write_errors r = 0
      /\ Packer.files_written r = [])
  /\ (inputs_checked self fs = true -> mkdir_ok = false ->
      Packer.outcome r = None
      /\ Packer.write_errors r = 0
      /\ Packer.files_written r = []).
Proof.
  intros r. split; [|split].
  - intros Hc Hm. apply generate_ready_result.
    now rewrite inputs_ready_checked, Hc, Hm.
  - intros Hc. now apply generate_check_failed.
  - intros Hc Hm. unfold r. rewrite Hm. now apply generate_mkdir_failed.
Qed.

(** The amended statement on the sample inputs, whose checks pass. *)
Lemma C7_reconstruction_result_witness :
  let r := Packer.generate Sample.packer Sample.fs true Sample.writable in
  Packer.outcome r = Some true <-> Packer.write_errors r = 0.
Proof.
  destruct (C7_reconstruction_result Sample.packer Sample.fs true Sample.writable)
    as [H _].
  destruct (H eq_refl eq_refl) as (_ & _ & Hok & _). exact Hok.
Defined.

(** C7 as stated fails: with an empty map file reconstruction returns
    failure although no write failed. *)
Lemma C7_counterexample :
  let r := Packer.generate Sample.packer_empty_map Sample.fs true Sample.writable in
  (Packer.outcome r = Some false /\ Packer.write_errors r = 0)
  /\ ~ (Packer.outcome r = Some false <-> 0 < Packer.write_errors r).
Proof.
  intros r. split; [split; reflexivity|].
  intros [H _].
  assert (Hlt : 0 < Packer.write_errors r) by (apply H; reflexivity).
  vm_compute in Hlt. lia.
Qed.




(** C5.  The claim fails on both variants, by a slip each time.  In
    the older variant the test [if not elem] takes an element without
    children for a missing one, so a record that is there twice (or a
    second run over the files of the first) appends a second [string]
    element of the same name: the file written holds k1 twice.  In
    [auto_translator.py] the group holds k1 once, but its text is
    written as it is, so a text with markup makes the written file hold
    two [string] elements named k1. *)
Lemma C5_name_written_twice :
  let older := FbTranslator.Packer.generate Sample.fb_packer OlderSample.fs
                                             (fun _ => true) (fun _ => true) in
  let r := Packer.generate Sample.packer OlderSample.markup_fs true
                           Sample.writable in
  let names text :=
    match ElementTree.parse text with
    | Some root =>
        map (fun e => ElementTree.get e "name") (ElementTree.findall root "string")
    | None => []
    end in
  fst (fst older) = true
  /\ option_map names (snd older "fr/res/values-fr/strings.xml"%string)
     = Some [Some "k1"; Some "k1"]%string
  /\ Packer.outcome r = Some true
  /\ map (fun f => (fst f, Dict.keys (snd f))) (Packer.groups r)
     = [("out/translated_temp/res/values-fr/strings.xml", ["k1"])]%string
  /\ map (fun f => (fst f, names (snd f))) (Packer.files_written r)
     = [("out/translated_temp/res/values-fr/strings.xml",
         [Some "k1"; Some "k1"])]%string.
Proof. vm_compute. repeat split. Qed.

(** X19.  In [auto_translator.py] the provenance entries that rewrite
    to the same target path are merged into one group: there is one
    group per target path and one write per group, every group whose
    path the file system accepts is written, the text written being the
    encoding of the group (one line per name of the group, names in
    strictly increasing order); and two translated entries of the map
    with the same target path are in the same group. *)
Theorem generate_merges_groups self fs mkdir_ok can_write :
  let r := Packer.generate self fs mkdir_ok can_write in
  groups_distinct (Packer.groups r)
  /\ NoDup (map fst (Packer.files_written r))
  /\ Packer.files_written r
     = map (fun f => (fst f, XMLHandler.encode (snd f)))
           (filter (fun f => can_write (fst f)) (Packer.groups r))
  /\ (forall file text,
        In (file, text) (Packer.files_written r) ->
        exists g names,
          Dict.get file (Packer.groups r) = Some g
          /\ text = resource_text g names
          /\ Sorted name_lt names
          /\ Permutation (Dict.keys g) names)
  /\ (inputs_ready self fs mkdir_ok = true ->
      exists dir,
        Packer.target_dir (Packer.self' r) = Some dir
        /\ forall name1 path1 text1 name2 path2 text2,
             In (name1, path1) (Dict.items (Packer.map_data (Packer.self' r))) ->
             In (name2, path2) (Dict.items (Packer.map_data (Packer.self' r))) ->
             Dict.get name1 (Packer.translated_entries (Packer.self' r)) = Some text1 ->
             Dict.get name2 (Packer.translated_entries (Packer.self' r)) = Some text2 ->
             target_file_key (Packer.self' r) dir path1
             = target_file_key (Packer.self' r) dir path2 ->
             exists g,
               Dict.get (target_file_key (Packer.self' r) dir path1) (Packer.groups r)
               = Some g
               /\ Dict.get name1 g = Some text1
               /\ Dict.get name2 g = Some text2).
Proof.
  intros r.
  destruct (generate_groups self fs mkdir_ok can_write) as (Hd & _ & Hw & _).
  fold r in Hd, Hw. destruct Hd as [Hkeys Hgroups].
  split; [now split|]. split; [|split; [exact Hw|split]].
  - rewrite Hw, map_map. cbn [fst].
    apply (nodup_keys_filter (fun f => can_write (fst f)) _ Hkeys).
  - intros file text Hin. rewrite Hw in Hin.
    apply in_map_iff in Hin as ([file' g] & [= <- <-] & Hin).
    apply filter_In in Hin as [Hin _]. cbn [fst snd].
    exists g, (sorted (Dict.keys g)).
    destruct (sorted_keys_spec g (Hgroups _ _ Hin)) as [Hs Hp].
    split; [now apply in_get_some|]. now repeat split.
  - intros Hr.
    destruct (generate_ready self fs mkdir_ok can_write Hr)
      as (dir & Hdir & Hnd & Hg & _).
    fold r in Hdir, Hnd, Hg. exists dir. split; [exact Hdir|].
    intros name1 path1 text1 name2 path2 text2 Hin1 Hin2 Ht1 Ht2 Hsame.
    destruct (group_merged (Packer.self' r) dir
                (Dict.items (Packer.map_data (Packer.self' r)))
                (Packer.mk_state Dict.empty 0 0 []) name1 path1 text1 Hnd Hin1 Ht1)
      as (g1 & Hg1 & Hn1).
    destruct (group_merged (Packer.self' r) dir
                (Dict.items (Packer.map_data (Packer.self' r)))
                (Packer.mk_state Dict.empty 0 0 []) name2 path2 text2 Hnd Hin2 Ht2)
      as (g2 & Hg2 & Hn2).
    unfold Packer.group_entries in Hg.
    rewrite <- Hg in Hg1, Hg2. rewrite <- Hsame in Hg2.
    exists g1. split; [exact Hg1|]. split; [exact Hn1|].
    rewrite Hg1 in Hg2. injection Hg2 as ->. exact Hn2.
Qed.

(** The theorem on the sample inputs, where k1 and k2 come from the same
    file. *)
Lemma generate_merges_groups_witness :
  let r := Packer.generate Sample.packer Sample.fs true Sample.writable in
  exists dir g,
    Packer.target_dir (Packer.self' r) = Some dir
    /\ Dict.get (target_file_key (Packer.self' r) dir "b/values-en/s2.xml")
                (Packer.groups r) = Some g
    /\ Dict.get "k1" g = Some "Salut"%string
    /\ Dict.get "k2" g = Some "Au revoir"%string.
Proof.
  destruct (generate_merges_groups Sample.packer Sample.fs true Sample.writable)
    as (_ & _ & _ & _ & H).
  destruct (H eq_refl) as (dir & Hdir & Hmerge).
  destruct (Hmerge "k1" "b/values-en/s2.xml" "Salut" "k2" "b/values-en/s2.xml"
                   "Au revoir")%string as (g & Hg & H1 & H2).
  - vm_compute. now left.
  - vm_compute. right. now left.
  - reflexivity.
  - reflexivity.
  - reflexivity.
  - exists dir, g. now repeat split.
Defined.

End GenerateTheorems.

(* ===================================================================== *)
(** ** Translation and cancellation *)
(* ===================================================================== *)

Section TranslateFacts.
Import AutoTranslator.

Variable progress_callback : bool.
Variable stop_event : option (nat -> bool).
Variable translate : nat -> string -> translation.

(** The loop is left by the cancellation [return] as soon as a poll made
    before one of its entries finds the flag set. *)
Lemma translate_loop_cancelled total items : forall i st,
  (exists j, i <= j < i + List.length items /\ stop_requested stop_event j = true) ->
  snd (translate_loop progress_callback stop_event translate i total items st) = true.
Proof.
  induction items as [|[name text] items IH]; intros i st (j & Hj & Hstop).
  - simpl in Hj. lia.
  - cbn [translate_loop].
    destruct (stop_requested stop_event i) eqn:E; [reflexivity|].
    apply IH. exists j. split; [|exact Hstop].
    cbn [List.length] in Hj.
    assert (j <> i) by (intros ->; congruence). lia.
Qed.

End TranslateFacts.

Section TranslateTheorems.
Import AutoTranslator.

(** C8, amended.  When the source ledger has entries and the stop flag
    is found set at one of the polls (before an entry, or after the
    last), the translation stage writes no ledger file at all, neither
    partial nor truncated, and returns failure. *)
Theorem C8_cancellation_writes_nothing
        (source_xml target_xml target_language source_language : string)
        (progress_callback : bool) (stop_event : option (nat -> bool))
        (fs : string -> option string) (translator_init_ok : bool)
        (translate : nat -> string -> translation) (can_write : string -> bool) :
  let source_entries := fst (XMLHandler.read_entries source_xml (fs source_xml)) in
  let r := translate_xml source_xml target_xml target_language source_language
                         progress_callback stop_event fs translator_init_ok
                         translate can_write in
  Dict.is_empty source_entries = false ->
  (exists poll, poll <= Dict.size source_entries
                /\ stop_requested stop_event poll = true) ->
  returned r = false /\ target_written r = None.
Proof.
  intros source_entries r Hne (poll & Hle & Hstop). unfold r, translate_xml.
  destruct (negb (exists_in fs source_xml)); [now split|].
  fold source_entries.
  destruct (XMLHandler.read_entries source_xml (fs source_xml))
    as [entries read_log] eqn:E.
  cbn [fst] in source_entries. subst source_entries. rewrite Hne.
  destruct (negb translator_init_ok); [now split|].
  destruct (translate_loop _ _ _ 0 _ _ _) as [st cancelled] eqn:El.
  destruct cancelled; [now split|].
  destruct (Nat.eq_dec poll (Dict.size entries)) as [->|Hlt].
  - rewrite Hstop. now split.
  - exfalso.
    pose proof (translate_loop_cancelled progress_callback stop_event translate
                  (Dict.size entries) (Dict.items entries) 0
                  (mk_tstate Dict.empty 0 0
                     (([InfoTranslateStart source_xml target_xml target_language]
                         ++ read_log)
                        ++ [InfoUsingTranslator source_language
                              (hd EmptyString (Str.split "-" target_language));
                            InfoTranslating (Dict.size entries)]))) as Hc.
    rewrite El in Hc. cbn [snd] in Hc.
    assert (false = true); [|discriminate].
    apply Hc. exists poll. split; [|exact Hstop].
    unfold Dict.items, Dict.size in *. lia.
Qed.

(** The amended statement on the sample ledger, cancelled after its
    first entry. *)
Lemma C8_cancellation_writes_nothing_witness :
  target_written
    (translate_xml "out/tr.xml" "out/zh.xml" "zh-CN" "en" true
                   (Some Sample.stop_after_first) Sample.fs true
                   Sample.translate Sample.writable)
  = None.
Proof.
  apply (C8_cancellation_writes_nothing
           "out/tr.xml" "out/zh.xml" "zh-CN" "en" true
           (Some Sample.stop_after_first) Sample.fs true
           Sample.translate Sample.writable).
  - reflexivity.
  - exists 1. split; [vm_compute; lia|reflexivity].
Defined.

(** C8 as stated fails: the sample ledger has two entries; cancelled
    after the first has been translated, the stage returns failure and
    writes nothing, so there is no partial ledger holding the translated
    k1 and the original k2. *)
Lemma C8_counterexample :
  let r := translate_xml "out/tr.xml" "out/zh.xml" "zh-CN" "en" true
                         (Some Sample.stop_after_first) Sample.fs true
                         Sample.translate Sample.writable in
  In (Progress 50) (result_log r)
  /\ In InfoCancelled (result_log r)
  /\ returned r = false
  /\ ~ (exists text,
          target_written r = Some ("out/zh.xml"%string, text)
          /\ decode text = [("k1", "TSalut"); ("k2", "Au revoir")]%string).
Proof.
  intros r. repeat split.
  - vm_compute. tauto.
  - vm_compute. tauto.
  - intros (text & Hw & _). vm_compute in Hw. discriminate.
Qed.

End TranslateTheorems.

(* ===================================================================== *)
(** ** The resource codec *)
(* ===================================================================== *)

Section CodecTheorems.
Import AutoTranslator.

(** C2, evaluated on the code.  Plain texts survive encoding followed
    by decoding, but [write_entries] copies every text into the file as
    it is: a text with a less-than sign or an ampersand gives a file that
    does not parse, and decoding it yields no entry at all; a text with
    an element in it loses the element. *)
Theorem C2_encode_does_not_escape :
  decode (XMLHandler.encode [("k1", "Hi"); ("k2", "Bye")])
  = [("k1", "Hi"); ("k2", "Bye")]%string
  /\ XMLHandler.entry_line [("k", "a<b")] "k"
     = ("    <string name=" ++ dq ++ "k" ++ dq ++ ">a<b</string>" ++ nl)%string
  /\ decode (XMLHandler.encode [("k", "a<b")]) = Dict.empty
  /\ decode (XMLHandler.encode [("k", "a&b")]) = Dict.empty
  /\ decode (XMLHandler.encode [("k", "<b>x</b>y")]) = [("k", "y")]%string
  /\ decode (XMLHandler.encode [("k", "a<b")]) <> [("k", "a<b")]%string.
Proof. repeat split; try reflexivity. discriminate. Qed.

End CodecTheorems.

(* ===================================================================== *)
(** ** The older variant *)
(* ===================================================================== *)

Section FbFacts.
Import FbTranslator.

Lemma generate_path_short self mkdir_ok can_write root key fs path :
  List.length (PosixPath.parts path) < 2 ->
  Packer.generate_path self mkdir_ok can_write root key fs path = Raise IndexError.
Proof.
  intros H. unfold Packer.generate_path, Packer.modify_folder_name.
  apply Nat.ltb_lt in H. now rewrite H.
Qed.

(** A run of steps that contains a path with fewer than two components
    ends in the exception handler. *)
Lemma run_steps_short self mkdir_ok can_write root key path l : forall fs,
  In (key, path) l -> List.length (PosixPath.parts path) < 2 ->
  fst (Packer.run_steps self mkdir_ok can_write root fs l) = false.
Proof.
  induction l as [|[k p] l IH]; intros fs Hin Hshort; [destruct Hin|].
  cbn [Packer.run_steps].
  destruct (Packer.generate_path self mkdir_ok can_write root k fs p) as [fs'|e] eqn:E;
    [|reflexivity].
  destruct Hin as [[= -> ->]|Hin]; [|now apply IH].
  rewrite generate_path_short in E by exact Hshort. discriminate.
Qed.

(** C10.  In the older variant [modify_folder_name] reads the
    second-to-last path component without a test: for a path with fewer
    than two components, such as a bare file name, it raises
    [IndexError]; the step of [generate] for such a path raises it as
    well, and a reconstruction whose loaded map contains such a path
    returns the failed result. *)
Theorem C10_short_path_aborts :
  (forall self path,
      List.length (PosixPath.parts path) < 2 ->
      Packer.modify_folder_name self path = Raise IndexError)
  /\ PosixPath.parts (PosixPath.of_args ["strings.xml"%string]) = ["strings.xml"%string]
  /\ (forall self mkdir_ok can_write root key fs path,
         List.length (PosixPath.parts path) < 2 ->
         Packer.generate_path self mkdir_ok can_write root key fs path
         = Raise IndexError)
  /\ (forall self fs mkdir_ok can_write key paths path,
         In (key, paths) (Dict.items (Packer.entries (snd (Packer.load_map self fs)))) ->
         In path paths ->
         List.length (PosixPath.parts path) < 2 ->
         fst (fst (Packer.generate self fs mkdir_ok can_write)) = false).
Proof.
  split; [|split; [reflexivity|split]].
  - intros self path H. unfold Packer.modify_folder_name.
    apply Nat.ltb_lt in H. now rewrite H.
  - intros. now apply generate_path_short.
  - intros self fs mkdir_ok can_write key paths path Hin Hpath Hshort.
    unfold Packer.generate.
    destruct (Packer.load_map self fs) as [loaded self1]. cbn [snd] in Hin.
    destruct loaded; [|reflexivity]. cbn [negb].
    destruct (fs (PosixPath.str (Packer.in_xml self1))) as [text|]; [|reflexivity].
    destruct (ElementTree.parse text) as [root|]; [|reflexivity].
    pose proof (run_steps_short self1 mkdir_ok can_write root key path
                  (Packer.steps (Packer.entries self1)) fs) as H.
    destruct (Packer.run_steps self1 mkdir_ok can_write root fs _) as [ok fs'].
    cbn [fst] in *. apply H; [|exact Hshort].
    unfold Packer.steps. apply in_flat_map. exists (key, paths).
    split; [exact Hin|]. cbn [fst snd]. apply in_map_iff. now exists path.
Qed.

(** The theorem on the sample map of the older variant, whose second
    record names a bare file. *)
Lemma C10_short_path_aborts_witness :
  fst (fst (Packer.generate Sample.fb_packer Sample.fb_fs
                            (fun _ => true) (fun _ => true))) = false.
Proof.
  destruct C10_short_path_aborts as (_ & _ & _ & H).
  apply (H Sample.fb_packer Sample.fb_fs (fun _ => true) (fun _ => true)
           "k2"%string [PosixPath.of_args ["strings.xml"%string]]
           (PosixPath.of_args ["strings.xml"%string])).
  - vm_compute. right. now left.
  - now left.
  - vm_compute. lia.
Defined.

(** The older variant appends the suffix to the folder name it finds,
    where the rewrite of [generate] in [auto_translator.py] replaces the
    whole segment. *)
Remark older_variant_appends_suffix :
  Packer.modify_folder_name
    Sample.fb_packer (PosixPath.of_args ["b/values-en/s2.xml"%string])
  = Ok (PosixPath.of_args ["b/values-en-fr/s2.xml"%string])
  /\ PosixPath.str
       (fst (AutoTranslator.Packer.target_relative_path "fr" "b/values-en/s2.xml"))
     = "b/values-fr/s2.xml"%string.
Proof. split; reflexivity. Qed.

(** The older variant looks at the folder of the file only, where the
    rewrite of [generate] in [auto_translator.py] visits every folder. *)
Remark older_variant_inspects_one_folder :
  Packer.modify_folder_name
    Sample.fb_packer (PosixPath.of_args ["values/x/s.xml"%string])
  = Ok (PosixPath.of_args ["values/x/s.xml"%string])
  /\ PosixPath.str
       (fst (AutoTranslator.Packer.target_relative_path "fr" "values/x/s.xml"))
     = "values-fr/x/s.xml"%string.
Proof. split; reflexivity. Qed.

End FbFacts.

(* ===================================================================== *)
(** ** Further properties of flatten *)
(* ===================================================================== *)

Section FlattenMore.
Import AutoTranslator.

(** What one scanned item does to the two tables. *)
Lemma flatten_file_lookup dir st f name :
  Dict.get name (Unpacker.all_entries (Unpacker.flatten_file dir st f))
  = match Dict.get name (scanned_entries f) with
    | Some text => Some text
    | None => Dict.get name (Unpacker.all_entries st)
    end
  /\ Dict.get name (Unpacker.st_map_data (Unpacker.flatten_file dir st f))
     = match Dict.get name (scanned_entries f) with
       | Some _ => Some (Unpacker.relative_path f)
       | None => Dict.get name (Unpacker.st_map_data st)
       end.
Proof.
  unfold scanned_entries, Unpacker.flatten_file.
  destruct (Unpacker.is_file f); [|now split].
  destruct (Unpacker.content f) as [text|]; [|now split].
  destruct (read_entries_decode
              (PosixPath.str (PosixPath.div dir (Unpacker.relative_path f))) text)
    as (read_log & -> & _).
  destruct (Dict.is_empty (decode text)) eqn:E.
  - destruct (decode text); [now split|discriminate].
  - destruct (flatten_entries_spec (Unpacker.relative_path f) (decode text)
                (Unpacker.mk_state (Unpacker.all_entries st) (Unpacker.st_map_data st)
                                   (S (Unpacker.xml_files_found st))
                                   (Unpacker.log st ++ read_log))
                (decode_nodup text)) as (Ha & Hm & _).
    unfold Dict.items. rewrite Ha, Hm. unfold Dict.mem.
    now destruct (Dict.get name (decode text)).
Qed.

(** Items that do not define [name] leave its record alone. *)
Lemma flatten_files_absent dir name scan : forall st,
  (forall g, In g scan -> Dict.get name (scanned_entries g) = None) ->
  Dict.get name (Unpacker.all_entries (fold_left (Unpacker.flatten_file dir) scan st))
  = Dict.get name (Unpacker.all_entries st)
  /\ Dict.get name (Unpacker.st_map_data (fold_left (Unpacker.flatten_file dir) scan st))
     = Dict.get name (Unpacker.st_map_data st).
Proof.
  induction scan as [|g scan IH]; intros st Habsent; [now split|].
  cbn [fold_left].
  destruct (IH (Unpacker.flatten_file dir st g)) as [Ha Hm].
  { intros h Hh. apply Habsent. now right. }
  destruct (flatten_file_lookup dir st g name) as [Ha' Hm'].
  rewrite (Habsent g (or_introl eq_refl)) in Ha', Hm'.
  now rewrite Ha, Hm, Ha', Hm'.
Qed.

(** X1.  Last write wins across files: when the item [f] of the scan
    defines [name] with [text] and no later item defines [name], a
    successful flatten writes a ledger that holds [text] for [name], and
    leaves a provenance map that holds the path of [f]. *)
Theorem flatten_last_write_wins self ex can_write before f after name text :
  let r := Unpacker.flatten self ex (before ++ f :: after) can_write in
  Unpacker.ok r = true ->
  Dict.get name (scanned_entries f) = Some text ->
  (forall g, In g after -> Dict.get name (scanned_entries g) = None) ->
  exists out mapf ledger,
    Unpacker.written r
    = [(out, XMLHandler.encode ledger);
       (mapf, Unpacker.map_file_text (Unpacker.map_data (Unpacker.self' r)))]
    /\ Dict.get name ledger = Some text
    /\ Dict.get name (Unpacker.map_data (Unpacker.self' r))
       = Some (Unpacker.relative_path f).
Proof.
  intros r Hok Hf Hafter.
  destruct (flatten_ok_inv _ _ _ _ Hok) as (dir & out & mapf & _ & _ & _ & Hs & Hw).
  fold r in Hs, Hw.
  exists out, mapf, (Unpacker.all_entries (Unpacker.collect dir (before ++ f :: after))).
  assert (Hlookup :
            Dict.get name (Unpacker.all_entries
                             (Unpacker.collect dir (before ++ f :: after))) = Some text
            /\ Dict.get name (Unpacker.st_map_data
                                (Unpacker.collect dir (before ++ f :: after)))
               = Some (Unpacker.relative_path f)).
  { unfold Unpacker.collect. rewrite fold_left_app. cbn [fold_left].
    set (st := fold_left (Unpacker.flatten_file dir) before _).
    destruct (flatten_files_absent dir name after (Unpacker.flatten_file dir st f) Hafter)
      as [Ha Hm].
    destruct (flatten_file_lookup dir st f name) as [Ha' Hm'].
    rewrite Hf in Ha', Hm'. now rewrite Ha, Hm, Ha', Hm'. }
  destruct Hlookup as [Ha Hm].
  rewrite Hw, Hs. destruct self. cbn [Unpacker.with_map_data Unpacker.map_data].
  now repeat split.
Qed.

(** The theorem on the sample tree: the second file is the last one to
    define k1. *)
Lemma flatten_last_write_wins_witness :
  Dict.get "k1"
           (Unpacker.map_data
              (Unpacker.self'
                 (Unpacker.flatten Sample.unpacker true Sample.scan Sample.writable)))
  = Some "b/values-en/s2.xml"%string.
Proof.
  destruct (flatten_last_write_wins
              Sample.unpacker true Sample.writable
              [Unpacker.mk_scanned "a/values/s.xml" true (Some Sample.file_a)]
              (Unpacker.mk_scanned "b/values-en/s2.xml" true (Some Sample.file_b))
              [] "k1" "Hello")%string
    as (out & mapf & ledger & _ & _ & H).
  - reflexivity.
  - reflexivity.
  - intros g [].
  - exact H.
Defined.

(** X2.  A name that no item of the scan defines is in neither table
    after a successful flatten: the ledger and the provenance map hold
    nothing but what the scanned files define. *)
Theorem flatten_defines_nothing_else self ex can_write scan name :
  let r := Unpacker.flatten self ex scan can_write in
  Unpacker.ok r = true ->
  (forall g, In g scan -> Dict.get name (scanned_entries g) = None) ->
  exists out mapf ledger,
    Unpacker.written r
    = [(out, XMLHandler.encode ledger);
       (mapf, Unpacker.map_file_text (Unpacker.map_data (Unpacker.self' r)))]
    /\ Dict.get name ledger = None
    /\ Dict.get name (Unpacker.map_data (Unpacker.self' r)) = None.
Proof.
  intros r Hok Habsent.
  destruct (flatten_ok_inv _ _ _ _ Hok) as (dir & out & mapf & _ & _ & _ & Hs & Hw).
  fold r in Hs, Hw.
  exists out, mapf, (Unpacker.all_entries (Unpacker.collect dir scan)).
  destruct (flatten_files_absent dir name scan
              (Unpacker.mk_state Dict.empty Dict.empty 0 [InfoFlattenStart]) Habsent)
    as [Ha Hm].
  fold (Unpacker.collect dir scan) in Ha, Hm.
  rewrite Hw, Hs. destruct self. cbn [Unpacker.with_map_data Unpacker.map_data].
  now repeat split.
Qed.

(** The theorem on the sample tree, which does not define k9. *)
Lemma flatten_defines_nothing_else_witness :
  Dict.get "k9"
           (Unpacker.map_data
              (Unpacker.self'
                 (Unpacker.flatten Sample.unpacker true Sample.scan Sample.writable)))
  = None.
Proof.
  destruct (flatten_defines_nothing_else
              Sample.unpacker true Sample.writable Sample.scan "k9"%string)
    as (out & mapf & ledger & _ & _ & H).
  - reflexivity.
  - intros g [<-|[<-|[]]]; reflexivity.
  - exact H.
Defined.

Lemma flatten_entry_same_tables rel st1 st2 entry :
  same_tables st1 st2 ->
  same_tables (Unpacker.flatten_entry rel st1 entry)
              (Unpacker.flatten_entry rel st2 entry).
Proof.
  intros [Ha Hm]. destruct entry as [name text]. unfold same_tables.
  cbn [Unpacker.flatten_entry Unpacker.all_entries Unpacker.st_map_data].
  now rewrite Ha, Hm.
Qed.

Lemma flatten_entries_same_tables rel l : forall st1 st2,
  same_tables st1 st2 ->
  same_tables (fold_left (Unpacker.flatten_entry rel) l st1)
              (fold_left (Unpacker.flatten_entry rel) l st2).
Proof.
  induction l as [|e l IH]; intros st1 st2 H; [exact H|].
  cbn [fold_left]. apply IH. now apply flatten_entry_same_tables.
Qed.

(** The tables after one item depend on the tables before it only. *)
Lemma flatten_file_same_tables dir st1 st2 f :
  same_tables st1 st2 ->
  same_tables (Unpacker.flatten_file dir st1 f) (Unpacker.flatten_file dir st2 f).
Proof.
  intros H. unfold Unpacker.flatten_file.
  destruct (Unpacker.is_file f); [|exact H].
  destruct (XMLHandler.read_entries _ _) as [entries read_log].
  destruct (Dict.is_empty entries); [exact H|].
  apply flatten_entries_same_tables. exact H.
Qed.

Lemma flatten_files_same_tables dir scan : forall st1 st2,
  same_tables st1 st2 ->
  same_tables (fold_left (Unpacker.flatten_file dir) scan st1)
              (fold_left (Unpacker.flatten_file dir) scan st2).
Proof.
  induction scan as [|f scan IH]; intros st1 st2 H; [exact H|].
  cbn [fold_left]. apply IH. now apply flatten_file_same_tables.
Qed.

(** An item that yields no entry leaves both tables as they are. *)
Lemma flatten_file_skipped dir st f :
  scanned_entries f = Dict.empty ->
  same_tables (Unpacker.flatten_file dir st f) st.
Proof.
  unfold scanned_entries, Unpacker.flatten_file.
  destruct (Unpacker.is_file f); [|now split].
  destruct (Unpacker.content f) as [text|]; [|now split].
  destruct (read_entries_decode
              (PosixPath.str (PosixPath.div dir (Unpacker.relative_path f))) text)
    as (read_log & -> & _).
  intros ->. now split.
Qed.

(** The result of [flatten], but for its log, is a function of the two
    tables the loops build. *)
Lemma flatten_by_tables self ex can_write scan1 scan2 :
  (forall dir, same_tables (Unpacker.collect dir scan1) (Unpacker.collect dir scan2)) ->
  let r1 := Unpacker.flatten self ex scan1 can_write in
  let r2 := Unpacker.flatten self ex scan2 can_write in
  Unpacker.ok r1 = Unpacker.ok r2
  /\ Unpacker.written r1 = Unpacker.written r2
  /\ Unpacker.self' r1 = Unpacker.self' r2.
Proof.
  intros Hsame. unfold Unpacker.flatten.
  destruct (Unpacker.out_xml self) as [out|]; [|now repeat split].
  destruct (Unpacker.map_file self) as [mapf|]; [|now repeat split].
  destruct (Str.is_empty out || Str.is_empty mapf); [now repeat split|].
  destruct (Unpacker.extract_dir self) as [dir|]; [|now repeat split].
  destruct (negb ex); [now repeat split|].
  destruct (Hsame dir) as [Ha Hm]. rewrite Ha, Hm.
  unfold XMLHandler.write_entries.
  destruct (can_write out); [|now repeat split].
  destruct (can_write mapf); now repeat split.
Qed.

(** X3.  A scanned item that yields no entry (not a regular file, not
    readable, not well-formed, or without a named string) never makes
    flatten fail and changes nothing of what it writes: the result is
    decided by the configuration and the two writes alone, and the files
    written and the provenance map are those of the scan without the
    item. *)
Theorem flatten_skips_bad_file self ex can_write before f after :
  scanned_entries f = Dict.empty ->
  let r := Unpacker.flatten self ex (before ++ f :: after) can_write in
  let r' := Unpacker.flatten self ex (before ++ after) can_write in
  Unpacker.ok r = flatten_ready self ex can_write
  /\ Unpacker.ok r = Unpacker.ok r'
  /\ Unpacker.written r = Unpacker.written r'
  /\ Unpacker.self' r = Unpacker.self' r'.
Proof.
  intros Hbad r r'. split.
  - unfold r, Unpacker.flatten, flatten_ready, XMLHandler.write_entries.
    destruct (Unpacker.out_xml self) as [out|]; [|reflexivity].
    destruct (Unpacker.map_file self) as [mapf|]; [|reflexivity].
    destruct (Unpacker.extract_dir self) as [dir|];
      destruct (Str.is_empty out), (Str.is_empty mapf); cbn; try reflexivity.
    + destruct ex; cbn; [|reflexivity].
      destruct (can_write out); cbn; [|reflexivity].
      destruct (can_write mapf); reflexivity.
  - apply flatten_by_tables. intros dir. unfold Unpacker.collect.
    rewrite !fold_left_app. cbn [fold_left].
    apply flatten_files_same_tables. now apply flatten_file_skipped.
Qed.

(** The theorem on the sample tree with a file that does not parse put
    between its two files. *)
Lemma flatten_skips_bad_file_witness :
  Unpacker.written
    (Unpacker.flatten Sample.unpacker true
       ([Unpacker.mk_scanned "a/values/s.xml" true (Some Sample.file_a)]
          ++ Unpacker.mk_scanned "bad.xml" true (Some "<resources>"%string)
          :: [Unpacker.mk_scanned "b/values-en/s2.xml" true (Some Sample.file_b)])
       Sample.writable)
  = Unpacker.written
      (Unpacker.flatten Sample.unpacker true Sample.scan Sample.writable).
Proof.
  apply (flatten_skips_bad_file Sample.unpacker true Sample.writable
           [Unpacker.mk_scanned "a/values/s.xml" true (Some Sample.file_a)]
           (Unpacker.mk_scanned "bad.xml" true (Some "<resources>"%string))
           [Unpacker.mk_scanned "b/values-en/s2.xml" true (Some Sample.file_b)]).
  reflexivity.
Defined.

End FlattenMore.

(* ===================================================================== *)
(** ** Further properties of the codec and of the map file *)
(* ===================================================================== *)

Section StripFacts.

Lemma lstrip_fixed s : head_space s = false -> Str.lstrip s = s.
Proof. destruct s as [|c s]; simpl; [reflexivity|]. now intros ->. Qed.

Lemma lstrip_head s : head_space (Str.lstrip s) = false.
Proof.
  induction s as [|c s IH]; simpl; [reflexivity|].
  destruct (Str.is_space c) eqn:E; [exact IH|]. simpl. exact E.
Qed.

Lemma all_space_last s : s <> ""%string -> Str.all_space s = true -> last_space s = true.
Proof.
  induction s as [|c s IH]; [congruence|]. intros _ H.
  cbn [Str.all_space] in H. apply andb_true_iff in H as [Hc Hs].
  destruct s as [|d s]; [exact Hc|]. apply IH; [discriminate|exact Hs].
Qed.

Lemma rstrip_fixed s : last_space s = false -> Str.rstrip s = s.
Proof.
  induction s as [|c s IH]; [reflexivity|]. intros H.
  cbn [Str.rstrip].
  destruct (Str.all_space (String c s)) eqn:E.
  - rewrite all_space_last in H; [discriminate|discriminate|exact E].
  - f_equal. destruct s as [|d s]; [reflexivity|]. now apply IH.
Qed.

Lemma rstrip_empty s : Str.rstrip s = ""%string -> Str.all_space s = true.
Proof.
  destruct s as [|c s]; [reflexivity|]. cbn [Str.rstrip].
  destruct (Str.all_space (String c s)); [reflexivity|discriminate].
Qed.

Lemma rstrip_last s : last_space (Str.rstrip s) = false.
Proof.
  induction s as [|c s IH]; [reflexivity|]. cbn [Str.rstrip].
  destruct (Str.all_space (String c s)) eqn:E; [reflexivity|].
  destruct (Str.rstrip s) as [|d u] eqn:R; [|exact IH].
  apply rstrip_empty in R. cbn [Str.all_space] in E. rewrite R, andb_true_r in E.
  exact E.
Qed.

Lemma rstrip_head s : head_space s = false -> head_space (Str.rstrip s) = false.
Proof.
  destruct s as [|c s]; [reflexivity|]. cbn [head_space Str.rstrip Str.all_space].
  intros E. rewrite E. cbn [andb head_space]. exact E.
Qed.

(** [strip] leaves a text without white space at its ends alone, and
    returns such a text. *)
Lemma strip_fixed s :
  head_space s = false -> last_space s = false -> Str.strip s = s.
Proof.
  intros Hh Hl. unfold Str.strip. now rewrite (lstrip_fixed _ Hh), (rstrip_fixed _ Hl).
Qed.

Lemma strip_ends s :
  head_space (Str.strip s) = false /\ last_space (Str.strip s) = false.
Proof.
  unfold Str.strip. split; [apply rstrip_head, lstrip_head|apply rstrip_last].
Qed.

Lemma strip_idempotent s : Str.strip (Str.strip s) = Str.strip s.
Proof. destruct (strip_ends s). now apply strip_fixed. Qed.

End StripFacts.

Section ReadEntriesFacts.
Import AutoTranslator.

(** X4.  [read_entries] returns every name once and every text stripped:
    no text it returns starts or ends with white space, so stripping it
    again changes nothing.  A file that cannot be opened or does not
    parse yields no entry. *)
Theorem read_entries_stripped xml_file content :
  let entries := fst (XMLHandler.read_entries xml_file content) in
  NoDup (Dict.keys entries)
  /\ (forall name text,
        Dict.get name entries = Some text ->
        head_space text = false /\ last_space text = false
        /\ Str.strip text = text)
  /\ (content = None -> entries = Dict.empty)
  /\ (forall text, content = Some text -> ElementTree.parse text = None ->
                   entries = Dict.empty).
Proof.
  cbv zeta. split; [apply read_entries_nodup|]. split; [|split].
  - unfold XMLHandler.read_entries.
    destruct content as [c|]; [|discriminate].
    destruct (ElementTree.parse c) as [root|]; [|discriminate].
    cbn [fst].
    apply (fold_left_invariant
             (fun d => forall name text,
                  Dict.get name d = Some text ->
                  head_space text = false /\ last_space text = false
                  /\ Str.strip text = text)).
    + discriminate.
    + intros d e Hd name text. unfold XMLHandler.read_element.
      destruct (ElementTree.get e "name") as [n|]; [|apply Hd].
      rewrite get_set. destruct (String.eqb name n); [|apply Hd].
      intros [= <-]. unfold XMLHandler.element_text.
      destruct (strip_ends
                  (String.concat ""
                     (ElementTree.text e :: map snd (ElementTree.children e))))
        as [Hh Hl].
      repeat split; try assumption. apply strip_idempotent.
  - now intros ->.
  - intros text -> Hparse. unfold XMLHandler.read_entries. now rewrite Hparse.
Qed.

End ReadEntriesFacts.

Section MapFileFacts.
Import AutoTranslator.

Lemma contains_char_app c a b :
  Str.contains_char c (a ++ b) = Str.contains_char c a || Str.contains_char c b.
Proof. induction a as [|d a IH]; simpl; [reflexivity|]. now rewrite IH, orb_assoc. Qed.

Lemma normalize_newlines_fixed s :
  Str.contains_char "013" s = false -> Str.normalize_newlines s = s.
Proof.
  induction s as [|c s IH]; [reflexivity|]. cbn [Str.contains_char Str.normalize_newlines].
  intros H. apply orb_false_iff in H as [Hc Hs]. rewrite Hc. now rewrite IH.
Qed.

Lemma last_space_app a b : b <> ""%string -> last_space (a ++ b) = last_space b.
Proof.
  intros Hb. induction a as [|c a IH]; [reflexivity|]. cbn [append last_space].
  destruct (a ++ b)%string eqn:E; [|exact IH].
  destruct a; [simpl in E; congruence|discriminate].
Qed.

Lemma split_first_app name rest :
  Str.contains_char ":" name = false ->
  Str.split_first ":" (name ++ String ":" rest) = (name, rest).
Proof.
  induction name as [|c name IH]; [reflexivity|]. cbn [Str.contains_char append].
  intros H. apply orb_false_iff in H as [Hc Hn].
  cbn [Str.split_first]. rewrite Hc, (IH Hn). reflexivity.
Qed.

(** The text of a sequence of lines splits back into the lines. *)
Lemma file_lines_concat (lines : list string) :
  Forall (fun l => Str.contains_char "010" l = false
                   /\ Str.contains_char "013" l = false) lines ->
  Unpacker.file_lines (String.concat "" (map (fun l => (l ++ nl)%string) lines))
  = lines.
Proof.
  intros H. unfold Unpacker.file_lines.
  assert (Hsplit : Str.contains_char "013"
                     (String.concat "" (map (fun l => (l ++ nl)%string) lines)) = false
                   /\ Str.split "010"
                        (String.concat "" (map (fun l => (l ++ nl)%string) lines))
                      = lines ++ [""%string]).
  { induction H as [|l lines [Hn Hr] Hl [IHr IHs]]; [split; reflexivity|].
    assert (Hcons : String.concat "" (map (fun l => (l ++ nl)%string) (l :: lines))
                    = (l ++ String "010" (String.concat ""
                                            (map (fun l => (l ++ nl)%string) lines)))%string).
    { cbn [map]. destruct (map (fun l0 => (l0 ++ nl)%string) lines) eqn:E.
      - simpl. unfold nl. reflexivity.
      - cbn [String.concat]. unfold nl at 1. rewrite append_assoc. reflexivity. }
    rewrite Hcons. split.
    - rewrite contains_char_app. cbn [Str.contains_char]. now rewrite Hr, IHr.
    - rewrite split_app, IHs, (split_no_sep _ _ Hn). reflexivity. }
  destruct Hsplit as [Hr Hs].
  rewrite (normalize_newlines_fixed _ Hr), Hs, last_last. cbn [Str.is_empty].
  apply removelast_last.
Qed.

Lemma set_fresh {V : Type} (d : Dict.t V) k v :
  ~ In k (Dict.keys d) -> Dict.set k v d = d ++ [(k, v)].
Proof.
  induction d as [|[k' v'] d IH]; intros H; [reflexivity|].
  cbn [Dict.set]. destruct (String.eqb_spec k k') as [->|Hne].
  - exfalso. apply H. now left.
  - cbn [app]. f_equal. apply IH. intros Hin. apply H. now right.
Qed.

(** One clean record line goes into the map as it is. *)
Lemma read_map_line_record m lg i name path :
  map_name name = true -> one_line path = true ->
  Unpacker.read_map_line (m, lg, i) (name ++ ":" ++ path)
  = (Dict.set name path m, lg, S i).
Proof.
  unfold map_name, one_line. intros Hn Hp.
  repeat (apply andb_true_iff in Hn as [Hn ?]).
  repeat (apply andb_true_iff in Hp as [Hp ?]).
  repeat match goal with H : negb _ = true |- _ => apply negb_true_iff in H end.
  assert (Hline : Str.strip (name ++ ":" ++ path) = (name ++ ":" ++ path)%string).
  { apply strip_fixed.
    - destruct name; [reflexivity|assumption].
    - rewrite last_space_app by discriminate. cbn [append].
      destruct path; [reflexivity|assumption]. }
  unfold Unpacker.read_map_line. rewrite Hline.
  assert (Hne : Str.is_empty (name ++ ":" ++ path) = false) by now destruct name.
  assert (Hcolon : Str.contains_char ":" (name ++ ":" ++ path) = true).
  { rewrite contains_char_app. cbn. now rewrite orb_true_r. }
  rewrite Hne, Hcolon. cbn [negb orb].
  change (name ++ ":" ++ path)%string with (name ++ String ":" path)%string.
  rewrite split_first_app by assumption.
  now rewrite !strip_fixed by assumption.
Qed.

Lemma read_map_lines_records (records : Dict.t string) : forall m lg i,
  NoDup (Dict.keys m ++ Dict.keys records) ->
  Forall (fun r => map_name (fst r) = true /\ one_line (snd r) = true) records ->
  fold_left Unpacker.read_map_line
            (map (fun r => (fst r ++ ":" ++ snd r)%string) records) (m, lg, i)
  = (m ++ records, lg, i + List.length records).
Proof.
  induction records as [|[name path] records IH]; intros m lg i Hnd Hclean.
  - simpl. now rewrite app_nil_r, Nat.add_0_r.
  - inversion Hclean as [|? ? [Hn Hp] Hrest]; subst. cbn [map fold_left fst snd].
    rewrite (read_map_line_record m lg i name path Hn Hp).
    assert (Hfresh : ~ In name (Dict.keys m)).
    { intros Hin. apply NoDup_remove_2 in Hnd. apply Hnd.
      apply in_or_app. now left. }
    rewrite (set_fresh m name path Hfresh).
    rewrite IH.
    + rewrite <- app_assoc. cbn [app List.length]. f_equal. lia.
    + unfold Dict.keys in *. rewrite map_app, <- app_assoc. exact Hnd.
    + exact Hrest.
Qed.

Lemma map_records_keys m : Dict.keys (map_records m) = sorted (Dict.keys m).
Proof.
  unfold map_records, Dict.keys. rewrite map_map. cbn [fst]. apply map_id.
Qed.

Lemma get_tabulate (f : string -> string) l name :
  Dict.get name (map (fun n => (n, f n)) l)
  = if in_dec string_dec name l then Some (f name) else None.
Proof.
  induction l as [|n l IH]; [reflexivity|]. cbn [map Dict.get].
  destruct (String.eqb_spec name n) as [->|Hne].
  - destruct (in_dec string_dec n (n :: l)) as [|Hn]; [reflexivity|].
    exfalso. apply Hn. now left.
  - rewrite IH. destruct (in_dec string_dec name l) as [Hin|Hnin];
      destruct (in_dec string_dec name (n :: l)) as [Hin'|Hnin']; try reflexivity.
    + exfalso. apply Hnin'. now right.
    + exfalso. destruct Hin' as [E|Hin']; [congruence|contradiction].
Qed.

(** The records written for a map give the same lookups as the map. *)
Lemma map_records_lookup m name :
  Dict.get name (map_records m) = Dict.get name m.
Proof.
  unfold map_records. rewrite get_tabulate.
  destruct (in_dec string_dec name (sorted (Dict.keys m))) as [Hin|Hnin].
  - unfold item. destruct (Dict.get name m) as [path|] eqn:E; [reflexivity|].
    exfalso. apply get_none_not_in in E. apply E.
    apply (Permutation_in _ (Permutation_sym (sorted_perm _)) Hin).
  - symmetry. apply get_none_not_in. intros Hin. apply Hnin.
    apply (Permutation_in _ (sorted_perm _) Hin).
Qed.

Lemma map_file_text_lines m :
  Unpacker.map_file_text m
  = String.concat ""
      (map (fun l => (l ++ nl)%string)
           (map (fun r => (fst r ++ ":" ++ snd r)%string) (map_records m))).
Proof.
  unfold Unpacker.map_file_text, map_records. rewrite !map_map. cbn [fst snd].
  f_equal. apply map_ext. intros name. now rewrite !append_assoc.
Qed.

Lemma one_line_no_newline s :
  one_line s = true ->
  Str.contains_char "010" s = false /\ Str.contains_char "013" s = false.
Proof.
  unfold one_line. intros H.
  repeat (apply andb_true_iff in H as [H ?]).
  repeat match goal with H : negb _ = true |- _ => apply negb_true_iff in H end.
  now split.
Qed.

Lemma record_line_no_newline name path :
  map_name name = true -> one_line path = true ->
  Str.contains_char "010" (name ++ ":" ++ path) = false
  /\ Str.contains_char "013" (name ++ ":" ++ path) = false.
Proof.
  unfold map_name. intros Hn Hp. apply andb_true_iff in Hn as [Hn _].
  destruct (one_line_no_newline _ Hn) as [Hn1 Hn2].
  destruct (one_line_no_newline _ Hp) as [Hp1 Hp2].
  rewrite !contains_char_app. cbn [Str.contains_char].
  rewrite Hn1, Hn2, Hp1, Hp2. now split.
Qed.

(** Reading back the map file written for a map of clean records. *)
Lemma read_written_map (self : Packer.t) fs mapf (m : Dict.t string) :
  Packer.map_file self = Some mapf ->
  mapf <> ""%string ->
  fs mapf = Some (Unpacker.map_file_text m) ->
  NoDup (Dict.keys m) ->
  (forall name path, In (name, path) m ->
                     map_name name = true /\ one_line path = true) ->
  Packer.read_map_file self fs
  = (true, Packer.with_map_data self (map_records m),
     [InfoReadingMap mapf; InfoMapRead (Dict.size m)]).
Proof.
  intros Hmapf Hne Hfs Hnd Hclean.
  assert (Hrecords : Forall (fun r => map_name (fst r) = true /\ one_line (snd r) = true)
                            (map_records m)).
  { apply Forall_forall. intros [name path] Hin. cbn [fst snd].
    unfold map_records in Hin. apply in_map_iff in Hin as (n & [= <- <-] & Hin).
    apply (Permutation_in _ (Permutation_sym (sorted_perm _))) in Hin.
    apply mem_true_iff in Hin. unfold Dict.mem in Hin. unfold item.
    destruct (Dict.get n m) as [path|] eqn:E; [|discriminate].
    apply (Hclean n path). now apply get_some_in. }
  assert (Hnd' : NoDup (Dict.keys (map_records m))).
  { rewrite map_records_keys.
    apply (Permutation_NoDup (sorted_perm _) Hnd). }
  assert (Hsize : List.length (map_records m) = Dict.size m).
  { unfold map_records, Dict.size. rewrite length_map.
    rewrite <- (Permutation_length (sorted_perm (Dict.keys m))).
    unfold Dict.keys. apply length_map. }
  unfold Packer.read_map_file, Unpacker.read_map_file. cbn [Unpacker.map_file].
  rewrite Hmapf. destruct mapf as [|c mapf]; [congruence|]. cbn [Str.is_empty].
  rewrite Hfs, map_file_text_lines, file_lines_concat.
  - rewrite (read_map_lines_records (map_records m) Dict.empty
               [InfoReadingMap (String c mapf)] 0 Hnd' Hrecords).
    change (Dict.empty ++ map_records m) with (map_records m).
    change (Dict.size (map_records m)) with (List.length (map_records m)).
    rewrite Hsize. reflexivity.
  - rewrite Forall_map. eapply Forall_impl; [|exact Hrecords].
    intros [name path] [Hn Hp]. now apply record_line_no_newline.
Qed.

(** X5.  The map file round trip: when every name of a provenance map
    is a one-line text without colon or white space at its ends, and
    every path a one-line text without white space at its ends, reading
    back the map file that [flatten] writes for the map succeeds without
    a warning and gives the same records, sorted by name; every lookup
    answers as in the map. *)
Theorem map_file_round_trip (self : Packer.t) fs mapf (m : Dict.t string) :
  Packer.map_file self = Some mapf ->
  mapf <> ""%string ->
  fs mapf = Some (Unpacker.map_file_text m) ->
  NoDup (Dict.keys m) ->
  (forall name path, In (name, path) m ->
                     map_name name = true /\ one_line path = true) ->
  Packer.read_map_file self fs
  = (true, Packer.with_map_data self (map_records m),
     [InfoReadingMap mapf; InfoMapRead (Dict.size m)])
  /\ (forall name, Dict.get name (map_records m) = Dict.get name m).
Proof.
  intros Hmapf Hne Hfs Hnd Hclean.
  split; [now apply read_written_map|apply map_records_lookup].
Qed.

(** The theorem on the sample map file. *)
Lemma map_file_round_trip_witness :
  Packer.read_map_file Sample.packer Sample.fs
  = (true, Packer.with_map_data Sample.packer (map_records MoreSample.provenance),
     [InfoReadingMap "out/map.txt"; InfoMapRead 3]).
Proof.
  apply (map_file_round_trip Sample.packer Sample.fs "out/map.txt"
                             MoreSample.provenance).
  - reflexivity.
  - discriminate.
  - reflexivity.
  - repeat constructor; simpl; intuition discriminate.
  - intros name path [E|[E|[E|[]]]]; injection E as <- <-; split; reflexivity.
Defined.

End MapFileFacts.

(* ===================================================================== *)
(** ** Further properties of reconstruction *)
(* ===================================================================== *)

Section GenerateMore.
Import AutoTranslator.

Lemma fold_left_invariant_in {A B : Type} (P : A -> Prop) (f : A -> B -> A) l a :
  P a -> (forall a x, In x l -> P a -> P (f a x)) -> P (fold_left f l a).
Proof.
  revert a. induction l as [|x l IH]; intros a Ha Hstep; [exact Ha|].
  cbn [fold_left]. apply IH.
  - apply Hstep; [now left|exact Ha].
  - intros b y Hy. apply Hstep. now right.
Qed.

(** Every entry of every group comes from an entry of the map, and sits
    in the group of the rewritten path of that entry. *)
Lemma group_entries_origin self dir :
  forall file g name text,
    In (file, g) (Packer.file_to_entries (Packer.group_entries self dir)) ->
    Dict.get name g = Some text ->
    exists path,
      In (name, path) (Dict.items (Packer.map_data self))
      /\ file = target_file_key self dir path.
Proof.
  unfold Packer.group_entries.
  apply (fold_left_invariant_in
           (fun st => forall file g name text,
                In (file, g) (Packer.file_to_entries st) ->
                Dict.get name g = Some text ->
                exists path,
                  In (name, path) (Dict.items (Packer.map_data self))
                  /\ file = target_file_key self dir path)).
  - intros ? ? ? ? [].
  - intros st [n p] Hin Hst file g name text.
    destruct (Dict.get n (Packer.translated_entries self)) as [t|] eqn:Ht.
    + destruct (generate_entry_translated self dir st n p t Ht) as (-> & _).
      intros Hg Hget.
      apply in_set in Hg as [[-> ->]|Hg]; [|exact (Hst file g name text Hg Hget)].
      rewrite get_set in Hget.
      destruct (String.eqb_spec name n) as [->|Hne]; [now exists p|].
      destruct (Dict.get _ (Packer.file_to_entries st)) as [g0|] eqn:E;
        [|discriminate].
      apply (Hst _ g0 name text (get_some_in _ _ _ E) Hget).
    + destruct (generate_entry_missing self dir st n p Ht) as (-> & _).
      apply Hst.
Qed.

(** X6.  Once its inputs are ready, reconstruction groups exactly the
    translated entries of the provenance map: the group of a target file
    holds [text] for [name] if and only if the map gives [name] a path
    that rewrites to that file and the translated ledger gives [name]
    the text [text].  Nothing else reaches a group, and nothing
    translated is left out. *)
Theorem generate_groups_exactly self fs mkdir_ok can_write :
  let r := Packer.generate self fs mkdir_ok can_write in
  inputs_ready self fs mkdir_ok = true ->
  exists dir,
    Packer.target_dir (Packer.self' r) = Some dir
    /\ forall file name text,
         (exists g, Dict.get file (Packer.groups r) = Some g
                    /\ Dict.get name g = Some text)
         <-> (exists path,
                In (name, path) (Dict.items (Packer.map_data (Packer.self' r)))
                /\ file = target_file_key (Packer.self' r) dir path
                /\ Dict.get name (Packer.translated_entries (Packer.self' r))
                   = Some text).
Proof.
  intros r Hr.
  destruct (generate_ready self fs mkdir_ok can_write Hr)
    as (dir & Hdir & Hnd & Hg & _).
  fold r in Hdir, Hnd, Hg. exists dir. split; [exact Hdir|].
  intros file name text. split.
  - intros (g & Hfile & Hname).
    apply get_some_in in Hfile. rewrite Hg in Hfile.
    destruct (group_entries_origin _ _ _ _ _ _ Hfile Hname) as (path & Hin & ->).
    exists path. repeat split; try assumption.
    apply (group_entries_sound (Packer.self' r) dir _ g name text Hfile Hname).
  - intros (path & Hin & -> & Ht).
    rewrite Hg. unfold Packer.group_entries.
    apply (group_merged (Packer.self' r) dir
             (Dict.items (Packer.map_data (Packer.self' r)))
             (Packer.mk_state Dict.empty 0 0 []) name path text Hnd Hin Ht).
Qed.

(** The theorem on the sample inputs. *)
Lemma generate_groups_exactly_witness :
  let r := Packer.generate Sample.packer Sample.fs true Sample.writable in
  exists dir,
    Packer.target_dir (Packer.self' r) = Some dir
    /\ forall file name text,
         (exists g, Dict.get file (Packer.groups r) = Some g
                    /\ Dict.get name g = Some text)
         <-> (exists path,
                In (name, path) (Dict.items (Packer.map_data (Packer.self' r)))
                /\ file = target_file_key (Packer.self' r) dir path
                /\ Dict.get name (Packer.translated_entries (Packer.self' r))
                   = Some text).
Proof.
  apply (generate_groups_exactly Sample.packer Sample.fs true Sample.writable).
  reflexivity.
Defined.

(** A run whose inputs are ready has a map with at least one entry. *)
Lemma generate_ready_map_nonempty self fs mkdir_ok can_write :
  inputs_ready self fs mkdir_ok = true ->
  0 < Dict.size (Packer.map_data
                   (Packer.self' (Packer.generate self fs mkdir_ok can_write))).
Proof.
  unfold inputs_ready, Packer.generate.
  destruct (specified (Packer.in_xml self)); [|discriminate].
  destruct (specified (Packer.map_file self)); [|discriminate].
  cbn [negb orb andb].
  destruct (Packer.read_map_file self fs) as [[map_ok self1] log1].
  destruct map_ok; [|discriminate]. cbn [negb andb].
  destruct (Packer.read_translated_xml self1 fs) as [[xml_ok self2] log2].
  destruct xml_ok; [|discriminate]. cbn [negb andb].
  destruct (Dict.is_empty (Packer.map_data self2)) eqn:E; [discriminate|].
  cbn [negb andb]. unfold specified.
  destruct (Packer.out_zip self2) as [zip|]; [|discriminate].
  destruct (Str.is_empty zip); [discriminate|]. cbn [negb andb].
  intros ->. cbn [negb].
  destruct (Nat.ltb 0 _); cbn [Packer.self']; destruct self2 as [? ? ? md ? ? ?];
    cbn [Packer.with_target_dir Packer.map_data] in *;
    destruct md; [discriminate|cbn; lia|discriminate|cbn; lia].
Qed.

(** X7.  Once its inputs are ready, reconstruction accounts for every
    entry of the provenance map exactly once: the processed and the
    missing counters add up to the size of the map, the missing counter
    being the number of names without translation. *)
Theorem generate_counts_every_entry self fs mkdir_ok can_write :
  let r := Packer.generate self fs mkdir_ok can_write in
  inputs_ready self fs mkdir_ok = true ->
  Packer.processed r + Packer.missing r = Dict.size (Packer.map_data (Packer.self' r))
  /\ Packer.missing r = List.length (untranslated (Packer.self' r))
  /\ 0 < Dict.size (Packer.map_data (Packer.self' r)).
Proof.
  intros r Hr.
  destruct (generate_ready self fs mkdir_ok can_write Hr)
    as (dir & _ & _ & _ & Hm & Hp & _).
  fold r in Hm, Hp.
  destruct (group_counts (Packer.self' r) dir
                         (Dict.items (Packer.map_data (Packer.self' r)))
                         (Packer.mk_state Dict.empty 0 0 [])) as [Hc Hs].
  fold (Packer.group_entries (Packer.self' r) dir) in Hc, Hs.
  rewrite <- Hm, <- Hp in Hs. rewrite <- Hm in Hc. cbn in Hc, Hs.
  split; [unfold Dict.size, Dict.items in *; lia|]. split; [exact Hc|].
  now apply generate_ready_map_nonempty.
Qed.

(** The theorem on the sample inputs: two entries processed, one
    missing. *)
Lemma generate_counts_every_entry_witness :
  let r := Packer.generate Sample.packer Sample.fs true Sample.writable in
  Packer.processed r + Packer.missing r = 3.
Proof.
  destruct (generate_counts_every_entry Sample.packer Sample.fs true Sample.writable)
    as (H & _).
  - reflexivity.
  - exact H.
Defined.

(** The warning printed when the grouping loop processed nothing. *)
Lemma generate_ready_processed_none self fs mkdir_ok can_write :
  inputs_ready self fs mkdir_ok = true ->
  let r := Packer.generate self fs mkdir_ok can_write in
  Packer.processed r = 0 ->
  In (WarnProcessedNone (Dict.size (Packer.map_data (Packer.self' r))))
     (Packer.out_log r).
Proof.
  unfold inputs_ready, Packer.generate.
  destruct (specified (Packer.in_xml self)); [|discriminate].
  destruct (specified (Packer.map_file self)); [|discriminate].
  cbn [negb orb andb].
  destruct (Packer.read_map_file self fs) as [[map_ok self1] log1].
  destruct map_ok; [|discriminate]. cbn [negb andb].
  destruct (Packer.read_translated_xml self1 fs) as [[xml_ok self2] log2].
  destruct xml_ok; [|discriminate]. cbn [negb andb].
  destruct (Dict.is_empty (Packer.map_data self2)) eqn:E; [discriminate|].
  cbn [negb andb]. unfold specified.
  destruct (Packer.out_zip self2) as [zip|]; [|discriminate].
  destruct (Str.is_empty zip); [discriminate|]. cbn [negb andb].
  intros ->. cbn [negb]. cbv zeta.
  set (dir := PosixPath.div (PosixPath.parent (PosixPath.of_args [zip])) "translated_temp").
  set (self3 := Packer.with_target_dir self2 dir).
  assert (Hpos : Nat.ltb 0 (Dict.size (Packer.map_data self3)) = true).
  { unfold self3. destruct self2 as [? ? ? md ? ? ?].
    cbn [Packer.with_target_dir Packer.map_data] in *.
    destruct md; [discriminate|reflexivity]. }
  destruct (Nat.ltb 0 (Packer.file_write_errors _));
    cbn [Packer.processed Packer.self' Packer.out_log]; intros ->;
    rewrite Hpos; cbn [Nat.eqb andb]; rewrite !in_app_iff;
    left; right; right; right; right; left; now left.
Qed.

(** Entries without translation leave the groups empty. *)
Lemma group_entries_untranslated self dir l : forall st,
  (forall e, In e l -> Dict.get (fst e) (Packer.translated_entries self) = None) ->
  Packer.file_to_entries (fold_left (Packer.generate_entry self dir) l st)
  = Packer.file_to_entries st
  /\ Packer.processed_entries (fold_left (Packer.generate_entry self dir) l st)
     = Packer.processed_entries st.
Proof.
  induction l as [|[name path] l IH]; intros st Hnone; [now split|].
  cbn [fold_left].
  destruct (generate_entry_missing self dir st name path
              (Hnone (name, path) (or_introl eq_refl))) as (Hf & _ & Hp).
  destruct (IH (Packer.generate_entry self dir st (name, path))) as [Hf' Hp'].
  { intros e He. apply Hnone. now right. }
  now rewrite Hf', Hp', Hf, Hp.
Qed.

(** X8.  A translated ledger without entries (an empty file, or one
    that does not parse) does not make reconstruction fail: once the
    other inputs are ready it returns success, writes no file at all,
    counts every entry of the map as missing and prints the two
    warnings. *)
Theorem generate_without_translations self fs mkdir_ok can_write :
  let r := Packer.generate self fs mkdir_ok can_write in
  inputs_ready self fs mkdir_ok = true ->
  Packer.translated_entries (Packer.self' r) = Dict.empty ->
  Packer.outcome r = Some true
  /\ Packer.files_written r = []
  /\ Packer.processed r = 0
  /\ Packer.missing r = Dict.size (Packer.map_data (Packer.self' r))
  /\ In (WarnMissingTranslations (Dict.size (Packer.map_data (Packer.self' r))))
        (Packer.out_log r)
  /\ In (WarnProcessedNone (Dict.size (Packer.map_data (Packer.self' r))))
        (Packer.out_log r).
Proof.
  intros r Hr Hempty.
  destruct (generate_ready self fs mkdir_ok can_write Hr)
    as (dir & _ & _ & Hg & Hm & Hp & He & Hw & Ho & Hlog).
  fold r in Hg, Hm, Hp, He, Hw, Ho, Hlog.
  destruct (group_entries_untranslated (Packer.self' r) dir
              (Dict.items (Packer.map_data (Packer.self' r)))
              (Packer.mk_state Dict.empty 0 0 [])) as [Hf Hpr].
  { intros e _. now rewrite Hempty. }
  fold (Packer.group_entries (Packer.self' r) dir) in Hf, Hpr.
  rewrite <- Hg in Hf. rewrite <- Hp in Hpr. cbn in Hf, Hpr.
  rewrite Hf in He, Hw. cbn in He, Hw.
  destruct (group_counts (Packer.self' r) dir
                         (Dict.items (Packer.map_data (Packer.self' r)))
                         (Packer.mk_state Dict.empty 0 0 [])) as [_ Hs].
  fold (Packer.group_entries (Packer.self' r) dir) in Hs.
  rewrite <- Hm, <- Hp, Hpr in Hs. cbn in Hs.
  assert (Hmiss : Packer.missing r = Dict.size (Packer.map_data (Packer.self' r)))
    by (unfold Dict.size, Dict.items in *; lia).
  pose proof (generate_ready_processed_none self fs mkdir_ok can_write Hr Hpr) as Hnone.
  fold r in Hnone.
  split; [now rewrite Ho, He|]. split; [exact Hw|]. split; [exact Hpr|].
  split; [exact Hmiss|]. split; [|exact Hnone].
  rewrite <- Hmiss. apply Hlog. rewrite Hmiss.
  now apply generate_ready_map_nonempty.
Qed.

(** The theorem on the sample map with a translated ledger that does not
    parse. *)
Lemma generate_without_translations_witness :
  let r := Packer.generate Sample.packer MoreSample.fs_broken_ledger true
                           Sample.writable in
  Packer.outcome r = Some true /\ Packer.files_written r = [] /\ Packer.missing r = 3.
Proof.
  destruct (generate_without_translations
              Sample.packer MoreSample.fs_broken_ledger true Sample.writable)
    as (Ho & Hw & _ & Hm & _).
  - reflexivity.
  - reflexivity.
  - exact (conj Ho (conj Hw Hm)).
Defined.

End GenerateMore.

(* ===================================================================== *)
(** ** Absolute paths *)
(* ===================================================================== *)

Section RootedPaths.

Lemma startswith_cons a s c p :
  Str.startswith (String a s) (String c p) = Ascii.eqb c a && Str.startswith s p.
Proof.
  unfold Str.startswith. cbn [prefix].
  destruct (ascii_dec c a) as [->|Hn].
  - now rewrite Ascii.eqb_refl.
  - apply Ascii.eqb_neq in Hn. now rewrite Hn.
Qed.

Lemma startswith_nil s : Str.startswith s "" = true.
Proof. now destruct s. Qed.

Lemma append_empty_r_string s : (s ++ "")%string = s.
Proof. induction s as [|c s IH]; [reflexivity|]. cbn [append]. now rewrite IH. Qed.

Lemma splitroot_rooted r s :
  is_root r -> relative s -> PosixPath.splitroot (r ++ s) = (r, s).
Proof.
  unfold relative. intros [->| ->] Hs; unfold PosixPath.splitroot; cbn [append].
  - rewrite !startswith_cons, ?startswith_nil, ?Hs, ?Ascii.eqb_refl. reflexivity.
  - rewrite !startswith_cons, ?startswith_nil, ?Hs, ?Ascii.eqb_refl. reflexivity.
Qed.

Lemma parse_rooted r s :
  is_root r -> relative s ->
  PosixPath.parse (r ++ s) = PosixPath.mk r (PosixPath.parse_rel s).
Proof. intros Hr Hs. unfold PosixPath.parse. now rewrite splitroot_rooted. Qed.

Lemma parse_well_formed s : well_formed (PosixPath.parse s).
Proof.
  unfold PosixPath.parse, PosixPath.splitroot, well_formed, is_root.
  destruct (negb (Str.startswith s "/")); cbn [PosixPath.root PosixPath.tail].
  - split; [now left|apply parse_rel_segments].
  - destruct (negb (Str.startswith s "//") || Str.startswith s "///");
      cbn [PosixPath.root PosixPath.tail];
      (split; [right; auto|apply parse_rel_segments]).
Qed.

Lemma endswith_char_app a b c :
  b <> ""%string -> Str.endswith_char (a ++ b) c = Str.endswith_char b c.
Proof.
  intros Hb. induction a as [|d a IH]; [reflexivity|].
  cbn [append Str.endswith_char].
  destruct (a ++ b)%string eqn:E; [|exact IH].
  destruct a; [simpl in E; congruence|discriminate].
Qed.

Lemma root_endswith r : is_root r -> Str.endswith_char r "/" = true.
Proof. now intros [->| ->]. Qed.

Lemma root_not_empty r s : is_root r -> Str.is_empty (r ++ s) = false.
Proof. now intros [->| ->]. Qed.

(** One step of [posixpath.join] under a root. *)
Lemma join2_rooted r s b :
  is_root r -> relative b ->
  PosixPath.join2 (r ++ s) b = (r ++ PosixPath.join2 s b)%string.
Proof.
  intros Hr Hb. unfold PosixPath.join2. rewrite Hb, (root_not_empty r s Hr).
  cbn [orb]. destruct s as [|c s].
  - rewrite append_empty_r_string, (root_endswith r Hr). reflexivity.
  - rewrite endswith_char_app by discriminate. cbn [Str.is_empty orb].
    destruct (Str.endswith_char (String c s) "/"); now rewrite append_assoc.
Qed.

Lemma join_rooted r bs : forall s,
  is_root r -> Forall relative bs ->
  PosixPath.join (r ++ s) bs = (r ++ PosixPath.join s bs)%string.
Proof.
  unfold PosixPath.join. induction bs as [|b bs IH]; intros s Hr Hbs; [reflexivity|].
  inversion Hbs; subst. cbn [fold_left].
  rewrite join2_rooted by assumption. now apply IH.
Qed.

(** The constructor applied to a root and relative arguments. *)
Lemma of_args_rooted r args :
  is_root r -> Forall relative args ->
  PosixPath.of_args (r :: args)
  = PosixPath.mk r (flat_map PosixPath.parse_rel args).
Proof.
  intros Hr Hargs. unfold PosixPath.of_args.
  rewrite <- (append_empty_r_string r) at 1.
  rewrite join_rooted by assumption.
  destruct (join_relative "" args eq_refl Hargs) as [Hrel Hparse].
  now rewrite parse_rooted, Hparse by assumption.
Qed.

Lemma str_rooted r tl :
  is_root r ->
  PosixPath.str (PosixPath.mk r tl) = (r ++ String.concat "/" tl)%string.
Proof. now intros [->| ->]. Qed.

Lemma concat_segments_any tl :
  Forall PosixPath.segment tl ->
  PosixPath.parse_rel (String.concat "/" tl) = tl
  /\ relative (String.concat "/" tl).
Proof.
  intros H. destruct tl as [|x tl]; [split; reflexivity|].
  now apply concat_segments.
Qed.

(** [str] followed by the parser gives the path back. *)
Lemma parse_str p : well_formed p -> PosixPath.parse (PosixPath.str p) = p.
Proof.
  destruct p as [r tl]. intros [[Hr|Hr] Htl]; cbn [PosixPath.root PosixPath.tail] in *.
  - subst r. destruct (str_relative tl Htl) as [Hp Hrel].
    now rewrite (parse_relative _ Hrel), Hp.
  - destruct (concat_segments_any tl Htl) as [Hp Hrel].
    now rewrite str_rooted, parse_rooted, Hp by assumption.
Qed.

Lemma str_rooted_absolute r tl :
  is_root r -> Str.startswith (PosixPath.str (PosixPath.mk r tl)) "/" = true.
Proof.
  intros Hr. rewrite str_rooted by assumption.
  destruct Hr as [->| ->]; cbn [append]; now rewrite startswith_cons, startswith_nil.
Qed.

(** [path / key] under a root, for a relative key. *)
Lemma div_rooted r tl key :
  is_root r -> Forall PosixPath.segment tl -> relative key ->
  PosixPath.div (PosixPath.mk r tl) key
  = PosixPath.mk r (tl ++ PosixPath.parse_rel key).
Proof.
  intros Hr Htl Hkey. unfold PosixPath.div, PosixPath.of_args, PosixPath.join.
  cbn [fold_left]. rewrite str_rooted by assumption.
  destruct (concat_segments_any tl Htl) as [Hp Hrel].
  rewrite join2_rooted by assumption.
  rewrite parse_rooted by (try assumption; now apply join2_relative).
  now rewrite parse_rel_join2, Hp by assumption.
Qed.

(** Joining a path with an absolute one gives the absolute one. *)
Lemma div_path_absolute p q :
  well_formed q -> is_root (PosixPath.root q) -> PosixPath.div_path p q = q.
Proof.
  intros Hq Hr. unfold PosixPath.div_path, PosixPath.of_args, PosixPath.join.
  cbn [fold_left]. unfold PosixPath.join2.
  destruct q as [r tl]. cbn [PosixPath.root] in Hr.
  rewrite (str_rooted_absolute r tl Hr). now apply parse_str.
Qed.

(** Joining a path with a relative one appends the components. *)
Lemma div_path_relative p q :
  well_formed p -> well_formed q -> PosixPath.root q = ""%string ->
  PosixPath.div_path p q
  = PosixPath.mk (PosixPath.root p) (PosixPath.tail p ++ PosixPath.tail q).
Proof.
  destruct p as [r tl], q as [r' tl']. cbn [PosixPath.root PosixPath.tail].
  intros [Hr Htl] [_ Htl'] ->. cbn [PosixPath.root PosixPath.tail] in *.
  destruct (str_relative tl' Htl') as [Hq Hqrel].
  unfold PosixPath.div_path, PosixPath.of_args, PosixPath.join. cbn [fold_left].
  destruct Hr as [->|Hr].
  - destruct (str_relative tl Htl) as [Hp Hprel].
    rewrite parse_relative by (now apply join2_relative).
    now rewrite parse_rel_join2, Hp, Hq by assumption.
  - destruct (concat_segments_any tl Htl) as [Hp Hprel].
    rewrite str_rooted, join2_rooted by assumption.
    rewrite parse_rooted by (try assumption; now apply join2_relative).
    now rewrite parse_rel_join2, Hp, Hq by assumption.
Qed.

Lemma splitroot_absolute s :
  Str.startswith s "/" = true -> is_root (fst (PosixPath.splitroot s)).
Proof.
  intros H. unfold PosixPath.splitroot, is_root. rewrite H. cbn [negb].
  destruct (negb (Str.startswith s "//") || Str.startswith s "///"); auto.
Qed.

Lemma parts_rooted r tl :
  is_root r -> PosixPath.parts (PosixPath.mk r tl) = r :: tl.
Proof. now intros [->| ->]. Qed.

Lemma root_not_marker tag r : is_root r -> spec_rewrite_segment tag r = r.
Proof. now intros [->| ->]. Qed.

(** The shape of the rewritten path for an absolute original path: the
    root is kept and the components are rewritten as for a relative
    one. *)
Lemma target_relative_path_rooted tag path :
  Str.startswith path "/" = true ->
  let r := fst (PosixPath.splitroot path) in
  let tl := PosixPath.parse_rel (snd (PosixPath.splitroot path)) in
  fst (AutoTranslator.Packer.target_relative_path tag path)
  = PosixPath.mk r
      (flat_map PosixPath.parse_rel
                (map (spec_rewrite_segment tag) (removelast tl))
         ++ PosixPath.parse_rel (last tl "")).
Proof.
  intros Habs r tl. pose proof (splitroot_absolute path Habs) as Hr. fold r in Hr.
  unfold AutoTranslator.Packer.target_relative_path.
  assert (Horig : PosixPath.of_args [path] = PosixPath.mk r tl).
  { unfold PosixPath.of_args, PosixPath.join, PosixPath.parse. cbn [fold_left].
    subst r tl. now destruct (PosixPath.splitroot path). }
  pose proof (parse_rel_segments (snd (PosixPath.splitroot path))) as Hseg.
  fold tl in Hseg. clearbody r tl.
  rewrite Horig.
  unfold PosixPath.parent, PosixPath.name.
  cbn [PosixPath.root PosixPath.tail].
  rewrite parts_rooted by exact Hr.
  rewrite rewrite_loop. cbn [app orb map fst].
  rewrite (root_not_marker tag r Hr).
  pose proof (removelast_segments _ Hseg) as Hdirs.
  rewrite of_args_rooted; [|exact Hr|].
  2:{ rewrite Forall_map. eapply Forall_impl; [|exact Hdirs].
      intros seg. apply rewritten_relative. }
  rewrite div_rooted; [reflexivity|exact Hr|apply flat_map_segments|].
  destruct tl as [|x tl']; [reflexivity|].
  apply segment_relative, last_segment; [exact Hseg|discriminate].
Qed.

Lemma target_relative_path_well_formed tag path :
  well_formed (fst (AutoTranslator.Packer.target_relative_path tag path)).
Proof.
  destruct (Str.startswith path "/") eqn:Habs.
  - rewrite (target_relative_path_rooted tag path Habs).
    split; cbn [PosixPath.root PosixPath.tail].
    + right. now apply splitroot_absolute.
    + apply Forall_app. split; [apply flat_map_segments|apply parse_rel_segments].
  - rewrite (target_relative_path_shape tag path Habs).
    split; cbn [PosixPath.root PosixPath.tail fst].
    + now left.
    + apply Forall_app. split; [apply flat_map_segments|apply parse_rel_segments].
Qed.

(** X9.  When the provenance map gives an absolute path for a name that
    has a translation, the grouping loop of reconstruction files the
    entry under a key that is the rewritten path itself: the key is
    absolute, keeps the root of the original path, and is the same
    whatever the scratch directory is, so the file is written outside
    the scratch directory that is later archived. *)
Theorem absolute_path_leaves_scratch_dir
        (self : AutoTranslator.Packer.t) (name path text : string) :
  Str.startswith path "/" = true ->
  Dict.get name (AutoTranslator.Packer.translated_entries self) = Some text ->
  let target :=
    fst (AutoTranslator.Packer.target_relative_path
           (AutoTranslator.Packer.target_lang_suffix self) path) in
  Str.startswith (PosixPath.str target) "/" = true
  /\ PosixPath.root target = fst (PosixPath.splitroot path)
  /\ forall dir st,
       exists group,
         Dict.get (PosixPath.str target)
                  (AutoTranslator.Packer.file_to_entries
                     (AutoTranslator.Packer.generate_entry self dir st (name, path)))
         = Some group
         /\ Dict.get name group = Some text.
Proof.
  intros Habs Htr target.
  pose proof (target_relative_path_rooted
                (AutoTranslator.Packer.target_lang_suffix self) path Habs) as Hshape.
  cbv zeta in Hshape. fold target in Hshape.
  pose proof (splitroot_absolute path Habs) as Hr.
  pose proof (target_relative_path_well_formed
                (AutoTranslator.Packer.target_lang_suffix self) path) as Hwf.
  fold target in Hwf.
  assert (Hroot : PosixPath.root target = fst (PosixPath.splitroot path))
    by now rewrite Hshape.
  split; [|split; [exact Hroot|]].
  - destruct target as [r tl]. cbn [PosixPath.root] in Hroot. subst r.
    now apply str_rooted_absolute.
  - intros dir st. unfold AutoTranslator.Packer.generate_entry.
    destruct (AutoTranslator.Packer.target_relative_path
                (AutoTranslator.Packer.target_lang_suffix self) path)
      as [tgt found] eqn:E.
    cbn [fst] in target. subst target.
    rewrite Htr. cbn [AutoTranslator.Packer.file_to_entries].
    rewrite div_path_absolute by (try exact Hwf; now rewrite Hroot).
    eexists. split; [apply get_set_eq|apply get_set_eq].
Qed.

Lemma absolute_path_leaves_scratch_dir_witness :
  Str.startswith (PosixPath.str
    (fst (AutoTranslator.Packer.target_relative_path "fr" "/etc/values/s.xml"))) "/"
  = true
  /\ PosixPath.str
       (fst (AutoTranslator.Packer.target_relative_path "fr" "/etc/values/s.xml"))
     = "/etc/values-fr/s.xml"%string.
Proof.
  pose proof (absolute_path_leaves_scratch_dir
                (AutoTranslator.Packer.mk (Some "out/tr.xml") (Some "out/map.txt")
                   (Some "out/fr.zip") [("k1", "/etc/values/s.xml")]
                   [("k1", "Salut")] "fr" None)
                "k1" "/etc/values/s.xml" "Salut" eq_refl eq_refl) as H.
  cbv zeta in H. destruct H as [Ha _].
  split; [exact Ha|reflexivity].
Defined.

(** X10.  For a relative original path the key of the grouping loop is
    the scratch directory followed by the components of the rewritten
    path: the root and the components of the scratch directory are
    kept in front. *)
Theorem relative_path_stays_under_scratch_dir
        (self : AutoTranslator.Packer.t) (dir : PosixPath.t) (path : string) :
  relative path ->
  well_formed dir ->
  let target :=
    fst (AutoTranslator.Packer.target_relative_path
           (AutoTranslator.Packer.target_lang_suffix self) path) in
  target_file_key self dir path
  = PosixPath.str (PosixPath.mk (PosixPath.root dir)
                                (PosixPath.tail dir ++ PosixPath.tail target))
  /\ PosixPath.parse (target_file_key self dir path)
     = PosixPath.mk (PosixPath.root dir)
                    (PosixPath.tail dir ++ PosixPath.tail target).
Proof.
  intros Hrel Hdir target.
  pose proof (target_relative_path_well_formed
                (AutoTranslator.Packer.target_lang_suffix self) path) as Hwf.
  fold target in Hwf.
  assert (Hroot : PosixPath.root target = ""%string).
  { subst target. now rewrite (target_relative_path_shape _ path Hrel). }
  unfold target_file_key. fold target.
  rewrite div_path_relative by assumption.
  split; [reflexivity|]. apply parse_str.
  destruct Hdir as [Hr Htl], Hwf as [_ Htl'].
  split; cbn [PosixPath.root PosixPath.tail]; [exact Hr|].
  apply Forall_app. now split.
Qed.

Lemma relative_path_stays_under_scratch_dir_witness :
  target_file_key Sample.packer (PosixPath.parse "out/translated_temp")
                  "a/values/s.xml"
  = "out/translated_temp/a/values-fr/s.xml"%string.
Proof.
  destruct (relative_path_stays_under_scratch_dir
              Sample.packer (PosixPath.parse "out/translated_temp")
              "a/values/s.xml" eq_refl
              (parse_well_formed "out/translated_temp")) as [H _].
  rewrite H. reflexivity.
Defined.

End RootedPaths.

(* ===================================================================== *)
(** ** Translation that runs to its end *)
(* ===================================================================== *)

Section TranslateComplete.
Import AutoTranslator.

Variable progress_callback : bool.
Variable stop_event : option (nat -> bool).
Variable translate : nat -> string -> translation.

Lemma translated_from_keys items : forall i,
  Dict.keys (translated_from translate i items) = map fst items.
Proof.
  induction items as [|[name text] items IH]; intros i; [reflexivity|].
  cbn [translated_from map fst]. unfold Dict.keys in *. cbn [map fst].
  now rewrite IH.
Qed.

Lemma translated_from_in items name text : forall i,
  In (name, text) items ->
  exists j, i <= j < i + List.length items
            /\ In (name, kept_text translate j text)
                  (translated_from translate i items).
Proof.
  induction items as [|[n t] items IH]; intros i Hin; [destruct Hin|].
  cbn [translated_from List.length]. destruct Hin as [E|Hin].
  - injection E as -> ->. exists i. split; [lia|now left].
  - destruct (IH (S i) Hin) as (j & Hj & Hj'). exists j. split; [lia|now right].
Qed.

(** One pass of the loop body, when the flag is not set: the entry is
    stored under its name with the text [kept_text] gives, and one of the
    two counters grows. *)
Lemma translate_loop_step i total name text rest st :
  stop_requested stop_event i = false ->
  exists st1,
    translate_loop progress_callback stop_event translate i total
                   ((name, text) :: rest) st
    = translate_loop progress_callback stop_event translate (S i) total rest st1
    /\ translated_entries st1
       = Dict.set name (kept_text translate i text) (translated_entries st)
    /\ translated_count st1 + error_count st1
       = S (translated_count st + error_count st).
Proof.
  intros Hstop. cbn [translate_loop]. rewrite Hstop. unfold kept_text.
  destruct (Str.is_empty text || Str.isspace text).
  - eexists. split; [reflexivity|]. cbn. split; [reflexivity|lia].
  - destruct (translate i text); eexists; (split; [reflexivity|]);
      cbn; (split; [reflexivity|lia]).
Qed.

(** Without cancellation the loop stores every entry, in order. *)
Lemma translate_loop_complete total items : forall i st,
  (forall j, i <= j < i + List.length items ->
             stop_requested stop_event j = false) ->
  NoDup (map fst items) ->
  (forall name, In name (map fst items) ->
                ~ In name (Dict.keys (translated_entries st))) ->
  exists st',
    translate_loop progress_callback stop_event translate i total items st
    = (st', false)
    /\ translated_entries st'
       = translated_entries st ++ translated_from translate i items
    /\ translated_count st' + error_count st'
       = translated_count st + error_count st + List.length items.
Proof.
  induction items as [|[name text] items IH]; intros i st Hstop Hnd Hfresh.
  - exists st. cbn. rewrite app_nil_r. repeat split; lia.
  - cbn [map fst] in Hnd, Hfresh. inversion Hnd as [|x l Hx Hl]; subst.
    destruct (translate_loop_step i total name text items st) as (st1 & E & Ht & Hc).
    { apply Hstop. cbn [List.length]. lia. }
    rewrite E.
    assert (Hset : translated_entries st1
                   = translated_entries st ++ [(name, kept_text translate i text)]).
    { rewrite Ht. apply set_fresh. apply Hfresh. now left. }
    destruct (IH (S i) st1) as (st' & E' & Ht' & Hc').
    + intros j Hj. apply Hstop. cbn [List.length]. lia.
    + exact Hl.
    + intros n Hn. rewrite Hset. unfold Dict.keys. rewrite map_app, in_app_iff.
      intros [Hin|[<-|[]]]; [|exact (Hx Hn)].
      apply (Hfresh n); [now right|exact Hin].
    + exists st'. split; [exact E'|]. split.
      * rewrite Ht', Hset, <- app_assoc. reflexivity.
      * cbn [List.length]. lia.
Qed.

End TranslateComplete.

Section TranslateXmlMore.
Import AutoTranslator.

(** X11.  When the source ledger has entries, the translation service
    could be set up, the stop flag is never found set and the target can
    be written, the translation stage returns success and writes the
    ledger of a dictionary that has the names of the source ledger in
    the same order; a blank text is kept as it is, and every other text
    is either the answer of the service for it or the original text. *)
Theorem translate_xml_complete
        (source_xml target_xml target_language source_language : string)
        (progress_callback : bool) (stop_event : option (nat -> bool))
        (fs : string -> option string) (translator_init_ok : bool)
        (translate : nat -> string -> translation) (can_write : string -> bool) :
  let source_entries := fst (XMLHandler.read_entries source_xml (fs source_xml)) in
  let r := translate_xml source_xml target_xml target_language source_language
                         progress_callback stop_event fs translator_init_ok
                         translate can_write in
  exists_in fs source_xml = true ->
  Dict.is_empty source_entries = false ->
  translator_init_ok = true ->
  (forall poll, poll <= Dict.size source_entries ->
                stop_requested stop_event poll = false) ->
  can_write target_xml = true ->
  exists translated,
    returned r = true
    /\ target_written r = Some (target_xml, XMLHandler.encode translated)
    /\ Dict.keys translated = Dict.keys source_entries
    /\ forall name text,
         Dict.get name source_entries = Some text ->
         exists text',
           Dict.get name translated = Some text'
           /\ (Str.is_empty text || Str.isspace text = true -> text' = text)
           /\ (text' = text
               \/ exists i, i < Dict.size source_entries
                            /\ translate i text = Translated text').
Proof.
  intros source_entries r Hex Hne Hinit Hstop Hw.
  pose proof (read_entries_nodup source_xml (fs source_xml)) as Hnd.
  fold source_entries in Hnd.
  exists (translated_from translate 0 (Dict.items source_entries)).
  unfold r, translate_xml. rewrite Hex. cbn [negb].
  destruct (XMLHandler.read_entries source_xml (fs source_xml))
    as [entries read_log] eqn:E.
  cbn [fst] in source_entries. subst source_entries.
  rewrite Hne, Hinit. cbn [negb].
  match goal with
  | |- context [translate_loop _ _ _ 0 _ _ ?st0] =>
      destruct (translate_loop_complete progress_callback stop_event translate
                  (Dict.size entries) (Dict.items entries) 0 st0)
        as (st' & El & Ht & _)
  end.
  - intros j Hj. apply Hstop. unfold Dict.items, Dict.size in *. lia.
  - exact Hnd.
  - intros name _ [].
  - rewrite El. rewrite (Hstop (Dict.size entries)) by lia.
    unfold XMLHandler.write_entries. rewrite Hw.
    cbn [translated_entries app] in Ht. rewrite Ht.
    cbn [returned target_written].
    split; [reflexivity|]. split; [reflexivity|].
    split; [apply translated_from_keys|].
    intros name text Hget.
    destruct (translated_from_in translate (Dict.items entries) name text 0
                (get_some_in _ _ _ Hget)) as (j & Hj & Hin).
    exists (kept_text translate j text). split; [|split].
    + apply in_get_some; [|exact Hin].
      rewrite translated_from_keys. exact Hnd.
    + unfold kept_text. now intros ->.
    + unfold kept_text. destruct (Str.is_empty text || Str.isspace text); [now left|].
      destruct (translate j text) eqn:Et; try now left.
      right. exists j. split; [|exact Et].
      unfold Dict.items, Dict.size in *. lia.
Qed.

Lemma translate_xml_complete_witness :
  exists translated,
    returned (translate_xml "out/tr.xml" "out/zh.xml" "zh-CN" "en" true None
                            Sample.fs true Sample.translate Sample.writable)
    = true
    /\ target_written
         (translate_xml "out/tr.xml" "out/zh.xml" "zh-CN" "en" true None
                        Sample.fs true Sample.translate Sample.writable)
       = Some ("out/zh.xml"%string, XMLHandler.encode translated)
    /\ Dict.keys translated = ["k1"; "k2"]%string.
Proof.
  destruct (translate_xml_complete
              "out/tr.xml" "out/zh.xml" "zh-CN" "en" true None
              Sample.fs true Sample.translate Sample.writable
              eq_refl eq_refl eq_refl (fun _ _ => eq_refl) eq_refl)
    as (translated & Hr & Hw & Hk & _).
  exists translated. split; [exact Hr|]. split; [exact Hw|exact Hk].
Defined.

(** X12.  A source ledger that exists but is not well-formed XML is
    read as a ledger without entries: the translation stage logs the
    parse error, writes an empty target ledger and returns success,
    whatever the stop flag and the translation service do. *)
Theorem translate_xml_unparsable_source
        (source_xml target_xml target_language source_language : string)
        (progress_callback : bool) (stop_event : option (nat -> bool))
        (fs : string -> option string) (translator_init_ok : bool)
        (translate : nat -> string -> translation) (can_write : string -> bool)
        (text : string) :
  let r := translate_xml source_xml target_xml target_language source_language
                         progress_callback stop_event fs translator_init_ok
                         translate can_write in
  fs source_xml = Some text ->
  ElementTree.parse text = None ->
  can_write target_xml = true ->
  returned r = true
  /\ target_written r = Some (target_xml, XMLHandler.encode Dict.empty)
  /\ In (ErrXmlParse source_xml) (result_log r)
  /\ In WarnNoSourceEntries (result_log r).
Proof.
  intros r Hfs Hparse Hw. unfold r, translate_xml, exists_in.
  rewrite Hfs. cbn [negb]. unfold XMLHandler.read_entries. rewrite Hparse.
  cbn [Dict.is_empty Dict.empty]. unfold XMLHandler.write_entries. rewrite Hw.
  cbn [returned target_written result_log].
  split; [reflexivity|]. split; [reflexivity|].
  split; rewrite !in_app_iff; cbn [In]; tauto.
Qed.

Lemma translate_xml_unparsable_source_witness :
  returned (translate_xml "out/tr.xml" "out/zh.xml" "zh-CN" "en" true
                          (Some (fun _ => true)) MoreSample.fs_broken_ledger false
                          Sample.translate Sample.writable)
  = true
  /\ target_written
       (translate_xml "out/tr.xml" "out/zh.xml" "zh-CN" "en" true
                      (Some (fun _ => true)) MoreSample.fs_broken_ledger false
                      Sample.translate Sample.writable)
     = Some ("out/zh.xml"%string, XMLHandler.encode Dict.empty).
Proof.
  destruct (translate_xml_unparsable_source
              "out/tr.xml" "out/zh.xml" "zh-CN" "en" true
              (Some (fun _ => true)) MoreSample.fs_broken_ledger false
              Sample.translate Sample.writable "<resources>"
              eq_refl eq_refl eq_refl) as (Hr & Hw & _).
  split; [exact Hr|exact Hw].
Defined.

End TranslateXmlMore.

(* ===================================================================== *)
(** ** More on the older variant *)
(* ===================================================================== *)

Section FbMore.
Import FbTranslator.

Lemma assign_middle {A : Type} (l : list A) x y rest :
  assign (List.length l) x (l ++ y :: rest) = l ++ x :: rest.
Proof.
  induction l as [|a l IH]; [reflexivity|].
  cbn [List.length app assign]. now rewrite IH.
Qed.

Lemma of_args_segments l :
  Forall PosixPath.segment l -> PosixPath.of_args l = PosixPath.mk "" l.
Proof.
  intros H. rewrite of_args_relative.
  - now rewrite flat_map_parse_segments.
  - eapply Forall_impl; [|exact H]. intros x. apply segment_relative.
Qed.

(** A folder name that starts with the marker, followed by a dash and a
    suffix without slash, is one path component. *)
Lemma suffixed_segment folder suffix :
  Str.startswith folder "values" = true ->
  Str.contains_char "/" folder = false ->
  Str.contains_char "/" suffix = false ->
  PosixPath.segment (folder ++ "-" ++ suffix).
Proof.
  intros Hm Hf Hs. split.
  - destruct folder as [|c f]; [discriminate|].
    change "values"%string with (String "v" "alues") in Hm.
    rewrite startswith_cons in Hm. apply andb_prop in Hm as [Hc _].
    apply Ascii.eqb_eq in Hc. subst c. reflexivity.
  - rewrite !contains_char_app, Hf, Hs. reflexivity.
Qed.

(** The closed form of [modify_folder_name] on a relative path of at
    least two components. *)
Lemma modify_folder_name_relative
        (self : Packer.t) (dirs : list string) (folder name : string) :
  Forall PosixPath.segment (dirs ++ [folder; name]) ->
  Str.contains_char "/" (Packer.lang_suffix self) = false ->
  Packer.modify_folder_name self (PosixPath.mk "" (dirs ++ [folder; name]))
  = Ok (PosixPath.mk ""
          (dirs ++ [if Str.startswith folder "values"
                    then (folder ++ "-" ++ Packer.lang_suffix self)%string
                    else folder; name])).
Proof.
  intros Hseg Hsuffix. unfold Packer.modify_folder_name, PosixPath.parts.
  cbn [PosixPath.root PosixPath.tail].
  assert (Hlen : List.length (dirs ++ [folder; name]) = List.length dirs + 2)
    by (rewrite length_app; reflexivity).
  rewrite Hlen.
  replace (Nat.ltb (List.length dirs + 2) 2) with false
    by (symmetry; apply Nat.ltb_ge; lia).
  replace (List.length dirs + 2 - 2) with (List.length dirs) by lia.
  rewrite nth_middle.
  destruct (Str.startswith folder "values") eqn:Hm.
  - rewrite assign_middle. f_equal. apply of_args_segments.
    apply Forall_app in Hseg as [Hd Hrest].
    inversion Hrest as [|x l Hfolder Hname]; subst.
    apply Forall_app. split; [exact Hd|]. constructor; [|exact Hname].
    apply suffixed_segment; [exact Hm|apply Hfolder|exact Hsuffix].
  - f_equal. now apply of_args_segments.
Qed.

(** X13.  For a relative path of at least two components, the older
    variant's [modify_folder_name] looks at the folder of the file only:
    when its name starts with "values" the suffix is appended to it
    after a dash, otherwise the path is returned as it is; every other
    component is kept, whatever it starts with. *)
Theorem modify_folder_name_shape
        (self : Packer.t) (dirs : list string) (folder name : string) :
  Forall PosixPath.segment (dirs ++ [folder; name]) ->
  Str.contains_char "/" (Packer.lang_suffix self) = false ->
  Packer.modify_folder_name self (PosixPath.mk "" (dirs ++ [folder; name]))
  = Ok (PosixPath.mk ""
          (dirs ++ [if Str.startswith folder "values"
                    then (folder ++ "-" ++ Packer.lang_suffix self)%string
                    else folder; name])).
Proof. apply modify_folder_name_relative. Qed.

Lemma modify_folder_name_shape_witness :
  Packer.modify_folder_name
    Sample.fb_packer (PosixPath.mk "" ["values"; "values-en"; "s.xml"]%string)
  = Ok (PosixPath.mk "" ["values"; "values-en-fr"; "s.xml"]%string).
Proof.
  apply (modify_folder_name_shape Sample.fb_packer ["values"%string]
           "values-en" "s.xml").
  - repeat constructor.
  - reflexivity.
Defined.

(** The lines that hold records are loaded in order: each adds its path
    after those its name already has. *)
Lemma load_lines_records good records :
  Forall2 splits_to good records ->
  forall e,
  exists e',
    (forall l, Packer.load_lines e (good ++ l) = Packer.load_lines e' l)
    /\ forall key, paths_of key e' = paths_of key e ++ record_paths key records.
Proof.
  induction 1 as [|line [k v] good records Hline Hrest IH]; intros e.
  - exists e. split; [reflexivity|]. intros key. unfold record_paths. cbn.
    now rewrite app_nil_r.
  - unfold splits_to in Hline. cbn [fst snd] in Hline.
    destruct (IH (Dict.set k (paths_of k e ++ [PosixPath.of_args [v]]) e))
      as (e' & Hrun & Hpaths).
    exists e'. split.
    + intros l. cbn [app Packer.load_lines]. unfold Packer.load_line.
      rewrite Hline. fold (paths_of k e). apply Hrun.
    + intros key. rewrite Hpaths. unfold record_paths.
      cbn [filter fst snd]. unfold paths_of at 1.
      destruct (String.eqb_spec k key) as [->|Hne].
      * rewrite get_set_eq. cbn [map snd]. now rewrite <- app_assoc.
      * rewrite get_set_neq by exact Hne. reflexivity.
Qed.

Lemma load_line_bad e line :
  List.length (split_colons (Str.strip line)) <> 2 ->
  Packer.load_line e line = Raise ValueError.
Proof.
  intros H. unfold Packer.load_line.
  destruct (split_colons (Str.strip line)) as [|a [|b [|c l]]]; try reflexivity.
  now contradiction H.
Qed.

(** X14.  When every line of the map file holds one record, the older
    variant's [load_map] succeeds and gives each name the paths it had
    before followed by the paths of its records, in the order of the
    file: a name with several records keeps all of them, and entries
    that were already loaded are added to, not replaced. *)
Theorem load_map_collects_paths
        (self : Packer.t) (fs : string -> option string)
        (mapf : PosixPath.t) (text : string) (records : list (string * string)) :
  Packer.map_file self = Some mapf ->
  fs (PosixPath.str mapf) = Some text ->
  Forall2 splits_to (AutoTranslator.Unpacker.file_lines text) records ->
  fst (Packer.load_map self fs) = true
  /\ forall key,
       paths_of key (Packer.entries (snd (Packer.load_map self fs)))
       = paths_of key (Packer.entries self) ++ record_paths key records.
Proof.
  intros Hmap Hfs Hlines. unfold Packer.load_map. rewrite Hmap, Hfs.
  destruct (load_lines_records _ _ Hlines (Packer.entries self))
    as (e' & Hrun & Hpaths).
  specialize (Hrun []). rewrite app_nil_r in Hrun. rewrite Hrun.
  cbn [Packer.load_lines fst snd Packer.with_entries Packer.entries].
  split; [reflexivity|exact Hpaths].
Qed.

Lemma load_map_collects_paths_witness :
  fst (Packer.load_map (FbSample.packer "two") FbSample.fs) = true
  /\ paths_of "k1" (Packer.entries
                      (snd (Packer.load_map (FbSample.packer "two") FbSample.fs)))
     = [PosixPath.of_args ["a/values/s.xml"%string];
        PosixPath.of_args ["b/values/s.xml"%string]].
Proof.
  assert (Hlines : Forall2 splits_to
                     (AutoTranslator.Unpacker.file_lines FbSample.two_origins_map)
                     [("k1", "a/values/s.xml"); ("k1", "b/values/s.xml")]%string).
  { change (AutoTranslator.Unpacker.file_lines FbSample.two_origins_map)
      with ["k1::a/values/s.xml"; "k1::b/values/s.xml"]%string.
    constructor; [reflexivity|constructor; [reflexivity|constructor]]. }
  destruct (load_map_collects_paths
              (FbSample.packer "two") FbSample.fs (PosixPath.of_args ["two"%string])
              FbSample.two_origins_map
              [("k1", "a/values/s.xml"); ("k1", "b/values/s.xml")]%string
              eq_refl eq_refl Hlines)
    as [Hok Hpaths].
  split; [exact Hok|]. rewrite Hpaths. reflexivity.
Defined.

(** X15.  A line of the map file that does not split at "::" into
    exactly two parts, such as a blank line, ends the older variant's
    [load_map] with the failed result; the records of the lines before
    it stay loaded and the lines after it are not read. *)
Theorem load_map_stops_at_bad_line
        (self : Packer.t) (fs : string -> option string)
        (mapf : PosixPath.t) (text : string)
        (good : list string) (records : list (string * string))
        (bad : string) (rest : list string) :
  Packer.map_file self = Some mapf ->
  fs (PosixPath.str mapf) = Some text ->
  AutoTranslator.Unpacker.file_lines text = good ++ bad :: rest ->
  Forall2 splits_to good records ->
  List.length (split_colons (Str.strip bad)) <> 2 ->
  fst (Packer.load_map self fs) = false
  /\ forall key,
       paths_of key (Packer.entries (snd (Packer.load_map self fs)))
       = paths_of key (Packer.entries self) ++ record_paths key records.
Proof.
  intros Hmap Hfs Hlines Hgood Hbad. unfold Packer.load_map.
  rewrite Hmap, Hfs, Hlines.
  destruct (load_lines_records _ _ Hgood (Packer.entries self))
    as (e' & Hrun & Hpaths).
  rewrite Hrun. cbn [Packer.load_lines]. rewrite (load_line_bad e' bad Hbad).
  cbn [fst snd Packer.with_entries Packer.entries].
  split; [reflexivity|exact Hpaths].
Qed.

Lemma load_map_stops_at_bad_line_witness :
  fst (Packer.load_map (FbSample.packer "blank") FbSample.fs) = false
  /\ paths_of "k1" (Packer.entries
                      (snd (Packer.load_map (FbSample.packer "blank") FbSample.fs)))
     = [PosixPath.of_args ["res/values/strings.xml"%string]]
  /\ paths_of "k2" (Packer.entries
                      (snd (Packer.load_map (FbSample.packer "blank") FbSample.fs)))
     = [].
Proof.
  assert (Hgood : Forall2 splits_to ["k1::res/values/strings.xml"%string]
                    [("k1", "res/values/strings.xml")]%string)
    by (constructor; [reflexivity|constructor]).
  assert (Hbad : List.length (split_colons (Str.strip "")) <> 2)
    by (vm_compute; lia).
  destruct (load_map_stops_at_bad_line
              (FbSample.packer "blank") FbSample.fs
              (PosixPath.of_args ["blank"%string]) FbSample.blank_line_map
              ["k1::res/values/strings.xml"%string]
              [("k1", "res/values/strings.xml")]%string
              ""%string ["k2::res/values/strings.xml"%string]
              eq_refl eq_refl eq_refl Hgood Hbad)
    as [Hok Hpaths].
  split; [exact Hok|]. split; rewrite Hpaths; reflexivity.
Defined.

(** X16.  In the older variant a name of the loaded map that has no
    entry in the translated ledger makes the whole reconstruction fail:
    the step for it raises, and [generate] returns the failed result
    instead of skipping the name. *)
Theorem generate_missing_translation_aborts
        (self : Packer.t) (fs : string -> option string)
        (mkdir_ok can_write : string -> bool)
        (key : string) (paths : list PosixPath.t) (path : PosixPath.t)
        (text : string) (root : ElementTree.element) :
  In (key, paths) (Dict.items (Packer.entries (snd (Packer.load_map self fs)))) ->
  In path paths ->
  fs (PosixPath.str (Packer.in_xml self)) = Some text ->
  ElementTree.parse text = Some root ->
  ElementTree.find_string root key = None ->
  fst (fst (Packer.generate self fs mkdir_ok can_write)) = false.
Proof.
  intros Hin Hpath Hfs Hparse Hnone.
  now apply (older_generate_missing self fs mkdir_ok can_write key paths path
               text root).
Qed.

Lemma generate_missing_translation_aborts_witness :
  fst (fst (Packer.generate (FbSample.packer "mapping") FbSample.fs
                            (fun _ => true) (fun _ => true))) = false
  /\ snd (Packer.generate (FbSample.packer "mapping") FbSample.fs
                          (fun _ => true) (fun _ => true))
         "fr/res/values-fr/strings.xml"%string
     <> None.
Proof.
  split.
  - apply (generate_missing_translation_aborts
             (FbSample.packer "mapping") FbSample.fs (fun _ => true) (fun _ => true)
             "k9"%string [PosixPath.of_args ["res/values/strings.xml"%string]]
             (PosixPath.of_args ["res/values/strings.xml"%string])
             (ElementTree.write Sample.fb_ledger) Sample.fb_ledger).
    + vm_compute. right. now left.
    + now left.
    + reflexivity.
    + vm_compute. reflexivity.
    + reflexivity.
  - vm_compute. discriminate.
Defined.

End FbMore.

(* ===================================================================== *)
(** ** Writing a ledger and reading it back *)
(* ===================================================================== *)

Section RoundTrip.
Import AutoTranslator.

Lemma length_append a b :
  String.length (a ++ b) = String.length a + String.length b.
Proof. induction a as [|c a IH]; [reflexivity|]. cbn. now rewrite IH. Qed.

Lemma attr_safe_char c :
  attr_safe c = true ->
  Ascii.eqb c "034" = false /\ Ascii.eqb c "<" = false /\ Ascii.eqb c "&" = false
  /\ (if ElementTree.is_xml_space c then " "%char else c) = c.
Proof.
  destruct c as [[] [] [] [] [] [] [] []]; vm_compute; intros H;
    try discriminate; repeat split.
Qed.

Lemma text_safe_char c :
  text_safe c = true ->
  Ascii.eqb c "<" = false /\ Ascii.eqb c "&" = false.
Proof.
  destruct c as [[] [] [] [] [] [] [] []]; vm_compute; intros H;
    try discriminate; repeat split.
Qed.

Lemma read_attr_value_plain name rest : forall f,
  all_chars attr_safe name = true ->
  String.length name < f ->
  ElementTree.read_attr_value "034" f (name ++ String "034" rest)
  = Some (name, rest).
Proof.
  induction name as [|c name IH]; intros f Hsafe Hf;
    (destruct f as [|f]; [inversion Hf|]).
  - reflexivity.
  - cbn [all_chars] in Hsafe. apply andb_true_iff in Hsafe as [Hc Hname].
    destruct (attr_safe_char c Hc) as (Hq & Hlt & Hamp & Hsp).
    cbn [append ElementTree.read_attr_value]. rewrite Hq, Hlt, Hamp.
    rewrite IH by (try assumption; cbn [String.length] in Hf; lia).
    now rewrite Hsp.
Qed.

Lemma read_text_plain text rest : forall f,
  all_chars text_safe text = true ->
  String.length text < f ->
  ElementTree.read_text f (text ++ String "<" rest)
  = Some (text, String "<" rest).
Proof.
  induction text as [|c text IH]; intros f Hsafe Hf;
    (destruct f as [|f]; [inversion Hf|]).
  - reflexivity.
  - cbn [all_chars] in Hsafe. apply andb_true_iff in Hsafe as [Hc Htext].
    destruct (text_safe_char c Hc) as (Hlt & Hamp).
    cbn [append ElementTree.read_text]. rewrite Hlt, Hamp.
    now rewrite IH by (try assumption; cbn [String.length] in Hf; lia).
Qed.


Lemma prefix_prefixb p : forall s, String.prefix p s = prefixb p s.
Proof.
  induction p as [|a p IH]; intros [|b s]; try reflexivity.
  cbn [prefix prefixb]. destruct (ascii_dec a b) as [->|Hne].
  - now rewrite Ascii.eqb_refl, IH.
  - apply Ascii.eqb_neq in Hne. now rewrite Hne.
Qed.

Ltac lex_step :=
  lazy -[ElementTree.read_attr_value ElementTree.parse_attrs
         ElementTree.parse_element ElementTree.parse_content
         ElementTree.read_text append Dict.mem String.prefix].

Ltac lex :=
  unfold dq, nl; cbn [append]; lex_step;
  repeat (rewrite prefix_prefixb; lex_step).

Lemma parse_attrs_end rest f :
  ElementTree.parse_attrs (S f) (String ">" rest) = Some ([], false, rest).
Proof. cbn [ElementTree.parse_attrs]. lex. reflexivity. Qed.

Lemma parse_attrs_name name rest f :
  all_chars attr_safe name = true ->
  String.length name < f ->
  ElementTree.parse_attrs (S f) (" name=" ++ dq ++ name ++ dq ++ ">" ++ rest)
  = Some ([("name"%string, name)], false, rest).
Proof.
  intros Hname Hf. cbn [ElementTree.parse_attrs]. lex.
  rewrite read_attr_value_plain by assumption.
  destruct f as [|f]; [inversion Hf|].
  now rewrite parse_attrs_end.
Qed.

Lemma take_name_string rest :
  ElementTree.take_name ("string " ++ rest) = ("string"%string, (" " ++ rest)%string).
Proof. reflexivity. Qed.

(** The parser on one written entry. *)
Lemma parse_string_element e rest f :
  all_chars attr_safe (fst e) = true ->
  all_chars text_safe (snd e) = true ->
  String.length (fst e) + String.length (snd e) + 3 <= f ->
  ElementTree.parse_element f
    ("string name=" ++ dq ++ fst e ++ dq ++ ">" ++ snd e ++ "</string>" ++ rest)
  = Some (string_element e, rest).
Proof.
  destruct e as [name text]. cbn [fst snd]. intros Hname Htext Hf.
  destruct f as [|[|f]]; [lia|lia|].
  cbn [ElementTree.parse_element].
  change ("string name=" ++ dq ++ name ++ dq ++ ">" ++ text ++ "</string>" ++ rest)%string
    with ("string " ++ ("name=" ++ dq ++ name ++ dq ++ ">" ++ text ++ "</string>" ++ rest))%string.
  rewrite take_name_string. cbn [Str.is_empty].
  change (" " ++ "name=" ++ dq ++ name ++ dq ++ ">" ++ text ++ "</string>" ++ rest)%string
    with (" name=" ++ dq ++ name ++ dq ++ ">" ++ (text ++ "</string>" ++ rest))%string.
  rewrite parse_attrs_name by (try assumption; lia).
  cbn [ElementTree.parse_content].
  change (text ++ "</string>" ++ rest)%string
    with (text ++ String "<" ("/string>" ++ rest))%string.
  rewrite read_text_plain by (try assumption; lia).
  lex. reflexivity.
Qed.


Lemma concat_empty_cons x l :
  String.concat "" (x :: l) = (x ++ String.concat "" l)%string.
Proof.
  destruct l as [|y l]; cbn [String.concat]; [|reflexivity].
  induction x as [|c x IH]; [reflexivity|]. cbn [append]. now rewrite <- IH.
Qed.

(** One step of the content parser: the white space before a written
    entry, the entry, and what follows it. *)
Lemma parse_content_child e rest f :
  all_chars attr_safe (fst e) = true ->
  all_chars text_safe (snd e) = true ->
  String.length (fst e) + String.length (snd e) + 9 <= f ->
  ElementTree.parse_content (S f)
    (nl ++ "    <string name=" ++ dq ++ fst e ++ dq ++ ">" ++ snd e
        ++ "</string>" ++ rest)
  = match ElementTree.parse_content f rest with
    | Some (tl, kids, r2) => Some ((nl ++ "    ")%string, (string_element e, tl) :: kids, r2)
    | None => None
    end.
Proof.
  destruct e as [name text]. unfold string_element. cbn [fst snd].
  intros Hname Htext Hf. cbn [ElementTree.parse_content].
  change (nl ++ "    <string name=" ++ dq ++ name ++ dq ++ ">" ++ text
             ++ "</string>" ++ rest)%string
    with ((nl ++ "    ") ++ String "<"
            ("string name=" ++ dq ++ name ++ dq ++ ">" ++ text
               ++ "</string>" ++ rest))%string.
  rewrite read_text_plain by (try reflexivity; cbn; lia).
  pose proof (parse_string_element (name, text) rest f Hname Htext) as He.
  unfold string_element in He. cbn [fst snd] in He.
  lex.
  unfold dq, nl in He. cbn [append] in He. rewrite He by lia.
  reflexivity.
Qed.


Lemma plain_entry_inv e :
  plain_entry e = true ->
  all_chars attr_safe (fst e) = true
  /\ all_chars text_safe (snd e) = true
  /\ Str.strip (snd e) = snd e.
Proof.
  unfold plain_entry. intros H.
  apply andb_true_iff in H as [H Hs]. apply andb_true_iff in H as [Hn Ht].
  apply String.eqb_eq in Hs. now repeat split.
Qed.

Lemma ledger_line_length e :
  String.length (ledger_line e)
  = String.length (fst e) + String.length (snd e) + 30.
Proof.
  unfold ledger_line, dq, nl. rewrite !length_append. cbn [String.length]. lia.
Qed.

(** The content parser on the lines of a written ledger. *)
Lemma parse_content_lines rs : forall f r,
  Forall (fun e => plain_entry e = true) rs ->
  String.length (String.concat "" (map ledger_line rs)) + 10 <= f ->
  ElementTree.parse_content f
    (nl ++ String.concat "" (map ledger_line rs) ++ "</resources>" ++ r)
  = Some (lead rs, ledger_children rs, ("resources>" ++ r)%string).
Proof.
  induction rs as [|e rs IH]; intros f r Hplain Hf.
  - destruct f as [|f]; [lia|]. cbn [map String.concat] in *.
    cbn [ElementTree.parse_content].
    change (nl ++ "" ++ "</resources>" ++ r)%string
      with (nl ++ String "<" ("/resources>" ++ r))%string.
    rewrite read_text_plain by (try reflexivity; cbn in *; lia).
    lex. reflexivity.
  - inversion Hplain as [|x l He Hrest]; subst.
    destruct (plain_entry_inv e He) as (Hname & Htext & _).
    cbn [map] in *. rewrite concat_empty_cons in *.
    rewrite length_append, ledger_line_length in Hf.
    destruct f as [|f]; [lia|].
    unfold ledger_line at 1. rewrite !append_assoc.
    rewrite parse_content_child by (try assumption; lia).
    pose proof (IH f r Hrest) as IH'.
    rewrite IH' by lia.
    destruct rs; reflexivity.
Qed.


Lemma all_chars_impl (p q : ascii -> bool) s :
  (forall c, p c = true -> q c = true) ->
  all_chars p s = true -> all_chars q s = true.
Proof.
  intros Hpq. induction s as [|c s IH]; [reflexivity|].
  cbn [all_chars]. intros H. apply andb_true_iff in H as [Hc Hs].
  now rewrite (Hpq c Hc), IH.
Qed.

Lemma all_chars_no_cr s :
  all_chars (fun c => negb (Ascii.eqb c "013")) s = true ->
  Str.contains_char "013" s = false.
Proof.
  induction s as [|c s IH]; [reflexivity|].
  cbn [all_chars Str.contains_char]. intros H.
  apply andb_true_iff in H as [Hc Hs]. apply negb_true_iff in Hc.
  now rewrite Hc, IH.
Qed.

Lemma attr_safe_no_cr c : attr_safe c = true -> negb (Ascii.eqb c "013") = true.
Proof.
  destruct c as [[] [] [] [] [] [] [] []]; vm_compute; intros H;
    try discriminate; reflexivity.
Qed.

Lemma text_safe_no_cr c : text_safe c = true -> negb (Ascii.eqb c "013") = true.
Proof.
  destruct c as [[] [] [] [] [] [] [] []]; vm_compute; intros H;
    try discriminate; reflexivity.
Qed.

Lemma ledger_lines_no_cr rs :
  Forall (fun e => plain_entry e = true) rs ->
  Str.contains_char "013" (String.concat "" (map ledger_line rs)) = false.
Proof.
  induction 1 as [|e rs He Hrs IH]; [reflexivity|].
  destruct (plain_entry_inv e He) as (Hname & Htext & _).
  cbn [map]. rewrite concat_empty_cons, contains_char_app, IH.
  unfold ledger_line. rewrite !contains_char_app.
  rewrite (all_chars_no_cr (fst e))
    by (eapply all_chars_impl; [apply attr_safe_no_cr|exact Hname]).
  rewrite (all_chars_no_cr (snd e))
    by (eapply all_chars_impl; [apply text_safe_no_cr|exact Htext]).
  reflexivity.
Qed.

Lemma skip_past_here stop s :
  String.prefix stop s = true ->
  ElementTree.skip_past stop s = Some (ElementTree.drop (String.length stop) s).
Proof. intros H. destruct s; cbn [ElementTree.skip_past]; now rewrite H. Qed.

Lemma skip_past_next stop c s :
  String.prefix stop (String c s) = false ->
  ElementTree.skip_past stop (String c s) = ElementTree.skip_past stop s.
Proof. intros H. cbn [ElementTree.skip_past]. now rewrite H. Qed.

Lemma skip_past_header rest :
  ElementTree.skip_past "?>" (XMLHandler.XML_HEADER ++ rest)
  = Some (nl ++ rest)%string.
Proof.
  unfold XMLHandler.XML_HEADER, dq, nl. cbn [append].
  repeat (rewrite skip_past_next by (rewrite prefix_prefixb; reflexivity)).
  rewrite skip_past_here by (rewrite prefix_prefixb; reflexivity).
  reflexivity.
Qed.

Lemma prefix_header rest :
  String.prefix "<?xml" (XMLHandler.XML_HEADER ++ rest) = true.
Proof. rewrite prefix_prefixb. reflexivity. Qed.

(** The parser on a written ledger. *)
Lemma parse_ledger rs :
  Forall (fun e => plain_entry e = true) rs ->
  ElementTree.parse
    (XMLHandler.XML_HEADER ++ "<resources>" ++ nl
       ++ String.concat "" (map ledger_line rs) ++ "</resources>" ++ nl)
  = Some (ElementTree.Element "resources" [] (lead rs) (ledger_children rs)).
Proof.
  intros Hplain. unfold ElementTree.parse.
  rewrite normalize_newlines_fixed.
  2:{ rewrite !contains_char_app, (ledger_lines_no_cr rs Hplain). reflexivity. }
  rewrite prefix_header, skip_past_header.
  pose proof (parse_content_lines rs) as Hlines.
  remember (String.concat "" (map ledger_line rs)) as body eqn:Hbody in *.
  remember (String.length
              (XMLHandler.XML_HEADER ++ "<resources>" ++ nl ++ body
                 ++ "</resources>" ++ nl)) as n eqn:Hn.
  assert (Hlen : String.length body + 10 <= n).
  { subst n. rewrite !length_append. cbn [String.length]. lia. }
  clear Hn Hbody.
  destruct n as [|n]; [lia|].
  specialize (Hlines (S n) nl Hplain Hlen).
  remember (lead rs) as first_text. remember (ledger_children rs) as kids.
  cbn [ElementTree.skip_misc]. lex.
  cbn [ElementTree.parse_element]. lex.
  rewrite parse_attrs_end.
  unfold nl in Hlines. cbn [append] in Hlines. rewrite Hlines.
  lex. reflexivity.
Qed.


Lemma findall_ledger first_text rs :
  ElementTree.findall
    (ElementTree.Element "resources" [] first_text (ledger_children rs)) "string"
  = map string_element rs.
Proof.
  unfold ElementTree.findall. cbn [ElementTree.children].
  induction rs as [|e rs IH]; [reflexivity|].
  cbn [ledger_children map fst filter]. unfold string_element at 1.
  cbn [ElementTree.tag]. cbn [String.eqb Ascii.eqb Bool.eqb].
  now rewrite IH.
Qed.

Lemma read_string_element acc e :
  Str.strip (snd e) = snd e ->
  XMLHandler.read_element acc (string_element e)
  = Dict.set (fst e) (snd e) acc.
Proof.
  intros Hstrip. unfold XMLHandler.read_element, string_element, ElementTree.get.
  cbn [ElementTree.attrib Dict.get String.eqb Ascii.eqb Bool.eqb].
  unfold XMLHandler.element_text.
  cbn [ElementTree.text ElementTree.children map String.concat].
  now rewrite Hstrip.
Qed.

(** Reading the elements of a written ledger gives its entries back. *)
Lemma read_ledger_elements rs : forall acc,
  Forall (fun e => plain_entry e = true) rs ->
  NoDup (Dict.keys acc ++ map fst rs) ->
  fold_left XMLHandler.read_element (map string_element rs) acc = acc ++ rs.
Proof.
  induction rs as [|e rs IH]; intros acc Hplain Hnd.
  - cbn. now rewrite app_nil_r.
  - inversion Hplain as [|x l He Hrest]; subst.
    destruct (plain_entry_inv e He) as (_ & _ & Hstrip).
    cbn [map fold_left]. rewrite read_string_element by exact Hstrip.
    rewrite set_fresh.
    2:{ intros Hin. apply NoDup_remove_2 in Hnd. apply Hnd.
        apply in_or_app. now left. }
    rewrite IH; [|exact Hrest|].
    + rewrite <- app_assoc. destruct e. reflexivity.
    + unfold Dict.keys in *. rewrite map_app, <- app_assoc. exact Hnd.
Qed.

Lemma encode_ledger_lines entries :
  XMLHandler.encode entries
  = (XMLHandler.XML_HEADER ++ "<resources>" ++ nl
       ++ String.concat "" (map ledger_line (map_records entries))
       ++ "</resources>" ++ nl)%string.
Proof.
  unfold XMLHandler.encode, map_records. rewrite map_map. reflexivity.
Qed.

Lemma map_records_plain entries :
  Forall (fun e => plain_entry e = true) entries ->
  Forall (fun e => plain_entry e = true) (map_records entries).
Proof.
  intros Hplain. unfold map_records. rewrite Forall_map. apply Forall_forall.
  intros name Hin.
  apply (Permutation_in _ (Permutation_sym (sorted_perm _))) in Hin.
  unfold item. destruct (Dict.get name entries) as [text|] eqn:E.
  - rewrite Forall_forall in Hplain. apply Hplain. now apply get_some_in.
  - apply get_none_not_in in E. contradiction.
Qed.

(** Reading back the text written for a ledger of plain entries. *)
Lemma read_written_ledger (xml_file : string) (entries : Dict.t string) :
  NoDup (Dict.keys entries) ->
  Forall (fun e => plain_entry e = true) entries ->
  XMLHandler.read_entries xml_file (Some (XMLHandler.encode entries))
  = (map_records entries, []).
Proof.
  intros Hnd Hplain.
  pose proof (map_records_plain entries Hplain) as Hrecords.
  unfold XMLHandler.read_entries.
  rewrite encode_ledger_lines, (parse_ledger _ Hrecords), findall_ledger.
  rewrite read_ledger_elements; [reflexivity|exact Hrecords|].
  cbn [Dict.keys Dict.empty map app].
  change (map fst (map_records entries)) with (Dict.keys (map_records entries)).
  rewrite map_records_keys.
  apply (Permutation_NoDup (sorted_perm _) Hnd).
Qed.

(** X17.  A ledger whose entries need no escaping survives being written
    and read back: reading the text that [write_entries] builds for it
    gives the same entries, sorted by name, without any error printed,
    and every lookup answers as in the ledger written. *)
Theorem ledger_round_trip (xml_file : string) (entries : Dict.t string) :
  NoDup (Dict.keys entries) ->
  Forall (fun e => plain_entry e = true) entries ->
  XMLHandler.read_entries xml_file (Some (XMLHandler.encode entries))
  = (map_records entries, [])
  /\ forall name,
       Dict.get name (map_records entries) = Dict.get name entries.
Proof.
  intros Hnd Hplain.
  split; [now apply read_written_ledger|intros name; apply map_records_lookup].
Qed.

Lemma ledger_round_trip_witness :
  XMLHandler.read_entries
    "out/flat.xml" (Some (XMLHandler.encode [("k2", "Au revoir"); ("k1", "Salut")]))
  = ([("k1", "Salut"); ("k2", "Au revoir")]%string, []).
Proof.
  destruct (ledger_round_trip "out/flat.xml"
              [("k2", "Au revoir"); ("k1", "Salut")]%string) as [H _].
  - repeat constructor; cbn; intuition discriminate.
  - repeat constructor.
  - exact H.
Defined.

End RoundTrip.

(* ===================================================================== *)
(** ** From the flattened files to the reconstructed groups *)
(* ===================================================================== *)

Section Pipeline.
Import AutoTranslator.

Lemma filter_none {A : Type} (f : A -> bool) l :
  (forall x, In x l -> f x = false) -> filter f l = [].
Proof.
  induction l as [|x l IH]; intros H; [reflexivity|].
  cbn [filter]. rewrite (H x (or_introl eq_refl)). apply IH.
  intros y Hy. apply H. now right.
Qed.

Lemma map_records_length m : List.length (map_records m) = Dict.size m.
Proof.
  unfold map_records, Dict.size. rewrite length_map.
  rewrite <- (Permutation_length (sorted_perm (Dict.keys m))).
  unfold Dict.keys. apply length_map.
Qed.

Lemma map_records_in m name path :
  Dict.get name m = Some path -> In (name, path) (map_records m).
Proof.
  intros H. apply get_some_in. now rewrite map_records_lookup.
Qed.

Lemma get_same_keys {V W : Type} (a : Dict.t V) (b : Dict.t W) name v :
  Dict.keys a = Dict.keys b -> Dict.get name a = Some v ->
  exists w, Dict.get name b = Some w.
Proof.
  intros Hk Ha. destruct (Dict.get name b) as [w|] eqn:E; [now exists w|].
  apply get_none_not_in in E. rewrite <- Hk in E.
  exfalso. apply E. apply mem_true_iff. unfold Dict.mem. now rewrite Ha.
Qed.

(** A successful [flatten] had both of its output paths given. *)
Lemma flatten_ok_paths self ex scan can_write out mapf :
  Unpacker.ok (Unpacker.flatten self ex scan can_write) = true ->
  Unpacker.out_xml self = Some out ->
  Unpacker.map_file self = Some mapf ->
  out <> ""%string /\ mapf <> ""%string.
Proof.
  unfold Unpacker.flatten. intros Hok Hout Hmapf. rewrite Hout, Hmapf in Hok.
  destruct out; [discriminate|]. destruct mapf; [discriminate|].
  split; discriminate.
Qed.

(** What [generate] leaves behind when both of its inputs were read. *)
Lemma generate_after_reading p fs can_write m translated zip log1 log2 :
  specified (Packer.in_xml p) = true ->
  specified (Packer.map_file p) = true ->
  Packer.read_map_file p fs = (true, Packer.with_map_data p m, log1) ->
  Packer.read_translated_xml (Packer.with_map_data p m) fs
  = (true, Packer.with_translated_entries (Packer.with_map_data p m) translated, log2) ->
  m <> [] ->
  Packer.out_zip p = Some zip -> zip <> ""%string ->
  let dir := PosixPath.div (PosixPath.parent (PosixPath.of_args [zip]))
                           "translated_temp" in
  let self3 :=
    Packer.with_target_dir
      (Packer.with_translated_entries (Packer.with_map_data p m) translated) dir in
  let g := Packer.generate p fs true can_write in
  Packer.self' g = self3
  /\ Packer.groups g = Packer.file_to_entries (Packer.group_entries self3 dir)
  /\ Packer.missing g = Packer.missing_translations (Packer.group_entries self3 dir)
  /\ Packer.processed g = Packer.processed_entries (Packer.group_entries self3 dir).
Proof.
  intros Hin Hmap Hread Hxml Hm Hzip Hz dir self3 g.
  unfold g, Packer.generate. rewrite Hin, Hmap, Hread. cbn [negb orb].
  rewrite Hxml. cbn [negb].
  cbn [Packer.map_data Packer.with_translated_entries Packer.with_map_data
       Packer.out_zip].
  destruct m as [|e m]; [congruence|]. cbn [Dict.is_empty].
  rewrite Hzip. destruct zip as [|c zip]; [congruence|]. cbn [Str.is_empty negb].
  fold dir. 
  match goal with
  | |- context [if ?b then _ else _] => destruct b
  end; repeat split; reflexivity.
Qed.

(** X18.  The two stages fit together: when [flatten] succeeds on
    entries that need no escaping, with names and paths that fit the
    map file, and [generate] is given the ledger and the map file as
    [flatten] wrote them, no entry is lost: nothing is counted as
    missing, every flattened name is processed, and its text is filed,
    under its name, in the group of the rewritten path of the file it
    came from. *)
Theorem flatten_then_generate
        (u : Unpacker.t) (ex : bool) (scan : list Unpacker.scanned)
        (can_write : string -> bool) (dir : PosixPath.t)
        (p : Packer.t) (fs : string -> option string)
        (can_write' : string -> bool) :
  let r := Unpacker.flatten u ex scan can_write in
  let st := Unpacker.collect dir scan in
  let g := Packer.generate p fs true can_write' in
  Unpacker.ok r = true ->
  Unpacker.extract_dir u = Some dir ->
  (forall file text, In (file, text) (Unpacker.written r) -> fs file = Some text) ->
  Packer.in_xml p = Unpacker.out_xml u ->
  Packer.map_file p = Unpacker.map_file u ->
  specified (Packer.out_zip p) = true ->
  Unpacker.all_entries st <> [] ->
  Forall (fun e => plain_entry e = true) (Unpacker.all_entries st) ->
  (forall name path, In (name, path) (Unpacker.st_map_data st) ->
                     map_name name = true /\ one_line path = true) ->
  Packer.missing g = 0
  /\ Packer.processed g = Dict.size (Unpacker.all_entries st)
  /\ exists target_dir,
       Packer.target_dir (Packer.self' g) = Some target_dir
       /\ forall name text,
            Dict.get name (Unpacker.all_entries st) = Some text ->
            exists path group,
              Dict.get name (Unpacker.st_map_data st) = Some path
              /\ Dict.get (target_file_key p target_dir path) (Packer.groups g)
                 = Some group
              /\ Dict.get name group = Some text.
Proof.
  intros r st g Hok Hdir Hfs Hin Hmap Hzip Hne Hplain Hclean.
  destruct (flatten_ok_inv u ex scan can_write Hok)
    as (dir0 & out & mapf & Hd & Hout & Hmapf & _ & Hw).
  rewrite Hdir in Hd. injection Hd as <-. fold r st in Hw.
  destruct (collect_coherent dir scan) as [Hkeys Hnd]. fold st in Hkeys, Hnd.
  destruct (flatten_ok_paths u ex scan can_write out mapf Hok Hout Hmapf)
    as [Hout_ne Hmapf_ne].
  rewrite Hout in Hin. rewrite Hmapf in Hmap.
  assert (Hledger : fs out = Some (XMLHandler.encode (Unpacker.all_entries st)))
    by (apply Hfs; rewrite Hw; now left).
  assert (Hindex : fs mapf = Some (Unpacker.map_file_text (Unpacker.st_map_data st)))
    by (apply Hfs; rewrite Hw; right; now left).
  assert (Hnd' : NoDup (Dict.keys (Unpacker.st_map_data st)))
    by now rewrite <- Hkeys.
  pose proof (read_written_map p fs mapf _ Hmap Hmapf_ne Hindex Hnd' Hclean) as Hread.
  set (m := map_records (Unpacker.st_map_data st)) in *.
  set (translated := map_records (Unpacker.all_entries st)).
  assert (Hxml : exists log2,
             Packer.read_translated_xml (Packer.with_map_data p m) fs
             = (true, Packer.with_translated_entries (Packer.with_map_data p m)
                                                     translated, log2)).
  { unfold Packer.read_translated_xml. cbn [Packer.in_xml Packer.with_map_data].
    rewrite Hin. destruct out as [|c out]; [congruence|]. cbn [Str.is_empty].
    rewrite Hledger, (read_written_ledger _ _ Hnd Hplain). eexists. reflexivity. }
  destruct Hxml as [log2 Hxml].
  assert (Hsize : Dict.size (Unpacker.st_map_data st)
                  = Dict.size (Unpacker.all_entries st)).
  { unfold Dict.size. rewrite <- (length_map fst (Unpacker.st_map_data st)).
    rewrite <- (length_map fst (Unpacker.all_entries st)).
    unfold Dict.keys in Hkeys. now rewrite Hkeys. }
  assert (Hm : m <> []).
  { intros E. apply (f_equal (@List.length _)) in E. unfold m in E.
    rewrite map_records_length, Hsize in E.
    destruct (Unpacker.all_entries st); [congruence|discriminate]. }
  destruct (Packer.out_zip p) as [zip|] eqn:Ezip; [|discriminate].
  assert (Hz : zip <> ""%string) by (intros ->; discriminate).
  assert (Hin_ok : specified (Packer.in_xml p) = true)
    by (rewrite Hin; destruct out; [congruence|reflexivity]).
  assert (Hmap_ok : specified (Packer.map_file p) = true)
    by (rewrite Hmap; destruct mapf; [congruence|reflexivity]).
  destruct (generate_after_reading p fs can_write' m translated zip _ log2
              Hin_ok Hmap_ok Hread Hxml Hm Ezip Hz)
    as (Hself & Hgroups & Hmissing & Hprocessed).
  fold g in Hself, Hgroups, Hmissing, Hprocessed.
  set (tdir := PosixPath.div (PosixPath.parent (PosixPath.of_args [zip]))
                             "translated_temp") in *.
  set (self3 := Packer.with_target_dir
                  (Packer.with_translated_entries (Packer.with_map_data p m)
                                                  translated) tdir) in *.
  assert (Hlookup : forall name text,
             Dict.get name (Unpacker.all_entries st) = Some text ->
             Dict.get name (Packer.translated_entries self3) = Some text).
  { intros name text H. cbn. unfold translated. now rewrite map_records_lookup. }
  destruct (group_counts self3 tdir (Dict.items (Packer.map_data self3))
                         (Packer.mk_state Dict.empty 0 0 [])) as [Hc Hs].
  fold (Packer.group_entries self3 tdir) in Hc, Hs.
  rewrite <- Hmissing in Hc, Hs. rewrite <- Hprocessed in Hs.
  rewrite filter_none in Hc.
  2:{ intros [name path] Hin'. cbn [fst].
      assert (Hget : Dict.get name (Unpacker.st_map_data st) = Some path).
      { rewrite <- map_records_lookup. apply in_get_some; [|exact Hin'].
        rewrite map_records_keys. apply (Permutation_NoDup (sorted_perm _) Hnd'). }
      destruct (get_same_keys _ (Unpacker.all_entries st) name path
                              (eq_sym Hkeys) Hget) as [text Htext].
      unfold Dict.mem. now rewrite (Hlookup name text Htext). }
  cbn in Hc, Hs.
  split; [exact Hc|]. split.
  { rewrite Hc in Hs. cbn in Hs. rewrite Hs.
    change (List.length m = Dict.size (Unpacker.all_entries st)).
    unfold m. now rewrite map_records_length. }
  exists tdir. split; [now rewrite Hself|].
  intros name text Htext.
  destruct (get_same_keys _ (Unpacker.st_map_data st) name text Hkeys Htext)
    as [path Hpath].
  exists path.
  destruct (group_merged self3 tdir (Dict.items (Packer.map_data self3))
              (Packer.mk_state Dict.empty 0 0 []) name path text)
    as (group & Hgroup & Hname).
  - cbn. change (NoDup (Dict.keys m)). unfold m. rewrite map_records_keys.
    apply (Permutation_NoDup (sorted_perm _) Hnd').
  - cbn. now apply map_records_in.
  - now apply Hlookup.
  - exists group. split; [exact Hpath|]. split; [|exact Hname].
    rewrite Hgroups. exact Hgroup.
Qed.

Lemma flatten_then_generate_witness :
  let g := Packer.generate PipelineSample.packer PipelineSample.fs true
                           Sample.writable in
  Packer.missing g = 0 /\ Packer.processed g = 2.
Proof.
  destruct (flatten_then_generate
              Sample.unpacker true Sample.scan Sample.writable
              (PosixPath.of_args ["in_extracted"%string])
              PipelineSample.packer PipelineSample.fs Sample.writable)
    as (Hmissing & Hprocessed & _).
  - reflexivity.
  - reflexivity.
  - intros file text Hin. vm_compute in Hin.
    destruct Hin as [E|[E|[]]]; injection E as <- <-; reflexivity.
  - reflexivity.
  - reflexivity.
  - reflexivity.
  - vm_compute. discriminate.
  - vm_compute. repeat constructor.
  - intros name path Hin. vm_compute in Hin.
    destruct Hin as [E|[E|[]]]; injection E as <- <-; split; reflexivity.
  - split; [exact Hmissing|exact Hprocessed].
Defined.

End Pipeline.

(* ===================================================================== *)
(** ** The path rewrite, in both variants *)
(* ===================================================================== *)

Section PathRewriteTheorems.
Import AutoTranslator.

(** C1, amended.  In [auto_translator.py], for a relative path and a
    non-empty locale tag, the path rewrite of reconstruction replaces
    every directory segment that starts with "values" by "values-"
    followed by the tag and keeps the other segments and the file name;
    the flag [found_values_dir] tells whether some segment matched; when
    none did, the path is returned unchanged and the warning is logged.
    The replacement text goes through the path constructor, so the first
    conjunct speaks of its components; for a tag without a slash it is
    one component.  The older variant's [modify_folder_name]
    ([fbtranslator.py]) gives the same result on the two examples of the
    specification but is another rewrite: on a relative path of at
    least two components it looks at the folder that holds the file
    only and, when the name of that folder starts with "values", appends
    a dash and the tag to it; every other segment is kept. *)
Theorem C1_path_rewrite (path tag : string) :
  relative path -> tag <> ""%string ->
  let original := PosixPath.of_args [path] in
  let dirs := PosixPath.parts (PosixPath.parent original) in
  let filename := PosixPath.name original in
  let target := fst (Packer.target_relative_path tag path) in
  let found := snd (Packer.target_relative_path tag path) in
  PosixPath.parts target
    = flat_map (fun seg => PosixPath.parse_rel (spec_rewrite_segment tag seg)) dirs
        ++ PosixPath.parse_rel filename
  /\ (Str.contains_char "/" tag = false -> PosixPath.parts original <> [] ->
      PosixPath.parts target = map (spec_rewrite_segment tag) dirs ++ [filename])
  /\ found = existsb (fun seg => Str.startswith seg "values") dirs
  /\ (found = false -> target = original)
  /\ (forall self dir st name,
        Packer.target_lang_suffix self = tag ->
        Packer.log (Packer.generate_entry self dir st (name, path))
        = Packer.log st ++ (if found then [] else [WarnNoValuesDir path name]))
  /\ PosixPath.str (fst (Packer.target_relative_path "fr" "res/values/strings.xml"))
     = "res/values-fr/strings.xml"%string
  /\ PosixPath.str (fst (Packer.target_relative_path "fr" "res/layout/x.xml"))
     = "res/layout/x.xml"%string
  /\ FbTranslator.Packer.modify_folder_name
       Sample.fb_packer (PosixPath.of_args ["res/values/strings.xml"%string])
     = FbTranslator.Ok (PosixPath.of_args ["res/values-fr/strings.xml"%string])
  /\ FbTranslator.Packer.modify_folder_name
       Sample.fb_packer (PosixPath.of_args ["res/layout/x.xml"%string])
     = FbTranslator.Ok (PosixPath.of_args ["res/layout/x.xml"%string])
  /\ (forall (older : FbTranslator.Packer.t) (folders : list string)
             (folder file : string),
        Forall PosixPath.segment (folders ++ [folder; file]) ->
        Str.contains_char "/" (FbTranslator.Packer.lang_suffix older) = false ->
        FbTranslator.Packer.modify_folder_name
          older (PosixPath.mk "" (folders ++ [folder; file]))
        = FbTranslator.Ok
            (PosixPath.mk ""
               (folders
                  ++ [if Str.startswith folder "values"
                      then (folder ++ "-" ++ FbTranslator.Packer.lang_suffix older)%string
                      else folder; file]))).
Proof.
  intros Hrel _ original dirs filename target found.
  pose proof (target_relative_path_shape tag path Hrel) as Hshape.
  cbv zeta in Hshape.
  assert (Horig : original = PosixPath.mk "" (PosixPath.parse_rel path)).
  { unfold original. rewrite of_args_relative by (now constructor).
    simpl. now rewrite app_nil_r. }
  pose proof (parse_rel_segments path) as Hseg.
  set (tl := PosixPath.parse_rel path) in *.
  assert (Hdirs : dirs = removelast tl) by (unfold dirs; now rewrite Horig).
  assert (Hname : filename = last tl ""%string)
    by (unfold filename; now rewrite Horig).
  assert (Htarget : target
                    = PosixPath.mk ""
                        (flat_map PosixPath.parse_rel
                                  (map (spec_rewrite_segment tag) dirs)
                           ++ PosixPath.parse_rel filename))
    by (unfold target; now rewrite Hshape, Hdirs, Hname).
  assert (Hfound : found = existsb (fun seg => Str.startswith seg "values") dirs)
    by (unfold found; now rewrite Hshape, Hdirs).
  pose proof (removelast_segments _ Hseg) as Hdseg. rewrite <- Hdirs in Hdseg.
  assert (Hflat : forall l,
             flat_map PosixPath.parse_rel (map (spec_rewrite_segment tag) l)
             = flat_map (fun seg => PosixPath.parse_rel (spec_rewrite_segment tag seg)) l)
    by (intros l; induction l; simpl; congruence).
  split; [|split; [|split; [|split; [|split; [|repeat split]]]]];
    try (intros older folders folder file; apply modify_folder_name_relative).
  - rewrite Htarget. unfold PosixPath.parts. cbn [PosixPath.root PosixPath.tail].
    now rewrite Hflat.
  - intros Htag Hne. rewrite Htarget.
    unfold PosixPath.parts. cbn [PosixPath.root PosixPath.tail].
    rewrite Horig in Hne. unfold PosixPath.parts in Hne.
    cbn [PosixPath.root PosixPath.tail] in Hne.
    rewrite (parse_rel_segment filename)
      by (rewrite Hname; now apply last_segment).
    f_equal. apply flat_map_parse_segments.
    rewrite Forall_map. eapply Forall_impl; [|exact Hdseg].
    intros seg. now apply rewritten_segment.
  - exact Hfound.
  - intros Hnone. rewrite Htarget, Horig. f_equal.
    rewrite Hfound in Hnone.
    assert (Hid : map (spec_rewrite_segment tag) dirs = dirs).
    { clear - Hnone. induction dirs as [|seg l IH]; [reflexivity|].
      simpl in Hnone. apply orb_false_iff in Hnone as [Hs Hl].
      simpl. unfold spec_rewrite_segment at 1. rewrite Hs. now rewrite IH. }
    rewrite Hid, (flat_map_parse_segments _ Hdseg), Hdirs, Hname.
    destruct tl as [|x tl'] eqn:Etl; [reflexivity|].
    rewrite (parse_rel_segment (last (x :: tl') ""%string))
      by (apply last_segment; [exact Hseg|discriminate]).
    symmetry. apply app_removelast_last. discriminate.
  - intros self dir st name Hsuffix. unfold Packer.generate_entry.
    rewrite Hsuffix.
    destruct (Packer.target_relative_path tag path) as [t f] eqn:E.
    unfold found. rewrite ?E. cbn [snd].
    destruct (Dict.get name (Packer.translated_entries self)); reflexivity.
Qed.

(** The amended statement at the first example of the specification,
    for both variants. *)
Lemma C1_path_rewrite_witness :
  PosixPath.parts (fst (Packer.target_relative_path "fr" "res/values/strings.xml"))
  = ["res"; "values-fr"; "strings.xml"]%string
  /\ FbTranslator.Packer.modify_folder_name
       Sample.fb_packer (PosixPath.mk "" ["res"; "values"; "strings.xml"]%string)
     = FbTranslator.Ok (PosixPath.mk "" ["res"; "values-fr"; "strings.xml"]%string).
Proof.
  destruct (C1_path_rewrite "res/values/strings.xml" "fr")
    as (_ & H & _ & _ & _ & _ & _ & _ & _ & Holder).
  - reflexivity.
  - discriminate.
  - split; [apply H; [reflexivity|discriminate]|].
    apply (Holder Sample.fb_packer ["res"%string] "values"%string
                  "strings.xml"%string).
    + repeat constructor.
    + reflexivity.
Defined.

(** C1 as stated fails in the older variant: a folder that starts with
    "values" gets the tag appended, not "values-" and the tag in its
    place, and a folder above the one that holds the file is not
    rewritten although it starts with "values". *)
Lemma C1_counterexample :
  FbTranslator.Packer.modify_folder_name
    Sample.fb_packer (PosixPath.of_args ["b/values-en/s2.xml"%string])
  = FbTranslator.Ok (PosixPath.of_args ["b/values-en-fr/s2.xml"%string])
  /\ PosixPath.of_args ["b/values-en-fr/s2.xml"%string]
     <> PosixPath.of_args ["b/values-fr/s2.xml"%string]
  /\ FbTranslator.Packer.modify_folder_name
       Sample.fb_packer (PosixPath.of_args ["values/x/s.xml"%string])
     = FbTranslator.Ok (PosixPath.of_args ["values/x/s.xml"%string])
  /\ PosixPath.of_args ["values/x/s.xml"%string]
     <> PosixPath.of_args ["values-fr/x/s.xml"%string].
Proof. repeat split; try reflexivity; vm_compute; discriminate. Qed.

End PathRewriteTheorems.
